(* ===== verification/_CoqProject ===== *)
-Q . S2P
Prelude.v
JsString.v
Interfaces.v
Stack.v
Suggestion.v
Caret.v
Mirror.v
Controller.v
Render.v
Session.v
Refinement.v
Editing.v
App.v
