(* ===== verification/Prelude.v ===== *)
(** * A verification development for the Avro phonetic input component

    The repository (omelab/bangla-keyboard) is a React application whose
    logic is the class component [AvroInput] (src/src/avro/AvroInput.tsx);
    src/src/App.tsx mounts two instances of it. [AvroInput] lets a user
    type Latin phonetic text into an [<input>] or a [<textarea>] and
    replaces each typed word by its Bengali transliteration when the
    word is committed with Space or Enter. Its parts, and the file of
    this development that models each one (in dependency order):

    - [Prelude] (this file): JavaScript strings as lists of UTF-16 code
      units ([jsstr]), JavaScript numbers used as indices as [Z], the
      [outcome] type of a handler that can throw a [TypeError] with its
      bind notation in [js_scope], the hint databases [avro] and
      [avro_simpl], the tactics [zlen_lia] and [outcome_cases], and the
      shared lemmas on [take]/[drop] and on lengths.
    - [JsString]: the ECMAScript built-ins the component calls
      ([substring], [slice], [substr], [split] on [/\n| /],
      [replace(/ /g, '.')], [a[i]] reads and [a[0] = x] writes, the
      falsy-empty [x || y]), written from the ECMAScript definitions,
      with their characterisations by [take]/[drop].
    - [Interfaces]: the element ([HTMLInputElement | HTMLTextAreaElement])
      as a record, and the two collaborators the component only calls,
      as type classes: [Transliterator] for [avro.parse] (avro-lib is not
      part of the sources, so it is modelled from the spec: a total
      function with [parse "" = ""]), and [TextLayout] for the browser's
      measurement of the mirror [div] built by [getCursorXY].
    - [Stack] (Module [Stack]): [getCurrentStack], [getStackRange].
    - [Suggestion] (Module [Suggestion]): Up/Down cycling of
      [selectedIndex] and [renderAvroSuggestion].
    - [Caret] (Module [Caret]): [getCursorXY] and [updateSuggestionPos].
    - [Mirror] (Module [Mirror]): [getCursorXY]'s document operations:
      the mirror [div] and [span] created, the style-copy loop, the
      [div] attached to [document.body] for the measurement and removed;
      the measurement reads the nodes through [MirrorLayout] (the
      browser's layout of a styled [div] and its [span]), and
      [text_layout_of] derives [Caret]'s [TextLayout] from it for a
      computed style.
    - [Controller] (Module [Controller]): [AvroInputState], the props the
      handlers read, the component (state, [textInput], props), the
      constructor's state, and [componentDidMount], [handleChange],
      [handleKeyPress], [handleBlurChange], each a function from the
      component to an [outcome] of the new component and the callbacks
      it fires. React's batching: a handler reads the [this.state] it
      started with, its [setState] updates are merged, then the
      controlled element is re-rendered and the [setState] callback
      runs.
    - [Render] (Module [Render]): the props object and the element's
      attributes as stdpp [gmap string _], [defaultProps], [propTypes],
      [styles], object spread, [render] with JSX's attribute order, and
      the props the handlers read ([controller_props]).
    - [Session] (Module [Session]): the browser around the component: a
      key press runs [onKeyDown], the default action (insert the key,
      delete backward, or nothing after [preventDefault]) and then
      [onChange]; blur (wired on the [<input>] only), a paste and any
      other edit of the surface, caret moves; the reachable components
      as an inductive relation.
    - [Refinement] (Module [Composition]): the composition state machine
      of spec sections 3 and 4.1 ([astep] on a text and a stack, with the
      observations the application sees), the relation [refines] and the
      forward simulation of the machine by [Session.dispatch].
    - [Editing] (Module [Editing]): the whole editing machine of the
      spec with the caret anywhere, as a labelled step relation
      [sstep]: word keys, Space and Enter with a stack and without one
      (the fallback, whose caret the spec leaves unspecified, so any
      caret inside the new text), Backspace (which at the start of the
      text shortens the stack without a value change), keys of no
      class, focus loss, and the surface's own edits, a paste, any
      other value change and a caret move; where the spec's invariant
      fails after such an edit,
      the splice takes the stack's length before the caret, the
      spec's [prefixLengthBeforeStack]. [erefines] relates a component
      to a state, [dispatch_sstep] is the simulation for one event, and
      [astep_sstep] shows the machine of [Refinement] is this one with
      the caret at the end.
    - [App] (Module [App]): the two JSX props objects of App.tsx, their
      resolution, and what [console.log] shows for the callbacks.

    Main results, by group. Refinement ([Refinement], [Editing]): every
    action sequence the spec's end-caret machine accepts is run by a
    freshly mounted component without throwing, with exactly the
    callbacks of the machine's observations, ending in a related state;
    every session of a mounted component, with the caret anywhere and
    edits of the surface and caret moves included, is a trace of the
    editing machine
    with the same callbacks; the spec's composition example holds for
    every word; the spec's stack invariant holds on the component after
    any sequence of notifications, and fails after a caret move, where
    the next commit duplicates text; erasing as many times as the stack
    is long ends the composition. Invariants ([Session]): every
    reachable component keeps [wf]; any finite run from [wf] returns;
    Up/Down are inert; Enter never inserts a newline; a word key in a
    non-empty field never moves the overlay. Handlers
    ([Controller]): each branch of [handleKeyPress], [handleChange],
    [handleBlurChange], the throwing cases included. Pure parts: the
    maximal-run characterisation of [getCurrentStack] ([Stack]),
    circular cycling and the overlay's visibility ([Suggestion]), the
    position's bounds and the doubled [offsetTop] ([Caret]), the
    style-copy loop and the scoped mirror, whose routine returns the
    position for the layout the copied style induces and restores the
    document's body ([Mirror]). Rendering ([Render], [App]): the
    element's wiring and styles whatever the props, the overlay's
    position whatever [suggestionStyle], the typing of props after
    [defaultProps] and [propTypes], and App's console output for any
    session. The divergences found are theorems for every text and
    word, each with a concrete run as its witness: a stale stack after
    a paste, a caret move, or a Backspace at the start of the field,
    which makes the next commit corrupt or duplicate text; a dead key's
    name ["Dead"] appended to the stack, which makes the next commit
    delete earlier text; the committed transliteration taken back into
    the stack after Enter; the overlay anchor computed before the
    re-render and not at the start of a composition; no blur handler on
    a [<textarea>]; and the others listed in the manifest.

    What is not modelled: the JSX tree beyond the holder, the text
    element and the overlay (React's reconciliation is not modelled),
    the CSS cascade, avro-lib's transliteration algorithm (an
    interface), the browser's text layout (the interfaces [TextLayout],
    with one law, non-negative offsets of a span inside its div, and
    [MirrorLayout], the layout of a styled div), where the
    arrow keys move the caret (a caret move is its own event, to any
    offset). The browser's default action is simplified: modifier keys
    are not modelled (Ctrl or Meta with a letter would insert it), keys
    outside the word range that insert text (the numeric keypad, some
    punctuation) are edits of the surface ([Input]), Backspace deletes
    one code unit even from a surrogate pair, and a paste replaces the
    whole value with the caret at its end (a paste elsewhere is an
    [Input] with its caret). Strings are lists of UTF-16 code units, as JavaScript's
    string operations see them: a character outside the BMP is two
    elements, and the browser's default action inserts [event.key] only
    when it is one character (one code unit or a surrogate pair). There
    is no recursion that is not structural, so no fuel
    is needed anywhere. *)

From stdpp Require Export base list.
From Stdlib Require Export ZArith Lia.
From Stdlib Require Ascii String.
Export Stdlib.Strings.String.StringSyntax.

(** ** JavaScript strings and numbers *)

(** A JavaScript string is a sequence of UTF-16 code units; a code unit
    is an [N] below [2^16]. *)
Abbreviation code_unit := N.
Abbreviation jsstr := (list N).

(** String literals: an ASCII [string] read as code units. *)
Definition js (s : Stdlib.Strings.String.string) : jsstr :=
  map (fun a => N.of_nat (Ascii.nat_of_ascii a)) (Stdlib.Strings.String.list_ascii_of_string s).
Arguments js _%_string_scope.

Definition cu_space : N := 32%N.
Definition cu_newline : N := 10%N.
Definition cu_dot : N := 46%N.

(** [s.length], a JavaScript number. *)
Definition zlen {A} (s : list A) : Z := Z.of_nat (length s).

(** ** Exceptions *)

(** The exceptions of the code: reading a property of [null] or
    [undefined] ([this.textInput!.selectionStart] with no element,
    [suggestionList[i].length] out of range), and the DOM's
    [NotFoundError] of [removeChild] on a node that is not a child. *)
Inductive exn := TypeError | NotFoundError.

Inductive outcome (A : Type) : Type :=
| Return (a : A)
| Throw (e : exn).
Arguments Return {A} a.
Arguments Throw {A} e.

Definition bind_outcome {A B} (c : outcome A) (k : A -> outcome B) : outcome B :=
  match c with Return a => k a | Throw e => Throw e end.

Declare Scope js_scope.
Delimit Scope js_scope with js.
Notation "x <- c ;; k" := (bind_outcome c (fun x => k))
  (at level 60, c at next level, right associativity) : js_scope.
Notation "s1 +++ s2" := (@app N s1 s2) (at level 60, right associativity) : js_scope.

(** [x!] of TypeScript: a property read through a value that may be
    [null] throws. *)
Definition deref {A} (o : option A) : outcome A :=
  match o with Some a => Return a | None => Throw TypeError end.

Lemma bind_outcome_Return {A B} (a : A) (k : A -> outcome B) :
  bind_outcome (Return a) k = k a.
Proof. reflexivity. Qed.

Lemma bind_outcome_Throw {A B} (e : exn) (k : A -> outcome B) :
  bind_outcome (Throw e) k = Throw e.
Proof. reflexivity. Qed.

Lemma bind_outcome_Return_inv {A B} (c : outcome A) (k : A -> outcome B) b :
  bind_outcome c k = Return b -> exists a, c = Return a /\ k a = Return b.
Proof. destruct c; simpl; [eauto | discriminate]. Qed.

(** ** Hint database *)

Create HintDb avro discriminated.
Create Rewrite HintDb avro_simpl.
#[export] Hint Rewrite @bind_outcome_Return @bind_outcome_Throw : avro_simpl.

(** ** Lists, indices and clamping *)

Local Open Scope Z_scope.

Lemma zlen_app {A} (l k : list A) : zlen (l ++ k) = zlen l + zlen k.
Proof. unfold zlen. rewrite length_app. lia. Qed.

Lemma zlen_nonneg {A} (l : list A) : 0 <= zlen l.
Proof. unfold zlen. lia. Qed.

Lemma zlen_cons {A} (x : A) l : zlen (x :: l) = zlen l + 1.
Proof. unfold zlen. simpl. lia. Qed.

Lemma zlen_nil {A} : zlen (@nil A) = 0.
Proof. reflexivity. Qed.

#[export] Hint Rewrite @zlen_app @zlen_cons @zlen_nil : avro_simpl.
#[export] Hint Resolve zlen_nonneg : avro.

(** The number of elements of [l] that satisfy [f]. *)
Definition count {A} (f : A -> bool) (l : list A) : nat := length (List.filter f l).

Lemma count_app {A} (f : A -> bool) (l k : list A) : count f (l ++ k) = (count f l + count f k)%nat.
Proof. unfold count. induction l as [|x l IH]; simpl; [done|]. destruct (f x); simpl; lia. Qed.

Lemma count_cons {A} (f : A -> bool) (x : A) (l : list A) :
  count f (x :: l) = ((if f x then 1 else 0) + count f l)%nat.
Proof. unfold count. simpl. by destruct (f x). Qed.

#[export] Hint Rewrite @count_app @count_cons : avro_simpl.

Lemma take_drop_split {A} (n : nat) (l : list A) : l = take n l ++ drop n l.
Proof. by rewrite take_drop. Qed.

Lemma take_app_exact {A} (l k : list A) n : n = length l -> take n (l ++ k) = l.
Proof. intros ->. apply take_app_length. Qed.

Lemma drop_app_exact {A} (l k : list A) n : n = length l -> drop n (l ++ k) = k.
Proof. intros ->. apply drop_app_length. Qed.

(** The number [Z.to_nat (zlen l)] is [length l]. *)
Lemma zlen_to_nat {A} (l : list A) : Z.to_nat (zlen l) = length l.
Proof. unfold zlen. lia. Qed.

#[export] Hint Rewrite @zlen_to_nat : avro_simpl.

(** Unfold [zlen] and solve an arithmetic goal. *)
Ltac zlen_lia :=
  unfold zlen in *; simpl in *;
  repeat progress (rewrite ?length_app, ?length_take, ?length_drop, ?length_map in *; simpl in * );
  lia.

(** Invert a hypothesis [H : ... = Return _] or [= Throw _] whose left
    side is a chain of binds, ifs and matches: case on every test until
    the equation is between constructors. *)
Ltac outcome_cases H :=
  repeat (try unfold bind_outcome, deref in H; simpl in H;
    match type of H with
    | context [match ?x with _ => _ end] => destruct x eqn:?; try discriminate H
    end).
