(* ===== verification/JsString.v ===== *)
(** * ECMAScript string and array built-ins used by [AvroInput]

    Each function follows the algorithm of the ECMAScript specification
    for integer arguments (the component never passes [NaN], fractions
    or infinities): [String.prototype.substring], [slice], [substr]
    (Annex B), [split] with a one-code-unit regular expression,
    [replace] with a global one-code-unit pattern, array reads [a[i]]
    (which give [undefined], here [None], out of range) and the write
    [a[0] = x], and the falsy-empty-string [x || y]. The lemmas
    characterise them by [take] and [drop] on the index ranges the
    component uses. *)

From S2P Require Import Prelude.

Local Open Scope Z_scope.

Module JS.

(** [ToIntegerOrInfinity] already applied: a relative index, negative
    counting from the end ([slice], [substr]). *)
Definition rel_index (i len : Z) : Z :=
  if i <? 0 then Z.max (len + i) 0 else Z.min i len.

(** An absolute index clamped to [0, len] ([substring]). *)
Definition clamp (i len : Z) : Z := Z.max 0 (Z.min i len).

(** The code units of [s] from index [from] (included) to [to]
    (excluded). *)
Definition range (s : jsstr) (from to : Z) : jsstr :=
  take (Z.to_nat (to - from)) (drop (Z.to_nat from) s).

(** [s.substring(a, b)]: both ends clamped, swapped when reversed. *)
Definition substring (s : jsstr) (a b : Z) : jsstr :=
  let a' := clamp a (zlen s) in
  let b' := clamp b (zlen s) in
  range s (Z.min a' b') (Z.max a' b').

(** [s.slice(a, b)]: relative ends, empty when [from >= to]. *)
Definition slice (s : jsstr) (a b : Z) : jsstr :=
  let from := rel_index a (zlen s) in
  let to := rel_index b (zlen s) in
  if from <? to then range s from to else [].

(** [s.substr(start, length)]. *)
Definition substr (s : jsstr) (start length : Z) : jsstr :=
  let st := rel_index start (zlen s) in
  let l := Z.min (Z.max length 0) (zlen s) in
  let en := Z.min (st + l) (zlen s) in
  if en <=? st then [] else range s st en.

(** [s.substr(start)]: the length argument is [undefined], read as
    the string's size. *)
Definition substr_from (s : jsstr) (start : Z) : jsstr :=
  substr s start (zlen s).

(** [s.split(re)] for a regular expression matching exactly one code
    unit [c] with [sep c = true] and never the empty string. The
    specification's loop scans [q] from the last cut [p]; a match at [q]
    ends at [q + 1 > p], so it always cuts; the result therefore has one
    more element than [s] has separators and is never empty (for [""]
    it is [[""]]). Written here as a structural recursion from the left. *)
Section Split.
Variable sep : code_unit -> bool.

Fixpoint split_on (s : jsstr) : list jsstr :=
  match s with
  | [] => [[]]
  | c :: s' =>
      if sep c then [] :: split_on s'
      else match split_on s' with
           | [] => [[c]]
           | w :: ws => (c :: w) :: ws
           end
  end.
End Split.

(** The regular expression [/\n| /]. *)
Definition is_ws (c : code_unit) : bool := (c =? cu_newline)%N || (c =? cu_space)%N.

(** [s.replace(/ /g, '.')]. *)
Definition replace_spaces (s : jsstr) : jsstr :=
  map (fun c => if (c =? cu_space)%N then cu_dot else c) s.

(** [a[i]] on an array: [undefined] out of range. *)
Definition array_get {A} (a : list A) (i : Z) : option A :=
  if i <? 0 then None else a !! Z.to_nat i.

(** [a[0] = x]: replaces the first element, or creates it when the
    array is empty. *)
Definition array_set0 {A} (a : list A) (x : A) : list A :=
  match a with [] => [x] | _ :: t => x :: t end.

(** [x || y] on strings: the empty string is falsy. *)
Definition or_else (x y : jsstr) : jsstr :=
  match x with [] => y | _ => x end.

(** ** Lemmas *)

Lemma clamp_in (i len : Z) : 0 <= i <= len -> clamp i len = i.
Proof. unfold clamp. lia. Qed.

Lemma rel_index_nonneg (i len : Z) : 0 <= i -> rel_index i len = Z.min i len.
Proof. unfold rel_index. intros. destruct (Z.ltb_spec i 0); lia. Qed.

Lemma rel_index_neg (i len : Z) : i < 0 -> rel_index i len = Z.max (len + i) 0.
Proof. unfold rel_index. intros. destruct (Z.ltb_spec i 0); lia. Qed.

Lemma range_0 (s : jsstr) (to : Z) : range s 0 to = take (Z.to_nat to) s.
Proof. unfold range. by rewrite Z.sub_0_r, drop_0. Qed.

(** Clamping a prefix length to the string's size changes nothing. *)
Lemma take_min_zlen (s : jsstr) (i : Z) :
  0 <= i -> take (Z.to_nat (Z.min i (zlen s))) s = take (Z.to_nat i) s.
Proof.
  intros Hi. destruct (Z.le_ge_cases i (zlen s)).
  - by rewrite Z.min_l.
  - rewrite Z.min_r, !take_ge by zlen_lia. done.
Qed.

(** [s.substring(0, i)] is the prefix of length [i]. *)
Lemma substring_0 (s : jsstr) (i : Z) :
  0 <= i -> substring s 0 i = take (Z.to_nat i) s.
Proof.
  intros Hi. pose proof (zlen_nonneg s). unfold substring, clamp.
  replace (Z.max 0 (Z.min 0 (zlen s))) with 0 by lia.
  rewrite Z.min_l, Z.max_r by lia. rewrite range_0, Z.max_r by lia.
  by apply take_min_zlen.
Qed.

(** [s.slice(0, -n)] for [n > 0] drops the last [n] code units. *)
Lemma slice_0_neg (s : jsstr) (n : Z) :
  0 < n -> slice s 0 (- n) = take (length s - Z.to_nat n) s.
Proof.
  intros Hn. unfold slice.
  rewrite rel_index_nonneg, rel_index_neg by lia.
  rewrite Z.min_l by apply zlen_nonneg.
  destruct (Z.ltb_spec 0 (Z.max (zlen s + - n) 0)) as [H|H].
  - rewrite range_0. f_equal. zlen_lia.
  - by replace (length s - Z.to_nat n)%nat with 0%nat by zlen_lia.
Qed.

Lemma take_sub_app (p r : jsstr) :
  take (length (p ++ r) - length r) (p ++ r) = p.
Proof. apply take_app_exact. rewrite length_app. lia. Qed.

(** [(p ++ r).slice(0, -r.length)] is [p] for a non-empty [r]. *)
Lemma slice_drop_suffix (p r : jsstr) :
  r <> [] -> slice (p ++ r) 0 (- zlen r) = p.
Proof.
  intros Hr. rewrite slice_0_neg.
  - rewrite zlen_to_nat. apply take_sub_app.
  - destruct r; [done|]. zlen_lia.
Qed.

(** [s.substr(i, s.length)] and [s.substr(i)] are the suffix from [i]. *)
Lemma substr_rest (s : jsstr) (i : Z) :
  0 <= i -> substr s i (zlen s) = drop (Z.to_nat i) s.
Proof.
  intros Hi. unfold substr. rewrite rel_index_nonneg by lia.
  rewrite Z.max_l, Z.min_id by apply zlen_nonneg.
  destruct (Z.leb_spec (Z.min (Z.min i (zlen s) + zlen s) (zlen s)) (Z.min i (zlen s))).
  - rewrite drop_ge; [done|]. zlen_lia.
  - unfold range. rewrite take_ge.
    + f_equal. zlen_lia.
    + rewrite length_drop. zlen_lia.
Qed.

Lemma substr_from_rest (s : jsstr) (i : Z) :
  0 <= i -> substr_from s i = drop (Z.to_nat i) s.
Proof. apply substr_rest. Qed.

(** [s.substr(0, i)] is the prefix of length [i]. *)
Lemma substr_0 (s : jsstr) (i : Z) :
  0 <= i -> substr s 0 i = take (Z.to_nat i) s.
Proof.
  intros Hi. pose proof (zlen_nonneg s). unfold substr. cbv zeta.
  rewrite rel_index_nonneg by lia.
  replace (Z.min 0 (zlen s)) with 0 by lia.
  replace (Z.min (0 + Z.min (Z.max i 0) (zlen s)) (zlen s)) with (Z.min i (zlen s)) by lia.
  destruct (Z.leb_spec (Z.min i (zlen s)) 0).
  - assert (i = 0 \/ s = []) as [->| ->] by (destruct s; [auto | left; zlen_lia]).
    + done.
    + by rewrite take_nil.
  - rewrite range_0. by apply take_min_zlen.
Qed.

(** *** [split] *)

Section SplitFacts.
Variable sep : code_unit -> bool.

Lemma split_on_nonempty (s : jsstr) : split_on sep s <> [].
Proof. destruct s as [|c s]; simpl; [done|]. destruct (sep c), (split_on sep s); done. Qed.

(** A string with no separator is one word. *)
Lemma split_on_nosep (r : jsstr) :
  Forall (fun c => sep c = false) r -> split_on sep r = [r].
Proof. induction 1 as [|c r Hc _ IH]; simpl; [done|]. by rewrite Hc, IH. Qed.

(** Splitting at a separator concatenates the words of both sides. *)
Lemma split_on_app_sep (p r : jsstr) (c : code_unit) :
  sep c = true -> split_on sep (p ++ c :: r) = split_on sep p ++ split_on sep r.
Proof.
  intros Hc. induction p as [|a p IH]; simpl; [by rewrite Hc|].
  rewrite IH. destruct (sep a); [done|].
  pose proof (split_on_nonempty p). by destruct (split_on sep p).
Qed.

(** Every string is a prefix that is empty or ends with a separator,
    followed by a separator-free run. *)
Lemma split_last_sep (s : jsstr) :
  exists p r, s = p ++ r /\ Forall (fun c => sep c = false) r /\
    (p = [] \/ exists p' c, p = p' ++ [c] /\ sep c = true).
Proof.
  induction s as [|c s' IH] using rev_ind.
  - exists [], []. auto.
  - destruct (sep c) eqn:Hc.
    + exists (s' ++ [c]), []. rewrite app_nil_r. eauto 10.
    + destruct IH as (p & r & -> & Hr & Hp). exists p, (r ++ [c]).
      rewrite app_assoc. split; [done|]. split; [|done].
      apply Forall_app. auto.
Qed.

End SplitFacts.

(** [a[a.length - 1]] is the last element. *)
Lemma array_get_last {A} (l : list A) : array_get l (zlen l - 1) = last l.
Proof.
  unfold array_get. destruct l as [|x l] using rev_ind; [done|].
  rewrite last_snoc, zlen_app, zlen_cons, zlen_nil.
  destruct (Z.ltb_spec (zlen l + (0 + 1) - 1) 0) as [H|H]; [pose proof (zlen_nonneg l); lia|].
  rewrite lookup_app_r by zlen_lia.
  replace (Z.to_nat (zlen l + (0 + 1) - 1) - length l)%nat with 0%nat by zlen_lia. done.
Qed.

End JS.
