(* ===== verification/Interfaces.v ===== *)
(** * The collaborators [AvroInput] only calls

    [Transliterator] is [avro.parse] of the avro-lib module, imported
    by src/src/avro/AvroInput.tsx but not among the sources: it is
    modelled from the spec (section 6) as a total, pure function whose
    only law is [parse "" = ""]. [TextLayout] is the browser's layout
    of the mirror [div] that [getCursorXY] builds: given the kind of
    element whose computed style was copied, the text before the caret
    and the text of the marker [span], it gives the marker's
    [offsetLeft] and [offsetTop]. Its law is that these offsets inside
    the [div] are not negative. The theorems of the other files are
    proved against these classes, for every instance. *)

From S2P Require Import Prelude.

Local Open Scope Z_scope.

(** The two element kinds [render] can produce ([props.type]). *)
Inductive tagName := INPUT | TEXTAREA.

#[export] Instance tagName_eq_dec : EqDecision tagName.
Proof. solve_decision. Defined.

(** The element [textInput] ([HTMLInputElement] or
    [HTMLTextAreaElement]) as far as the component reads or writes it:
    its tag, its current [value], the caret ([selectionStart], equal to
    [selectionEnd]: the component always sets both together) and its
    layout box. *)
Record element := mkElement {
  tag : tagName;
  el_value : jsstr;
  selectionStart : Z;
  offsetLeft : Z;
  offsetTop : Z;
  offsetWidth : Z;
  offsetHeight : Z
}.

Definition set_value (el : element) (v : jsstr) : element :=
  mkElement (tag el) v (selectionStart el) (offsetLeft el) (offsetTop el)
    (offsetWidth el) (offsetHeight el).

Definition set_caret (el : element) (c : Z) : element :=
  mkElement (tag el) (el_value el) c (offsetLeft el) (offsetTop el)
    (offsetWidth el) (offsetHeight el).

(** [avro.parse]. *)
Class Transliterator := parse : jsstr -> jsstr.

Class TransliteratorLaws `{Transliterator} :=
  parse_empty : parse [] = [].

(** Measuring the marker [span] of [getCursorXY]: [(span.offsetLeft,
    span.offsetTop)]. *)
Class TextLayout := span_offset : tagName -> jsstr -> jsstr -> Z * Z.

Class TextLayoutLaws `{TextLayout} :=
  span_offset_nonneg : forall t before marker,
    0 <= fst (span_offset t before marker) /\ 0 <= snd (span_offset t before marker).

(** The transliterator that changes nothing, used by the round-trip
    theorem of the spec (section 8). It is not an instance: theorems
    name it where they use it. *)
Definition identity_transliterator : Transliterator := fun s => s.

Lemma identity_transliterator_laws : @TransliteratorLaws identity_transliterator.
Proof. reflexivity. Qed.
