(* ===== verification/Stack.v ===== *)
(** * The composition stack: [getCurrentStack] and [getStackRange]

    [getCurrentStack(value, selection)] (AvroInput.tsx, lines 155-159)
    gives the word being typed: the text before the caret split on
    [/\n| /], last piece. [getStackRange(stack, val, selection)] (lines
    161-170) gives the caret position after the stack is replaced by its
    transliteration. The main theorem characterises [getCurrentStack] as
    the maximal separator-free run ending at the caret (spec section 8,
    first property), which makes it idempotent. *)

From S2P Require Import Prelude JsString Interfaces.

Local Open Scope Z_scope.

Module Stack.

(** [getCurrentStack]: [words[words.length - 1]], [None] standing for
    [undefined]. *)
Definition getCurrentStack (value : jsstr) (selection : Z) : option jsstr :=
  let subString := JS.substring value 0 selection in
  let words := JS.split_on JS.is_ws subString in
  JS.array_get words (zlen words - 1).

(** JavaScript's [+] on a string operand: [undefined] is converted to the
    string "undefined". *)
Definition to_js_string (o : option jsstr) : jsstr :=
  match o with Some s => s | None => js "undefined" end.

Section WithParse.
Context `{Transliterator}.

(** [getStackRange]. *)
Definition getStackRange (stack val : jsstr) (selection : Z) : Z :=
  if 0 <? zlen stack then
    let subValue := JS.substring val 0 selection in
    let valWithoutStack := JS.slice subValue 0 (- zlen stack) in
    let withParsedStack := valWithoutStack ++ parse stack in
    zlen withParsedStack
  else selection.

End WithParse.

(** ** Specification: the maximal run *)

(** [r] is the maximal trailing run of [s] without space or newline:
    [s = p ++ r], [r] has no separator, and [p] is empty or ends with
    one. *)
Definition trailing_run (s r : jsstr) : Prop :=
  exists p, s = p ++ r /\ Forall (fun c => JS.is_ws c = false) r /\
    (p = [] \/ exists p' c, p = p' ++ [c] /\ JS.is_ws c = true).

Lemma trailing_run_nil (r : jsstr) : trailing_run [] r -> r = [].
Proof. intros (p & E & _ & _). by destruct p, r. Qed.

(** Peeling the last code unit: a separator ends the run, any other
    code unit is its last one. *)
Lemma trailing_run_snoc (s r : jsstr) (c : code_unit) :
  trailing_run (s ++ [c]) r ->
  if JS.is_ws c then r = [] else exists r', r = r' ++ [c] /\ trailing_run s r'.
Proof.
  intros (p & E & Hr & Hp). destruct r as [|c2 r' _] using rev_ind.
  - rewrite app_nil_r in E. subst p.
    destruct Hp as [Hp|(p' & c' & Hp & Hc')]; [by destruct s|].
    apply app_inj_tail in Hp as [_ <-]. by rewrite Hc'.
  - rewrite app_assoc in E. apply app_inj_tail in E as [-> <-].
    apply Forall_app in Hr as [Hr Hc]. inversion Hc as [|? ? Hc' _]. rewrite Hc'.
    exists r'. split; [done|]. exists p. auto.
Qed.

(** The run is unique. *)
Lemma trailing_run_unique (s r1 r2 : jsstr) :
  trailing_run s r1 -> trailing_run s r2 -> r1 = r2.
Proof.
  revert r1 r2. induction s as [|c s IH] using rev_ind; intros r1 r2 H1 H2.
  - by rewrite (trailing_run_nil _ H1), (trailing_run_nil _ H2).
  - apply trailing_run_snoc in H1, H2. destruct (JS.is_ws c); [congruence|].
    destruct H1 as (r1' & -> & H1), H2 as (r2' & -> & H2). f_equal. eauto.
Qed.

(** The last word of the split is the trailing run. *)
Lemma last_split_trailing_run (s : jsstr) :
  exists r, last (JS.split_on JS.is_ws s) = Some r /\ trailing_run s r.
Proof.
  destruct (JS.split_last_sep JS.is_ws s) as (p & r & -> & Hr & Hp). exists r.
  split; [|exists p; auto].
  destruct Hp as [->|(p' & c & -> & Hc)].
  - by rewrite app_nil_l, JS.split_on_nosep.
  - rewrite <- app_assoc. simpl. rewrite JS.split_on_app_sep by done.
    by rewrite (JS.split_on_nosep _ r Hr), last_snoc.
Qed.

Lemma trailing_run_nosep (r : jsstr) :
  Forall (fun c => JS.is_ws c = false) r -> trailing_run r r.
Proof. intros. exists []. auto. Qed.

Lemma trailing_run_Forall (s r : jsstr) :
  trailing_run s r -> Forall (fun c => JS.is_ws c = false) r.
Proof. by intros (p & _ & Hr & _). Qed.

#[export] Hint Resolve trailing_run_nosep trailing_run_Forall : avro.

(** [getCurrentStack] at a caret inside the text is defined and is the
    trailing run of the text before the caret. *)
Lemma getCurrentStack_run (value : jsstr) (sel : Z) :
  0 <= sel -> exists r, getCurrentStack value sel = Some r /\ trailing_run (take (Z.to_nat sel) value) r.
Proof.
  intros Hsel. unfold getCurrentStack. rewrite JS.array_get_last, JS.substring_0 by done.
  apply last_split_trailing_run.
Qed.

Lemma getCurrentStack_of_run (value : jsstr) (sel : Z) (r : jsstr) :
  0 <= sel -> trailing_run (take (Z.to_nat sel) value) r -> getCurrentStack value sel = Some r.
Proof.
  intros Hsel Hr. destruct (getCurrentStack_run value sel Hsel) as (r' & -> & Hr').
  f_equal. eapply trailing_run_unique; eauto.
Qed.

Lemma getCurrentStack_to_run (value : jsstr) (sel : Z) (r : jsstr) :
  0 <= sel -> getCurrentStack value sel = Some r -> trailing_run (take (Z.to_nat sel) value) r.
Proof.
  intros Hsel Hr. destruct (getCurrentStack_run value sel Hsel) as (r' & Hr' & Htr). congruence.
Qed.

(** ** Theorems *)

(** C4. For a caret offset [sel >= 0], [getCurrentStack value sel] is
    defined (never [undefined]) and is exactly the maximal run of the
    text before the caret that contains no space or newline. *)
Theorem getCurrentStack_spec (value : jsstr) (sel : Z) (r : jsstr) :
  0 <= sel ->
  getCurrentStack value sel = Some r <-> trailing_run (take (Z.to_nat sel) value) r.
Proof.
  intros Hsel. split; [by apply getCurrentStack_to_run | by apply getCurrentStack_of_run].
Qed.

(** Re-extracting the stack from the stack itself, with the caret
    at its end, gives it back: [getCurrentStack] is idempotent. *)
Theorem getCurrentStack_idempotent (value : jsstr) (sel : Z) (r : jsstr) :
  0 <= sel -> getCurrentStack value sel = Some r ->
  getCurrentStack r (zlen r) = Some r.
Proof.
  intros Hsel Hr. apply getCurrentStack_to_run in Hr; [|done].
  apply getCurrentStack_of_run; [apply zlen_nonneg|].
  rewrite zlen_to_nat, firstn_all. eauto with avro.
Qed.

Section RangeTheorems.
Context `{Transliterator}.

(** When the caret ends the text [p ++ stack] and the stack is not
    empty, [getStackRange] is the caret position just after the
    transliterated stack: [p.length + parse(stack).length]. *)
Theorem getStackRange_after_parse (p stack q : jsstr) :
  stack <> [] ->
  getStackRange stack (p ++ stack ++ q) (zlen (p ++ stack)) = zlen p + zlen (parse stack).
Proof.
  intros Hs. unfold getStackRange.
  destruct (Z.ltb_spec 0 (zlen stack)) as [_|Hz]; [|destruct stack; [done|zlen_lia]].
  rewrite JS.substring_0 by apply zlen_nonneg. rewrite zlen_to_nat, app_assoc, take_app_length.
  by rewrite JS.slice_drop_suffix, zlen_app.
Qed.

Lemma getStackRange_empty (val : jsstr) (sel : Z) : getStackRange [] val sel = sel.
Proof. reflexivity. Qed.

End RangeTheorems.

(** ** Concrete runs and witnesses *)

Example getCurrentStack_second_word :
  getCurrentStack (js "ami tomake") 10 = Some (js "tomake").
Proof. reflexivity. Qed.

Example getCurrentStack_after_newline :
  getCurrentStack (js "ami" ++ [cu_newline] ++ js "bhalo") 6 = Some (js "bh").
Proof. reflexivity. Qed.

Example getCurrentStack_at_space :
  getCurrentStack (js "ami ") 4 = Some [].
Proof. reflexivity. Qed.

Lemma getCurrentStack_spec_witness :
  (0 <= 5) /\
  (getCurrentStack (js "ab cd") 5 = Some (js "cd") <->
   trailing_run (take (Z.to_nat 5) (js "ab cd")) (js "cd")).
Proof. split; [lia|]. apply getCurrentStack_spec. lia. Defined.

Lemma getCurrentStack_idempotent_witness :
  (0 <= 5) /\ getCurrentStack (js "ab cd") 5 = Some (js "cd") /\
  getCurrentStack (js "cd") (zlen (js "cd")) = Some (js "cd").
Proof.
  split; [lia|]. split; [reflexivity|].
  apply (getCurrentStack_idempotent (js "ab cd") 5); [lia | reflexivity].
Defined.

Lemma getStackRange_after_parse_witness :
  js "ami" <> [] /\
  @getStackRange identity_transliterator (js "ami") (js "x " ++ js "ami" ++ js " y") (zlen (js "x " ++ js "ami"))
  = zlen (js "x ") + zlen (@parse identity_transliterator (js "ami")).
Proof.
  split; [discriminate|].
  apply (@getStackRange_after_parse identity_transliterator); discriminate.
Defined.

End Stack.
