(* ===== verification/Suggestion.v ===== *)
(** * The suggestion list: cycling and the overlay

    The Up/Down branch of [handleKeyPress] (AvroInput.tsx, lines
    121-134) moves [selectedIndex] around the list; [renderAvroSuggestion]
    (lines 185-213) shows the overlay only when the first suggestion is
    not empty, with the item at [selectedIndex] marked active. The
    theorems: cycling keeps the index in range, equals arithmetic modulo
    the length, and Up undoes Down; the overlay is shown exactly when
    slot 0 is non-empty, marks exactly one item for an index in range,
    and throws on an empty list (reading [.length] of [undefined]). *)

From S2P Require Import Prelude JsString.

Local Open Scope Z_scope.

Module Suggestion.

(** Up (key code 38): [selectedIndex === 0 ? length - 1 : selectedIndex - 1]. *)
Definition cycleUp (len selectedIndex : Z) : Z :=
  if selectedIndex =? 0 then len - 1 else selectedIndex - 1.

(** Down (key code 40): [selectedIndex === length - 1 ? 0 : selectedIndex + 1]. *)
Definition cycleDown (len selectedIndex : Z) : Z :=
  if selectedIndex =? len - 1 then 0 else selectedIndex + 1.

(** What the overlay shows: its position and the items, each with
    whether it has the active style. *)
Record overlay := mkOverlay {
  ov_left : Z;
  ov_top : Z;
  ov_items : list (jsstr * bool)
}.

(** [renderSuggestionList]: [idx === selectedIndex] marks the active item. *)
Definition renderSuggestionList (suggestionList : list jsstr) (selectedIndex : Z)
  : list (jsstr * bool) :=
  imap (fun idx item => (item, bool_decide (Z.of_nat idx = selectedIndex))) suggestionList.

(** [renderAvroSuggestion]: [suggestionList[0].length] throws when the
    list is empty; the overlay is rendered only for a non-empty first
    suggestion, otherwise nothing ([None], the [undefined] the method
    returns). *)
Definition renderAvroSuggestion (suggestionLeft suggestionTop : Z)
    (suggestionList : list jsstr) (selectedIndex : Z) : outcome (option overlay) :=
  (first <- deref (JS.array_get suggestionList 0) ;;
   Return (if 0 <? zlen first
           then Some (mkOverlay suggestionLeft suggestionTop
                        (renderSuggestionList suggestionList selectedIndex))
           else None))%js.

(** The number of items marked active. *)
Definition active_count (items : list (jsstr * bool)) : nat :=
  length (filter (fun it => it.2 = true) items).

(** ** Lemmas *)

Lemma renderSuggestionList_length (l : list jsstr) (sel : Z) :
  length (renderSuggestionList l sel) = length l.
Proof. apply length_imap. Qed.

Lemma active_count_cons (x : jsstr) (b : bool) items :
  active_count ((x, b) :: items) = ((if b then 1 else 0) + active_count items)%nat.
Proof.
  unfold active_count. rewrite filter_cons. simpl.
  case_decide as Hb; destruct b; simpl in *; congruence.
Qed.

Lemma active_count_mark (l : list jsstr) (sel : Z) :
  active_count (renderSuggestionList l sel) = (if bool_decide (0 <= sel < zlen l) then 1%nat else 0%nat).
Proof.
  unfold renderSuggestionList. revert sel. induction l as [|x l IH]; intros sel.
  - rewrite bool_decide_false; [done|]. unfold zlen. simpl. lia.
  - rewrite imap_cons, active_count_cons.
    rewrite (imap_ext _ (fun idx item => (item, bool_decide (Z.of_nat idx = sel - 1)))).
    2: { intros i y _. simpl. f_equal. apply bool_decide_ext. lia. }
    rewrite IH. unfold zlen. simpl.
    repeat case_bool_decide; lia.
Qed.

(** ** Theorems *)

(** C23. For a list of at least two suggestions and an index in range,
    Up and Down keep [selectedIndex] in range. *)
Theorem cycle_in_range (len idx : Z) :
  1 < len -> 0 <= idx < len ->
  0 <= cycleUp len idx < len /\ 0 <= cycleDown len idx < len.
Proof.
  intros Hlen Hidx. unfold cycleUp, cycleDown.
  destruct (Z.eqb_spec idx 0), (Z.eqb_spec idx (len - 1)); lia.
Qed.

(** In range, Up is [(idx + len - 1) mod len] and Down is
    [(idx + 1) mod len]: the cycling is circular, as the spec says. *)
Theorem cycle_modular (len idx : Z) :
  0 <= idx < len ->
  cycleUp len idx = (idx + len - 1) mod len /\ cycleDown len idx = (idx + 1) mod len.
Proof.
  intros Hidx. unfold cycleUp, cycleDown. split.
  - destruct (Z.eqb_spec idx 0) as [->|H].
    + rewrite Z.mod_small; lia.
    + rewrite <- (Z.mod_add _ (-1)), Z.mod_small; lia.
  - destruct (Z.eqb_spec idx (len - 1)) as [->|H].
    + replace (len - 1 + 1) with len by lia. by rewrite Z.mod_same by lia.
    + rewrite Z.mod_small; lia.
Qed.

(** C24. Up undoes Down and Down undoes Up on an index in range. *)
Theorem cycle_inverse (len idx : Z) :
  0 <= idx < len ->
  cycleUp len (cycleDown len idx) = idx /\ cycleDown len (cycleUp len idx) = idx.
Proof.
  intros Hidx. unfold cycleUp, cycleDown.
  destruct (Z.eqb_spec idx (len - 1)), (Z.eqb_spec idx 0);
    repeat (match goal with |- context [?a =? ?b] => destruct (Z.eqb_spec a b) end); lia.
Qed.

(** C25. The overlay is shown exactly when the first suggestion is not
    empty, and then it lists every suggestion with exactly one active
    item when [selectedIndex] is in range; an empty list makes the
    render throw. *)
Theorem renderAvroSuggestion_spec (left top : Z) (l : list jsstr) (sel : Z) :
  match l with
  | [] => renderAvroSuggestion left top l sel = Throw TypeError
  | first :: rest =>
      (first = [] -> renderAvroSuggestion left top l sel = Return None) /\
      (first <> [] -> exists ov,
         renderAvroSuggestion left top l sel = Return (Some ov) /\
         fst <$> ov_items ov = first :: rest /\
         active_count (ov_items ov) = (if bool_decide (0 <= sel < zlen l) then 1%nat else 0%nat))
  end.
Proof.
  destruct l as [|first rest]; [done|]. unfold renderAvroSuggestion. simpl. split.
  - by intros ->.
  - intros Hf. destruct (Z.ltb_spec 0 (zlen first)) as [_|H].
    + eexists. split; [done|]. simpl. split.
      * unfold renderSuggestionList. rewrite fmap_imap.
        rewrite (imap_ext _ (const id)) by done. by rewrite imap_const, list_fmap_id.
      * apply active_count_mark.
    + destruct first; [done|]. zlen_lia.
Qed.

(** ** Concrete runs and witnesses *)

(** The spec's cycling example over three suggestions: Up from 0 goes to
    2, Up again to 1, Down from 2 back to 0. *)
Example cycle_spec_example :
  cycleUp 3 0 = 2 /\ cycleUp 3 2 = 1 /\ cycleDown 3 2 = 0.
Proof. repeat split. Qed.

Lemma cycle_in_range_witness :
  1 < 3 /\ 0 <= 2 < 3 /\ (0 <= cycleUp 3 2 < 3 /\ 0 <= cycleDown 3 2 < 3).
Proof. split; [lia|]. split; [lia|]. apply cycle_in_range; lia. Defined.

Lemma cycle_modular_witness :
  0 <= 0 < 3 /\ (cycleUp 3 0 = (0 + 3 - 1) mod 3 /\ cycleDown 3 0 = (0 + 1) mod 3).
Proof. split; [lia|]. apply cycle_modular; lia. Defined.

Lemma cycle_inverse_witness :
  0 <= 1 < 3 /\ (cycleUp 3 (cycleDown 3 1) = 1 /\ cycleDown 3 (cycleUp 3 1) = 1).
Proof. split; [lia|]. apply cycle_inverse; lia. Defined.

Example renderAvroSuggestion_hidden :
  renderAvroSuggestion 4 20 [[]] 0 = Return None.
Proof. reflexivity. Qed.

Lemma renderAvroSuggestion_spec_witness :
  js "ami" <> [] /\
  exists ov, renderAvroSuggestion 4 20 [js "ami"; js "amee"] 1 = Return (Some ov) /\
    fst <$> ov_items ov = [js "ami"; js "amee"] /\ active_count (ov_items ov) = 1%nat.
Proof.
  split; [discriminate|].
  destruct (renderAvroSuggestion_spec 4 20 [js "ami"; js "amee"] 1) as [_ H].
  exact (H ltac:(discriminate)).
Defined.

End Suggestion.
