(* ===== verification/Caret.v ===== *)
(** * The caret coordinate resolver: [getCursorXY] and [updateSuggestionPos]

    [getCursorXY] (AvroInput.tsx, lines 315-353) copies the element's
    text up to the caret into a mirror [div] (spaces replaced by ['.']
    for an [<input>]), appends a marker [span] holding the rest of the
    text or ['.'], and reads the marker's offsets, adding the element's
    own [offsetLeft]/[offsetTop]. [updateSuggestionPos] (lines 172-183)
    clamps the result to the element's [offsetWidth]/[offsetHeight] from
    above and places the overlay 10 pixels below. The measurement is the
    [TextLayout] interface. The theorems: the mirror holds exactly the
    text before the caret and a non-empty marker, the overlay position
    is bounded, and the element's [offsetTop] is added twice. *)

From S2P Require Import Prelude JsString Interfaces.

Local Open Scope Z_scope.

Module Caret.

(** The text of the mirror [div] and of the marker [span] (lines
    326-338). *)
Definition mirrorContent (input : element) (selectionPoint : Z) : jsstr * jsstr :=
  let swap := cu_dot in
  let inputValue :=
    if decide (tag input = INPUT) then JS.replace_spaces (el_value input) else el_value input in
  let textContent := JS.substr inputValue 0 selectionPoint in
  let spanText := JS.or_else (JS.substr_from inputValue selectionPoint) [swap] in
  (textContent, spanText).

Section WithLayout.
Context `{TextLayout}.

(** [getCursorXY]. *)
Definition getCursorXY (input : element) (selectionPoint : Z) : Z * Z :=
  let inputX := offsetLeft input in
  let inputY := offsetTop input in
  let '(textContent, spanText) := mirrorContent input selectionPoint in
  let '(spanX, spanY) := span_offset (tag input) textContent spanText in
  (inputX + spanX, inputY + spanY).

(** The arithmetic of [updateSuggestionPos] once [getCursorXY] has
    answered: [(suggestionLeft, suggestionTop)]. *)
Definition suggestionPos (input : element) : Z * Z :=
  let '(x0, y0) := getCursorXY input (selectionStart input) in
  let offsetY := 10 in
  let x := if x0 >? offsetWidth input then offsetWidth input else x0 in
  let y := if y0 >? offsetHeight input then offsetHeight input else y0 in
  (x, y + offsetTop input + offsetY).

(** [updateSuggestionPos]: [this.textInput!] throws without an element. *)
Definition updateSuggestionPos (textInput : option element) : outcome (Z * Z) :=
  (input <- deref textInput ;; Return (suggestionPos input))%js.

End WithLayout.

(** A layout with fixed-width glyphs of 8 pixels on one line, used by
    the concrete runs below. *)
Definition monospace_layout : TextLayout :=
  fun _ before _ => (8 * zlen before, 0).

Lemma monospace_layout_laws : @TextLayoutLaws monospace_layout.
Proof. intros t b m. simpl. pose proof (zlen_nonneg b). lia. Qed.

(** ** Concrete elements, used by the examples and witnesses *)

(** An [<input>] at (5, 30), 300 by 20 pixels, showing "ami bo" with the
    caret after "ami". *)
Definition demo_input : element := mkElement INPUT (js "ami bo") 3 5 30 300 20.

(** An element placed 30 pixels down in a tall box: no clamping. *)
Definition demo_textarea : element := mkElement TEXTAREA (js "ami") 3 0 30 300 100.

(** ** Lemmas *)

(** Case on the two clamping tests of [updateSuggestionPos]. *)
Local Ltac clamp_cases :=
  repeat match goal with |- context [?a >? ?b] => destruct (Z.gtb_spec a b) end; simpl; lia.

Lemma replace_spaces_length (s : jsstr) : length (JS.replace_spaces s) = length s.
Proof. apply length_map. Qed.

Lemma replace_spaces_no_space (s : jsstr) : cu_space ∉ JS.replace_spaces s.
Proof.
  unfold JS.replace_spaces. rewrite list_elem_of_fmap. intros (c & Hc & _).
  destruct (N.eqb_spec c cu_space); [discriminate|]. congruence.
Qed.

Lemma or_else_dot_nonempty (s : jsstr) : JS.or_else s [cu_dot] <> [].
Proof. by destruct s. Qed.

Section Theorems.
Context `{TextLayout}.

(** The position before clamping, unfolded. *)
Lemma getCursorXY_unfold (input : element) (sel : Z) :
  getCursorXY input sel =
  (offsetLeft input + fst (span_offset (tag input) (mirrorContent input sel).1 (mirrorContent input sel).2),
   offsetTop input + snd (span_offset (tag input) (mirrorContent input sel).1 (mirrorContent input sel).2)).
Proof.
  unfold getCursorXY. destruct (mirrorContent input sel) as [t s]. simpl.
  by destruct (span_offset (tag input) t s).
Qed.

(** C28. The mirror [div] holds the first [selectionPoint] code units
    of the value, with every space replaced by ['.'] for an [<input>],
    and the marker holds the rest of the (swapped) value, or ['.'] when
    the caret is at the end: the marker is never empty. *)
Theorem mirrorContent_spec (input : element) (sel : Z) :
  0 <= sel ->
  let v := if decide (tag input = INPUT) then JS.replace_spaces (el_value input)
           else el_value input in
  mirrorContent input sel = (take (Z.to_nat sel) v, JS.or_else (drop (Z.to_nat sel) v) [cu_dot]) /\
  (mirrorContent input sel).2 <> [] /\
  (tag input = INPUT -> cu_space ∉ (mirrorContent input sel).1).
Proof.
  intros Hsel v. unfold mirrorContent. fold v.
  rewrite JS.substr_0, JS.substr_from_rest by done. simpl.
  split; [done|]. split; [apply or_else_dot_nonempty|].
  intros Hin Hsp. apply elem_of_take in Hsp as (i & Hi & _).
  apply list_elem_of_lookup_2 in Hi. revert Hi. unfold v. rewrite decide_True by done.
  apply replace_spaces_no_space.
Qed.

(** C26. The overlay's left edge never exceeds the element's
    [offsetWidth] and its top never exceeds [offsetHeight + offsetTop +
    10], whatever the layout and the element (the clamp); with a layout
    whose offsets are non-negative and an element with non-negative
    offsets and sizes, the overlay is also at least at [0] horizontally
    and [offsetTop + 10] vertically. *)
Theorem suggestionPos_bounds `{!TextLayoutLaws} (input : element) :
  fst (suggestionPos input) <= offsetWidth input /\
  snd (suggestionPos input) <= offsetHeight input + offsetTop input + 10 /\
  (0 <= offsetLeft input -> 0 <= offsetTop input -> 0 <= offsetWidth input -> 0 <= offsetHeight input ->
   0 <= fst (suggestionPos input) /\ offsetTop input + 10 <= snd (suggestionPos input)).
Proof.
  unfold suggestionPos. rewrite getCursorXY_unfold.
  match goal with |- context [span_offset ?t ?a ?b] =>
    pose proof (span_offset_nonneg t a b); destruct (span_offset t a b) as [sx sy] end.
  simpl in *. split; [|split]; [clamp_cases|clamp_cases|intros HL HT HW HH; clamp_cases].
Qed.

(** C27. [suggestionTop] adds the element's [offsetTop] twice: once in
    [getCursorXY] and once in [updateSuggestionPos]. When nothing is
    clamped, the top is [offsetTop] more than the spec's position
    (marker offset, plus [offsetTop], plus the 10-pixel gap). *)
Theorem suggestionTop_adds_offsetTop_twice (input : element) :
  let spanY := snd (span_offset (tag input) (mirrorContent input (selectionStart input)).1
                                          (mirrorContent input (selectionStart input)).2) in
  offsetTop input + spanY <= offsetHeight input ->
  snd (suggestionPos input) = (spanY + offsetTop input + 10) + offsetTop input.
Proof.
  intros spanY Hle. unfold suggestionPos. rewrite getCursorXY_unfold. subst spanY.
  destruct (span_offset _ _ _) as [sx sy]. simpl in *. clamp_cases.
Qed.

End Theorems.

(** ** Concrete runs and witnesses *)

Section Witnesses.
#[local] Existing Instance monospace_layout.


Example mirrorContent_demo :
  mirrorContent demo_input 4 = (js "ami.", js "bo").
Proof. reflexivity. Qed.

Example suggestionPos_demo : suggestionPos demo_input = (29, 60).
Proof. reflexivity. Qed.

Lemma mirrorContent_spec_witness :
  0 <= 4 /\
  mirrorContent demo_input 4 =
    (take (Z.to_nat 4) (JS.replace_spaces (js "ami bo")),
     JS.or_else (drop (Z.to_nat 4) (JS.replace_spaces (js "ami bo"))) [cu_dot]) /\
  (mirrorContent demo_input 4).2 <> [] /\
  (tag demo_input = INPUT -> cu_space ∉ (mirrorContent demo_input 4).1).
Proof. split; [lia|]. apply (mirrorContent_spec demo_input 4). lia. Defined.

Lemma suggestionPos_bounds_witness :
  0 <= offsetLeft demo_input /\ 0 <= offsetTop demo_input /\
  0 <= offsetWidth demo_input /\ 0 <= offsetHeight demo_input /\
  0 <= fst (suggestionPos demo_input) /\ offsetTop demo_input + 10 <= snd (suggestionPos demo_input) /\
  fst (suggestionPos demo_input) <= offsetWidth demo_input /\
  snd (suggestionPos demo_input) <= offsetHeight demo_input + offsetTop demo_input + 10.
Proof.
  destruct (@suggestionPos_bounds monospace_layout monospace_layout_laws demo_input) as (Hx & Hy & Hlow).
  assert (HL : 0 <= offsetLeft demo_input) by (simpl; lia). assert (HT : 0 <= offsetTop demo_input) by (simpl; lia).
  assert (HW : 0 <= offsetWidth demo_input) by (simpl; lia). assert (HH : 0 <= offsetHeight demo_input) by (simpl; lia).
  destruct (Hlow HL HT HW HH) as [Hx0 Hy0]. repeat split; assumption.
Defined.


Lemma suggestionTop_adds_offsetTop_twice_witness :
  offsetTop demo_textarea +
    snd (span_offset (tag demo_textarea) (mirrorContent demo_textarea (selectionStart demo_textarea)).1
                     (mirrorContent demo_textarea (selectionStart demo_textarea)).2)
    <= offsetHeight demo_textarea /\
  snd (suggestionPos demo_textarea) =
    (snd (span_offset (tag demo_textarea) (mirrorContent demo_textarea (selectionStart demo_textarea)).1
                      (mirrorContent demo_textarea (selectionStart demo_textarea)).2)
     + offsetTop demo_textarea + 10) + offsetTop demo_textarea.
Proof.
  split; [vm_compute; discriminate|].
  apply (suggestionTop_adds_offsetTop_twice demo_textarea). vm_compute. discriminate.
Defined.

Example suggestionTop_demo_textarea : snd (suggestionPos demo_textarea) = 70.
Proof. reflexivity. Qed.

End Witnesses.

End Caret.
