(* ===== verification/Mirror.v ===== *)
(** * The mirror element of [getCursorXY] in the document

    [getCursorXY] (AvroInput.tsx, lines 315-353) measures the caret by
    building a hidden copy of the text element: it creates a [div],
    copies every computed style property onto it in a loop (lines
    321-324), fills it with the text before the caret, sizes it
    ([height: auto] for a [<textarea>], [width: auto] for an
    [<input>]), appends a [span] holding the rest of the text, attaches
    the [div] to [document.body], reads the [span]'s offsets and removes
    the [div] again. [Caret.getCursorXY] is the function of the
    measurement; this file models the document operations around it: a
    store of nodes, the children of the body, [createElement],
    [appendChild] (which moves a node that is already a child) and
    [removeChild] (which throws [NotFoundError] for a node that is not a
    child). The measurement reads the [span]'s offsets in the document
    as it is then ([span_offsets]): through the interface
    [MirrorLayout], the browser's layout of a [div] with a given inline
    style and text followed by a [span] with a given text, when the
    [div] is attached to the body, and [0] for a detached node, which
    has no layout box. The theorems: the style loop's result, and
    that the whole routine returns [Caret.getCursorXY]'s position for
    the layout the copied style induces ([text_layout_of]: the style is
    the computed one with [height] or [width] auto, which depends on
    the element's kind only through that choice, as [Caret]'s
    [TextLayout] assumes) and leaves the body as it found it (the
    hidden surface is scoped, spec section 5). *)

From stdpp Require Import gmap strings.
From S2P Require Import Prelude JsString Interfaces Caret.

Local Open Scope Z_scope.

Module Mirror.

(** An element: its tag, inline style, text and children. *)
Record node := mkNode {
  n_tag : string;
  n_style : gmap string string;
  n_text : jsstr;
  n_children : list positive
}.

(** The nodes by identity, the children of [document.body], and the
    next fresh identity. *)
Record document := mkDocument {
  nodes : gmap positive node;
  body : list positive;
  next_id : positive
}.

(** [document.createElement(tag)]. *)
Definition createElement (d : document) (t : string) : document * positive :=
  (mkDocument (<[next_id d := mkNode t ∅ [] []]> (nodes d)) (body d) (Pos.succ (next_id d)), next_id d).

Definition update_node (d : document) (n : positive) (f : node -> node) : document :=
  mkDocument (alter f n (nodes d)) (body d) (next_id d).

(** [x.style[k] = v]. *)
Definition set_style (k v : string) (x : node) : node :=
  mkNode (n_tag x) (<[k := v]> (n_style x)) (n_text x) (n_children x).

(** [x.textContent = t]: the text replaces the children. *)
Definition set_text (t : jsstr) (x : node) : node := mkNode (n_tag x) (n_style x) t [].

(** [x.appendChild(c)] on a detached [x]. *)
Definition add_child (c : positive) (x : node) : node :=
  mkNode (n_tag x) (n_style x) (n_text x) (n_children x ++ [c]).

(** [document.body.appendChild(n)]: [n] becomes the last child. *)
Definition body_appendChild (d : document) (n : positive) : document :=
  mkDocument (nodes d) (filter (fun m => m <> n) (body d) ++ [n]) (next_id d).

(** [document.body.removeChild(n)]. *)
Definition body_removeChild (d : document) (n : positive) : outcome document :=
  if decide (n ∈ body d) then Return (mkDocument (nodes d) (filter (fun m => m <> n) (body d)) (next_id d))
  else Throw NotFoundError.

(** [for (const prop of copyStyle) div.style[prop] = copyStyle[prop]],
    the computed style given as its properties with their values. *)
Definition copy_style (copyStyle : list (string * string)) (st : gmap string string) : gmap string string :=
  fold_left (fun st kv => <[kv.1 := kv.2]> st) copyStyle st.

(** The style of the mirror [div] when it is measured: the computed
    style copied onto an empty inline style, then [height: auto] for a
    [<textarea>] or [width: auto] for an [<input>] (lines 321-334). *)
Definition mirror_style (copyStyle : list (string * string)) (t : tagName) : gmap string string :=
  let st := copy_style copyStyle ∅ in
  if decide (t = TEXTAREA) then <["height" := "auto"]> st else <["width" := "auto"]> st.

(** The browser's layout of the mirror: [(span.offsetLeft,
    span.offsetTop)] for a [div] with the given inline style and text,
    attached to the body, whose last child is a [span] with the given
    text. *)
Class MirrorLayout := mirror_offset : gmap string string -> jsstr -> jsstr -> Z * Z.

Section WithLayout.
Context `{MirrorLayout}.

(** [span.offsetLeft] and [span.offsetTop] as the browser reports them:
    the layout of the [div] when it is attached to the body and the
    [span] is one of its children; [0] for a node that is not in the
    document, which has no layout box. *)
Definition span_offsets (d : document) (div span : positive) : Z * Z :=
  match nodes d !! div, nodes d !! span with
  | Some dv, Some sp =>
      if decide (div ∈ body d /\ span ∈ n_children dv)
      then mirror_offset (n_style dv) (n_text dv) (n_text sp) else (0, 0)
  | _, _ => (0, 0)
  end.

(** [getCursorXY], with its document operations; the offsets are read
    from the document at the time of the measurement (lines 344-345). *)
Definition getCursorXY_dom (d : document) (input : element) (copyStyle : list (string * string))
    (selectionPoint : Z) : outcome (document * (Z * Z)) :=
  let inputX := offsetLeft input in
  let inputY := offsetTop input in
  let '(d1, div) := createElement d "div" in
  let d2 := update_node d1 div (fun x => mkNode (n_tag x) (copy_style copyStyle (n_style x))
                                            (n_text x) (n_children x)) in
  let '(textContent, spanText) := Caret.mirrorContent input selectionPoint in
  let d3 := update_node d2 div (set_text textContent) in
  let d4 := if decide (tag input = TEXTAREA) then update_node d3 div (set_style "height" "auto") else d3 in
  let d5 := if decide (tag input = INPUT) then update_node d4 div (set_style "width" "auto") else d4 in
  let '(d6, span) := createElement d5 "span" in
  let d7 := update_node d6 span (set_text spanText) in
  let d8 := update_node d7 div (add_child span) in
  let d9 := body_appendChild d8 div in
  let '(spanX, spanY) := span_offsets d9 div span in
  (d10 <- body_removeChild d9 div ;;
   Return (d10, (inputX + spanX, inputY + spanY)))%js.

(** The layout by element kind that [Caret] abstracts: the mirror's
    layout with the style [getCursorXY] gives it for a computed style. *)
Definition text_layout_of (copyStyle : list (string * string)) : TextLayout :=
  fun t before marker => mirror_offset (mirror_style copyStyle t) before marker.

End WithLayout.

(** A layout of fixed-width glyphs of 8 pixels on one line whatever
    the style, used by the concrete runs below. *)
Definition monospace_mirror : MirrorLayout := fun _ before _ => (8 * zlen before, 0).

(** Every child of the body is a node already created. *)
Definition doc_ok (d : document) : Prop := Forall (fun n => (n < next_id d)%positive) (body d).

(** ** Lemmas *)

Lemma copy_style_snoc (cs : list (string * string)) (kv : string * string) (st : gmap string string) :
  copy_style (cs ++ [kv]) st = <[kv.1 := kv.2]> (copy_style cs st).
Proof. unfold copy_style. by rewrite fold_left_app. Qed.

Lemma filter_fresh (l : list positive) (n : positive) :
  Forall (fun m => (m < n)%positive) l -> filter (fun m => m <> n) l = l.
Proof.
  induction 1 as [|m l Hm Hl IH]; [done|].
  rewrite filter_cons_True, IH; [done|]. intros ->. lia.
Qed.

Lemma nodes_body_appendChild (d : document) (n : positive) : nodes (body_appendChild d n) = nodes d.
Proof. reflexivity. Qed.

(** Attaching a fresh node and removing it gives the body back. *)
Lemma append_remove_fresh (e : document) (n : positive) :
  Forall (fun m => (m < n)%positive) (body e) ->
  body_removeChild (body_appendChild e n) n = Return (mkDocument (nodes e) (body e) (next_id e)).
Proof.
  intros Hf. unfold body_removeChild, body_appendChild. cbn [body nodes next_id].
  rewrite filter_fresh, decide_True by (done || apply list_elem_of_In, in_or_app; right; by left).
  rewrite filter_app, filter_cons_False, filter_nil, app_nil_r by (intros Hn; by apply Hn).
  by rewrite filter_fresh.
Qed.

(** ** Theorems *)

(** The style loop leaves each property at the value of its last
    occurrence in the computed style, and every other property as it
    was. *)
Theorem copy_style_lookup (cs : list (string * string)) (st : gmap string string) (k : string) :
  copy_style cs st !! k =
  match last (filter (fun kv => kv.1 = k) cs) with Some kv => Some kv.2 | None => st !! k end.
Proof.
  induction cs as [|kv cs IH] using rev_ind; [done|].
  rewrite copy_style_snoc, filter_app, filter_cons, filter_nil.
  case_decide as Hk.
  - by rewrite last_snoc, Hk, lookup_insert_eq.
  - by rewrite app_nil_r, lookup_insert_ne.
Qed.

Section Theorems.
Context `{MirrorLayout}.

(** C37. [getCursorXY] with its document operations measures a mirror
    carrying the computed style (with [height] or [width] set to auto),
    returns the position [Caret.getCursorXY] computes for the layout
    that style induces, never throws, and leaves the children of
    [document.body] as they were: the mirror is attached only for the
    measurement. *)
Theorem getCursorXY_dom_spec (d : document) (input : element) (cs : list (string * string)) (sel : Z) :
  doc_ok d ->
  exists d', getCursorXY_dom d input cs sel = Return (d', @Caret.getCursorXY (text_layout_of cs) input sel) /\
    body d' = body d /\ doc_ok d'.
Proof.
  intros Hok. unfold getCursorXY_dom, Caret.getCursorXY, text_layout_of, span_offset, span_offsets.
  destruct (Caret.mirrorContent input sel) as [tc st].
  assert (Hne : Pos.succ (next_id d) <> next_id d) by lia.
  unfold createElement, update_node, mirror_style. rewrite !nodes_body_appendChild. cbn [nodes body next_id].
  destruct (tag input); cbn [decide decide_rel tagName_eq_dec]; simplify_map_eq;
    rewrite decide_True by (cbn; set_solver);
    destruct (mirror_offset _ tc st) as [sx sy];
    rewrite append_remove_fresh by exact Hok; cbn;
    (eexists; split; [reflexivity|]); (split; [done|]);
    (eapply Forall_impl; [exact Hok|]); intros m Hm; cbn in *; lia.
Qed.


End Theorems.

(** ** Concrete runs and witnesses *)

Section Witnesses.
#[local] Existing Instance monospace_mirror.

(** A document whose body already holds node 1. *)
Definition demo_document : document :=
  mkDocument {[1%positive := mkNode "main" ∅ [] []]} [1%positive] 2.

(** The mirror of an [<input>] takes the computed style with
    [width: auto], holds "ami" (the text before the caret) and a span
    with " bo" (spaces shown as dots), and is detached again. *)
Example mirror_of_input :
  match getCursorXY_dom demo_document Caret.demo_input [("font", "13px"); ("width", "300px")] 3 with
  | Return (d', pos) =>
      body d' = [1%positive] /\ pos = (29, 30) /\
      (n_style <$> (nodes d' !! 2%positive)) = Some (<["width" := "auto"]> {[ "font" := "13px" ]}) /\
      (n_text <$> (nodes d' !! 2%positive)) = Some (js "ami") /\
      (n_text <$> (nodes d' !! 3%positive)) = Some (js ".bo")
  | Throw _ => False
  end.
Proof. vm_compute. repeat split; reflexivity. Qed.

Lemma getCursorXY_dom_spec_witness :
  doc_ok demo_document /\
  exists d', getCursorXY_dom demo_document Caret.demo_input [] 3 =
    Return (d', @Caret.getCursorXY (text_layout_of []) Caret.demo_input 3) /\
    body d' = body demo_document /\ doc_ok d'.
Proof.
  assert (Hok : doc_ok demo_document) by (repeat constructor).
  split; [exact Hok|]. apply getCursorXY_dom_spec. exact Hok.
Defined.

End Witnesses.

End Mirror.
