(* ===== verification/Controller.v ===== *)
(** * The component: [AvroInput]'s state and handlers

    [AvroInputState] (AvroInput.tsx, lines 17-24), the props (lines
    6-15, with the default [type] of lines 270-276), and the element
    [textInput] make up a [component]. Each handler is a function from the
    component to an [outcome]: either [TypeError] (a read through a
    [null] element, or [.length] of an [undefined] suggestion), or the
    component after React has run the handler, and the callbacks fired
    to the embedding application ([onChange], [preventDefault],
    [onKeyDown]) in order.

    React's batching: inside a handler [this.state] is the snapshot the
    handler started from ([setState] does not change it), the [setState]
    updates are merged in call order, and when the handler returns React
    re-renders once: the controlled element's [value] is set to
    [state.value] (the browser moves the caret to the end when the value
    really changes), then the [setState] callback runs. The in-place
    writes [tempSuggestions[0] = ...] go to the same array as
    [this.state.suggestionList]; no read of that array follows them in
    the same handler, so modelling the list as a value written back by
    [setState] observes the same states. *)

From S2P Require Import Prelude JsString Interfaces Stack Suggestion Caret.

Local Open Scope Z_scope.

Module Controller.

Record AvroInputState := mkState {
  value : jsstr;
  stack : jsstr;
  suggestionList : list jsstr;
  selectedIndex : Z;
  suggestionLeft : Z;
  suggestionTop : Z
}.

(** The props the logic reads: [type] (defaults to ['text'], an
    [<input>]), [value] (defaults to ['']), and whether [onChange] and
    [onKeyDown] were given. [placeholder], [style], [suggestionStyle]
    and [className] are passed through to the DOM untouched. *)
Record AvroInputProps := mkProps {
  p_type : tagName;
  p_value : jsstr;
  p_onChange : bool;
  p_onKeyDown : bool
}.

Record component := mkComponent {
  state : AvroInputState;
  textInput : option element;
  props : AvroInputProps
}.

(** The part of a [KeyboardEvent] the handler reads. *)
Record keyEvent := mkKeyEvent {
  keyCode : Z;
  key : jsstr
}.

(** What a handler does outside the component, in order. *)
Inductive effect :=
| CallOnChange (finalVal : jsstr)
| PreventDefault
| CallOnKeyDown (e : keyEvent).

#[export] Instance keyEvent_eq_dec : EqDecision keyEvent.
Proof. solve_decision. Defined.
#[export] Instance effect_eq_dec : EqDecision effect.
Proof. solve_decision. Defined.

(** ** Partial [setState] updates *)

Definition with_value (s : AvroInputState) (v : jsstr) : AvroInputState :=
  mkState v (stack s) (suggestionList s) (selectedIndex s) (suggestionLeft s) (suggestionTop s).
Definition with_stack (s : AvroInputState) (k : jsstr) : AvroInputState :=
  mkState (value s) k (suggestionList s) (selectedIndex s) (suggestionLeft s) (suggestionTop s).
Definition with_suggestionList (s : AvroInputState) (l : list jsstr) : AvroInputState :=
  mkState (value s) (stack s) l (selectedIndex s) (suggestionLeft s) (suggestionTop s).
Definition with_selectedIndex (s : AvroInputState) (i : Z) : AvroInputState :=
  mkState (value s) (stack s) (suggestionList s) i (suggestionLeft s) (suggestionTop s).
Definition with_position (s : AvroInputState) (pos : Z * Z) : AvroInputState :=
  mkState (value s) (stack s) (suggestionList s) (selectedIndex s) pos.1 pos.2.

(** The constructor's state (lines 33-40). *)
Definition initialState : AvroInputState := mkState [] [] [[]] 0 0 0.

(** ** Re-render and [setState] callback *)

(** Setting [selectionStart]/[selectionEnd] clamps to the value's length. *)
Definition set_selection (el : element) (n : Z) : element :=
  set_caret el (Z.min n (zlen (el_value el))).

(** React's commit after a handler that called [setState]: the
    controlled element shows [state.value], then the callback that sets
    the caret (only [handleKeyPress]'s commit branch has one) runs if
    [this.textInput] is set. *)
Definition rerender (textInput : option element) (s : AvroInputState) (callback : option Z)
  : option element :=
  match textInput with
  | None => None
  | Some el =>
      let el1 := if decide (el_value el = value s) then el
                 else set_caret (set_value el (value s)) (zlen (value s)) in
      Some (match callback with Some n => set_selection el1 n | None => el1 end)
  end.

Definition flush (c : component) (s : AvroInputState) (callback : option Z) : component :=
  mkComponent s (rerender (textInput c) s callback) (props c).

Section Handlers.
Context `{Transliterator} `{TextLayout}.

(** [if (cond) this.updateSuggestionPos();]: the position, if the
    method ran. *)
Definition updatePosIf (cond : bool) (textInput : option element) : outcome (option (Z * Z)) :=
  if cond then (pos <- Caret.updateSuggestionPos textInput ;; Return (Some pos))%js
  else Return None.

Definition with_position_opt (s : AvroInputState) (pos : option (Z * Z)) : AvroInputState :=
  match pos with Some p => with_position s p | None => s end.

(** [componentDidMount] (lines 49-55). *)
Definition componentDidMount (c : component) : outcome component :=
  let s := state c in
  let s1 := with_value s (JS.or_else (p_value (props c)) []) in
  (pos <- Caret.updateSuggestionPos (textInput c) ;;
   Return (flush c (with_position s1 pos) None))%js.

(** [handleChange] (lines 57-70). [this.state.value === ''] reads the
    snapshot, that is the value before this change. Without an element
    [updateSuggestionPos] throws after the [setState] has been enqueued;
    the model returns the throw without the update, a case no mounted
    component reaches ([Session.run_total]). *)
Definition handleChange (c : component) (currentVal : jsstr) : outcome component :=
  let s := state c in
  let tempSuggestions := JS.array_set0 (suggestionList s) (parse (stack s)) in
  let s1 := with_suggestionList (with_value s currentVal) tempSuggestions in
  (pos <- updatePosIf (bool_decide (value s = [])) (textInput c) ;;
   Return (flush c (with_position_opt s1 pos) None))%js.

(** The key classes of [handleKeyPress]. *)
Definition is_word_key (keyCode : Z) : bool :=
  ((48 <=? keyCode) && (keyCode <=? 90)) || ((186 <=? keyCode) && (keyCode <=? 222)).

Definition is_commit_key (keyCode : Z) : bool := (keyCode =? 13) || (keyCode =? 32).

(** The text and caret position of the commit branch (lines 83-96):
    the selected suggestion spliced in place of the stack, or the whole
    value transliterated when there is no stack (or the stack is a lone
    space). *)
Definition commitText (s : AvroInputState) (tempSelection : Z) : outcome (jsstr * Z) :=
  let stack := stack s in
  let value := value s in
  let end0 := Stack.getStackRange stack value tempSelection in
  if (0 <? zlen stack) && negb (bool_decide (stack = [cu_space])) then
    let firstSection := JS.substring value 0 tempSelection in
    let valWithoutStack := JS.slice firstSection 0 (- zlen stack) in
    let lastSection := JS.substr value tempSelection (zlen value) in
    (selected <- deref (JS.array_get (suggestionList s) (selectedIndex s)) ;;
     Return (valWithoutStack ++ selected ++ lastSection, zlen valWithoutStack + zlen selected))%js
  else Return (parse value, end0).

(** The callbacks of the commit branch (lines 115-119). *)
Definition commitEffects (p : AvroInputProps) (e : keyEvent) (finalVal : jsstr) : list effect :=
  (if p_onChange p then [CallOnChange finalVal] else []) ++
  (if keyCode e =? 13 then PreventDefault :: (if p_onKeyDown p then [CallOnKeyDown e] else [])
   else []).

(** [handleKeyPress] (lines 72-142). *)
Definition handleKeyPress (c : component) (e : keyEvent) : outcome (component * list effect) :=
  let s := state c in
  if is_word_key (keyCode e) then
    (el <- deref (textInput c) ;;
     let stack' := Stack.to_js_string (Stack.getCurrentStack (value s) (selectionStart el)) ++ key e in
     Return (flush c (with_stack s stack') None, []))%js
  else if is_commit_key (keyCode e) then
    (el <- deref (textInput c) ;;
     let tempSelection := selectionStart el in
     fe <- commitText s tempSelection ;;
     let tempSuggestions := JS.array_set0 (suggestionList s) [] in
     let s1 := with_suggestionList (with_selectedIndex (with_stack (with_value s fe.1) []) 0)
                 tempSuggestions in
     pos <- Caret.updateSuggestionPos (textInput c) ;;
     Return (flush c (with_position s1 pos) (Some fe.2), commitEffects (props c) e fe.1))%js
  else if (1 <? zlen (suggestionList s)) && ((keyCode e =? 38) || (keyCode e =? 40)) then
    let len := zlen (suggestionList s) in
    if keyCode e =? 38 then
      Return (flush c (with_selectedIndex s (Suggestion.cycleUp len (selectedIndex s))) None, [])
    else
      Return (flush c (with_selectedIndex s (Suggestion.cycleDown len (selectedIndex s))) None, [])
  else if keyCode e =? 8 then
    (pos <- updatePosIf (bool_decide (stack s = [])) (textInput c) ;;
     Return (flush c (with_position_opt (with_stack s (JS.slice (stack s) 0 (-1))) pos) None, []))%js
  else Return (c, []).

(** [handleBlurChange] (lines 144-153). *)
Definition handleBlurChange (c : component) : component :=
  let s := state c in
  let tempSuggestions := JS.array_set0 (suggestionList s) [] in
  flush c (with_selectedIndex (with_suggestionList (with_stack s []) tempSuggestions) 0) None.

(** [renderAvroSuggestion] on the component's state. *)
Definition overlay (c : component) : outcome (option Suggestion.overlay) :=
  let s := state c in
  Suggestion.renderAvroSuggestion (suggestionLeft s) (suggestionTop s)
    (suggestionList s) (selectedIndex s).

End Handlers.

(** ** Concrete components, used by the examples and witnesses *)

Definition demo_props : AvroInputProps := mkProps INPUT [] true true.

Definition demo_element (v : jsstr) (caret : Z) : element := mkElement INPUT v caret 0 0 300 20.

(** A mounted component showing [v] with the caret at [caret], stack [k]
    and suggestions [l], index 0. *)
Definition demo_component (v k : jsstr) (l : list jsstr) (caret : Z) : component :=
  mkComponent (mkState v k l 0 0 0) (Some (demo_element v caret)) demo_props.

Definition space_event : keyEvent := mkKeyEvent 32 [cu_space].
Definition enter_event : keyEvent := mkKeyEvent 13 (js "Enter").

(** ** Lemmas on the key classes and on re-rendering *)

Lemma commit_not_word (k : Z) : is_commit_key k = true -> is_word_key k = false.
Proof.
  unfold is_commit_key, is_word_key. intros Hk.
  apply orb_true_iff in Hk as [Hk|Hk]; apply Z.eqb_eq in Hk as ->; reflexivity.
Qed.

Lemma arrow_not_word_commit (k : Z) :
  k = 38 \/ k = 40 -> is_word_key k = false /\ is_commit_key k = false.
Proof. by intros [-> | ->]. Qed.

Lemma backspace_classes : is_word_key 8 = false /\ is_commit_key 8 = false.
Proof. done. Qed.

#[export] Hint Resolve commit_not_word : avro.

(** Re-rendering with the value the element already shows only runs
    the callback. *)
Lemma rerender_same (el : element) (s : AvroInputState) :
  el_value el = value s -> rerender (Some el) s None = Some el.
Proof. intros E. simpl. by rewrite decide_True. Qed.

(** After a re-render, the element shows the state's value. *)
Lemma rerender_value (el : element) (s : AvroInputState) cb :
  exists el', rerender (Some el) s cb = Some el' /\ el_value el' = value s.
Proof.
  simpl. eexists. split; [reflexivity|].
  destruct (decide (el_value el = value s)), cb; done.
Qed.

(** A re-render with a caret callback shows the state's value with the
    caret at the callback's offset, clamped to the value's length. *)
Lemma rerender_callback (el : element) (s : AvroInputState) (n : Z) :
  exists el', rerender (Some el) s (Some n) = Some el' /\
    el_value el' = value s /\ selectionStart el' = Z.min n (zlen (value s)).
Proof.
  simpl. eexists. split; [reflexivity|].
  unfold set_selection. destruct (decide (el_value el = value s)) as [E|E]; simpl;
    rewrite ?E; done.
Qed.

Section Theorems.
Context `{Transliterator} `{TextLayout}.

(** The splice of the commit branch on a text [p ++ stack ++ q] with
    the caret after the stack. *)
Lemma commitText_splice (s : AvroInputState) (p q sel : jsstr) :
  value s = p ++ stack s ++ q -> stack s <> [] -> stack s <> [cu_space] ->
  JS.array_get (suggestionList s) (selectedIndex s) = Some sel ->
  commitText s (zlen (p ++ stack s)) = Return (p ++ sel ++ q, zlen p + zlen sel).
Proof.
  intros Hv Hne Hsp Hsel. unfold commitText. cbv zeta. rewrite Hv.
  assert (Hz : 0 < zlen (stack s)) by (destruct (stack s); [done|zlen_lia]).
  rewrite (proj2 (Z.ltb_lt _ _) Hz), bool_decide_false by done. simpl.
  rewrite JS.substring_0 by apply zlen_nonneg.
  rewrite zlen_to_nat, app_assoc, take_app_length, JS.slice_drop_suffix by done.
  rewrite Hsel. simpl. rewrite JS.substr_rest by apply zlen_nonneg.
  by rewrite zlen_to_nat, drop_app_length.
Qed.

(** The fallback of the commit branch: no stack. *)
Lemma commitText_no_stack (s : AvroInputState) (sel : Z) :
  stack s = [] -> commitText s sel = Return (parse (value s), sel).
Proof. intros Hs. unfold commitText. by rewrite Hs. Qed.

(** Enter calls [preventDefault]; Space does not. *)
Lemma commitEffects_enter (p : AvroInputProps) (e : keyEvent) (fv : jsstr) :
  keyCode e = 13 -> PreventDefault ∈ commitEffects p e fv.
Proof.
  intros Hk. apply list_elem_of_In. unfold commitEffects. rewrite Hk. simpl.
  apply in_or_app. right. by left.
Qed.

Lemma commitEffects_space (p : AvroInputProps) (e : keyEvent) (fv : jsstr) :
  keyCode e = 32 ->
  commitEffects p e fv = if p_onChange p then [CallOnChange fv] else [].
Proof. intros Hk. unfold commitEffects. rewrite Hk. simpl. by rewrite app_nil_r. Qed.

(** The Backspace branch, unfolded: the arrow test fails on key code 8
    whatever the list. *)
Lemma handleKeyPress_backspace_eq (c : component) (e : keyEvent) (el : element) :
  textInput c = Some el -> keyCode e = 8 ->
  handleKeyPress c e =
    Return (flush c (with_position_opt (with_stack (state c) (JS.slice (stack (state c)) 0 (-1)))
      (if bool_decide (stack (state c) = []) then Some (Caret.suggestionPos el) else None)) None, []).
Proof.
  intros Hti Hk. unfold handleKeyPress, updatePosIf, Caret.updateSuggestionPos.
  rewrite Hk. simpl. rewrite andb_false_r, Hti. by destruct (bool_decide _).
Qed.

(** The word-key branch, unfolded. *)
Lemma handleKeyPress_word_eq (c : component) (e : keyEvent) (el : element) :
  textInput c = Some el -> is_word_key (keyCode e) = true ->
  handleKeyPress c e =
    Return (flush c (with_stack (state c)
      (Stack.to_js_string (Stack.getCurrentStack (value (state c)) (selectionStart el)) ++ key e))
      None, []).
Proof. intros Hti Hk. unfold handleKeyPress. by rewrite Hk, Hti. Qed.

(** The commit branch once [commitText] has returned the final text
    [fv] and the caret [en]: the merged [setState] update, the position
    computed from the element before the commit, the re-render with the
    caret callback, and the callbacks. *)
Lemma handleKeyPress_commit_eq (c : component) (e : keyEvent) (el : element) (fv : jsstr) (en : Z) :
  textInput c = Some el -> is_commit_key (keyCode e) = true ->
  commitText (state c) (selectionStart el) = Return (fv, en) ->
  handleKeyPress c e =
    Return (flush c (with_position (with_suggestionList (with_selectedIndex
        (with_stack (with_value (state c) fv) []) 0) (JS.array_set0 (suggestionList (state c)) []))
        (Caret.suggestionPos el)) (Some en), commitEffects (props c) e fv).
Proof.
  intros Hti Hk Hct. unfold handleKeyPress. rewrite (commit_not_word _ Hk), Hk, Hti. simpl.
  rewrite Hct. reflexivity.
Qed.

(** C14. A word key (key codes 48-90 and 186-222) with the element
    mounted sets the stack to the maximal separator-free run before the
    caret followed by the typed key, and changes nothing else. *)
Theorem handleKeyPress_word_key (c : component) (e : keyEvent) (el : element) :
  textInput c = Some el -> is_word_key (keyCode e) = true -> 0 <= selectionStart el ->
  exists r, Stack.trailing_run (take (Z.to_nat (selectionStart el)) (value (state c))) r /\
    handleKeyPress c e = Return (flush c (with_stack (state c) (r ++ key e)) None, []).
Proof.
  intros Hti Hk Hsel.
  destruct (Stack.getCurrentStack_run (value (state c)) (selectionStart el) Hsel) as (r & Hr & Htr).
  exists r. split; [done|]. by rewrite (handleKeyPress_word_eq c e el), Hr.
Qed.

(** C2. Commit (Enter or Space) of a non-empty stack that ends at the
    caret: the selected suggestion replaces the stack and the text after
    the caret is kept; the stack and [selectedIndex] are reset, slot 0
    is emptied, the element shows the new text with the caret just after
    the suggestion, and the callbacks are [onChange(finalVal)] then, for
    Enter only, [preventDefault] and [onKeyDown(event)]. The overlay
    anchor is computed from the element before the commit (the text and
    caret of the word, not of the committed text). *)
Theorem handleKeyPress_commit_splice (c : component) (e : keyEvent) (el : element)
    (p q sel : jsstr) :
  textInput c = Some el -> is_commit_key (keyCode e) = true ->
  value (state c) = p ++ stack (state c) ++ q ->
  selectionStart el = zlen (p ++ stack (state c)) ->
  stack (state c) <> [] -> stack (state c) <> [cu_space] ->
  JS.array_get (suggestionList (state c)) (selectedIndex (state c)) = Some sel ->
  exists c', handleKeyPress c e = Return (c', commitEffects (props c) e (p ++ sel ++ q)) /\
    value (state c') = p ++ sel ++ q /\ stack (state c') = [] /\
    selectedIndex (state c') = 0 /\
    suggestionList (state c') = JS.array_set0 (suggestionList (state c)) [] /\
    (suggestionLeft (state c'), suggestionTop (state c')) = Caret.suggestionPos el /\
    exists el', textInput c' = Some el' /\ el_value el' = p ++ sel ++ q /\
      selectionStart el' = zlen p + zlen sel.
Proof.
  intros Hti Hk Hv Hcaret Hne Hsp Hsel.
  rewrite (handleKeyPress_commit_eq c e el (p ++ sel ++ q) (zlen p + zlen sel)) by
    (done || rewrite Hcaret; by apply commitText_splice).
  destruct (rerender_callback el
             (with_position (with_suggestionList (with_selectedIndex
               (with_stack (with_value (state c) (p ++ sel ++ q)) []) 0)
               (JS.array_set0 (suggestionList (state c)) [])) (Caret.suggestionPos el))
             (zlen p + zlen sel)) as (el' & Hre & Hval & Hcar).
  rewrite Z.min_l in Hcar by (simpl; zlen_lia).
  eexists. split; [reflexivity|]. do 4 (split; [done|]).
  split; [by destruct (Caret.suggestionPos el)|].
  exists el'. split; [|by rewrite Hval]. unfold flush. cbn [textInput]. by rewrite Hti.
Qed.

(** C11. Commit with no stack (the fallback for pasted or otherwise
    injected text): the whole value is transliterated, the stack and
    index are reset, and the caret stays where it was, clamped to the
    new length. *)
Theorem handleKeyPress_commit_fallback (c : component) (e : keyEvent) (el : element) :
  textInput c = Some el -> is_commit_key (keyCode e) = true -> stack (state c) = [] ->
  exists c', handleKeyPress c e = Return (c', commitEffects (props c) e (parse (value (state c)))) /\
    value (state c') = parse (value (state c)) /\ stack (state c') = [] /\
    selectedIndex (state c') = 0 /\
    exists el', textInput c' = Some el' /\ el_value el' = parse (value (state c)) /\
      selectionStart el' = Z.min (selectionStart el) (zlen (parse (value (state c)))).
Proof.
  intros Hti Hk Hs.
  rewrite (handleKeyPress_commit_eq c e el (parse (value (state c))) (selectionStart el))
    by (done || by apply commitText_no_stack).
  match goal with |- context [flush c ?s' (Some ?n)] =>
    destruct (rerender_callback el s' n) as (el' & Hre & Hval & Hcar) end.
  eexists. split; [reflexivity|]. do 3 (split; [done|]).
  exists el'. split; [|done]. unfold flush. cbn [textInput]. by rewrite Hti.
Qed.

(** The Up and Down keys with at least two suggestions move
    [selectedIndex] by [cycleUp]/[cycleDown] and change nothing else;
    with one suggestion or none they do nothing. *)
Theorem handleKeyPress_arrows (c : component) (e : keyEvent) :
  keyCode e = 38 \/ keyCode e = 40 ->
  let len := zlen (suggestionList (state c)) in
  let idx := selectedIndex (state c) in
  handleKeyPress c e =
    if 1 <? len then
      Return (flush c (with_selectedIndex (state c)
        (if keyCode e =? 38 then Suggestion.cycleUp len idx else Suggestion.cycleDown len idx)) None, [])
    else Return (c, []).
Proof.
  intros Hk len idx. destruct (arrow_not_word_commit _ Hk) as [Hw Hc].
  unfold handleKeyPress. rewrite Hw, Hc.
  assert (Hk' : (keyCode e =? 38) || (keyCode e =? 40) = true) by (destruct Hk as [-> | ->]; done).
  rewrite Hk'. fold len idx. destruct (1 <? len); simpl.
  - by destruct (keyCode e =? 38).
  - by destruct Hk as [-> | ->].
Qed.

(** C15. Backspace drops the last code unit of the stack and leaves the
    value, the list and the index alone. The overlay position is
    recomputed only when the stack was already empty before the key, not
    when this key empties it (the spec asks for the latter). *)
Theorem handleKeyPress_backspace (c : component) (e : keyEvent) (el : element) :
  textInput c = Some el -> keyCode e = 8 ->
  exists c', handleKeyPress c e = Return (c', []) /\
    stack (state c') = take (length (stack (state c)) - 1) (stack (state c)) /\
    value (state c') = value (state c) /\
    suggestionList (state c') = suggestionList (state c) /\
    selectedIndex (state c') = selectedIndex (state c) /\
    (stack (state c) <> [] ->
       (suggestionLeft (state c'), suggestionTop (state c')) =
       (suggestionLeft (state c), suggestionTop (state c))) /\
    (stack (state c) = [] ->
       (suggestionLeft (state c'), suggestionTop (state c')) = Caret.suggestionPos el).
Proof.
  intros Hti Hk. rewrite (handleKeyPress_backspace_eq c e el Hti Hk).
  eexists. split; [reflexivity|]. cbn [flush state].
  destruct (decide (stack (state c) = [])) as [He|Hne].
  - rewrite bool_decide_true by done. simpl.
    rewrite He. repeat split; [done|by destruct (Caret.suggestionPos el)].
  - rewrite bool_decide_false by done. simpl.
    repeat split; try done. change (-1) with (- (1)). by rewrite JS.slice_0_neg by lia.
Qed.

(** C16. [handleChange] stores the new value and puts the
    transliteration of the current stack in slot 0; the stack and index
    are untouched. The overlay position is recomputed only when the value
    before the change was empty (the snapshot's [this.state.value]), not
    when the change empties the field (the spec's "cleared field"). *)
Theorem handleChange_spec (c : component) (el : element) (v : jsstr) :
  textInput c = Some el ->
  exists c', handleChange c v = Return c' /\
    value (state c') = v /\
    suggestionList (state c') = JS.array_set0 (suggestionList (state c)) (parse (stack (state c))) /\
    stack (state c') = stack (state c) /\ selectedIndex (state c') = selectedIndex (state c) /\
    (value (state c) <> [] ->
       (suggestionLeft (state c'), suggestionTop (state c')) =
       (suggestionLeft (state c), suggestionTop (state c))) /\
    (value (state c) = [] ->
       (suggestionLeft (state c'), suggestionTop (state c')) = Caret.suggestionPos el).
Proof.
  intros Hti. unfold handleChange, updatePosIf, Caret.updateSuggestionPos. rewrite Hti.
  destruct (decide (value (state c) = [])) as [He|Hne].
  - rewrite bool_decide_true by done. simpl. eexists. split; [reflexivity|]. simpl.
    repeat split; [done|by destruct (Caret.suggestionPos el)].
  - rewrite bool_decide_false by done. simpl. eexists. split; [reflexivity|]. simpl.
    by repeat split.
Qed.

(** C17. Focus loss resets the composition whatever the state: the stack
    is emptied, slot 0 is emptied and [selectedIndex] is 0, the value is
    kept; a second blur changes nothing. *)
Theorem handleBlurChange_reset (c : component) :
  let c' := handleBlurChange c in
  stack (state c') = [] /\ selectedIndex (state c') = 0 /\
  head (suggestionList (state c')) = Some [] /\ value (state c') = value (state c) /\
  handleBlurChange c' = c'.
Proof.
  simpl. repeat split; [by destruct (suggestionList (state c))|].
  unfold handleBlurChange, flush. cbn [state textInput props]. f_equal.
  - by destruct (suggestionList (state c)).
  - destruct (textInput c) as [el|]; [|done]. simpl.
    destruct (decide (el_value el = value (state c))) as [E|E].
    + by rewrite decide_True.
    + simpl. by rewrite decide_True.
Qed.

(** C30. Without a mounted element, a word key or a commit key throws a
    [TypeError] ([this.textInput!.selectionStart]), where the spec asks
    for a silent no-op. *)
Theorem handleKeyPress_unmounted_throws (c : component) (e : keyEvent) :
  textInput c = None -> is_word_key (keyCode e) || is_commit_key (keyCode e) = true ->
  handleKeyPress c e = Throw TypeError.
Proof.
  intros Hti Hk. unfold handleKeyPress. rewrite Hti.
  destruct (is_word_key (keyCode e)); [done|]. simpl in Hk. by rewrite Hk.
Qed.

(** C31. Committing a non-empty stack while [selectedIndex] is outside
    the list throws ([suggestionList[selectedIndex].length] of
    [undefined]) before any state change or callback. *)
Theorem handleKeyPress_commit_bad_index (c : component) (e : keyEvent) (el : element) :
  textInput c = Some el -> is_commit_key (keyCode e) = true ->
  stack (state c) <> [] -> stack (state c) <> [cu_space] ->
  JS.array_get (suggestionList (state c)) (selectedIndex (state c)) = None ->
  handleKeyPress c e = Throw TypeError.
Proof.
  intros Hti Hk Hne Hsp Hget.
  unfold handleKeyPress. rewrite (commit_not_word _ Hk), Hk, Hti. simpl.
  unfold commitText. cbv zeta.
  assert (Hz : 0 < zlen (stack (state c))) by (destruct (stack (state c)); [done|zlen_lia]).
  rewrite (proj2 (Z.ltb_lt _ _) Hz), bool_decide_false by done. simpl. by rewrite Hget.
Qed.

End Theorems.

(** ** Concrete components and witnesses *)

Section Witnesses.
#[local] Existing Instance identity_transliterator.
#[local] Existing Instance Caret.monospace_layout.


Example enter_commit_callbacks :
  match handleKeyPress (demo_component (js "x ami") (js "ami") [js "ami"] 5) enter_event with
  | Return (c, effs) => value (state c) = js "x ami" /\
                        effs = [CallOnChange (js "x ami"); PreventDefault; CallOnKeyDown enter_event]
  | Throw _ => False
  end.
Proof. vm_compute. split; reflexivity. Qed.

Lemma handleKeyPress_word_key_witness :
  textInput (demo_component (js "x am") (js "am") [[]] 4) = Some (demo_element (js "x am") 4) /\
  is_word_key (keyCode (mkKeyEvent 73 (js "i"))) = true /\ 0 <= selectionStart (demo_element (js "x am") 4) /\
  exists r, Stack.trailing_run (take (Z.to_nat (selectionStart (demo_element (js "x am") 4)))
                                   (value (state (demo_component (js "x am") (js "am") [[]] 4)))) r /\
    handleKeyPress (demo_component (js "x am") (js "am") [[]] 4) (mkKeyEvent 73 (js "i")) =
    Return (flush (demo_component (js "x am") (js "am") [[]] 4)
              (with_stack (state (demo_component (js "x am") (js "am") [[]] 4)) (r ++ key (mkKeyEvent 73 (js "i"))))
              None, []).
Proof.
  split; [reflexivity|]. split; [reflexivity|]. split; [simpl; lia|].
  apply handleKeyPress_word_key; [reflexivity|reflexivity|simpl; lia].
Defined.

Lemma handleKeyPress_commit_splice_witness :
  let c := demo_component (js "x ami") (js "ami") [js "AMI"] 5 in
  textInput c = Some (demo_element (js "x ami") 5) /\ is_commit_key (keyCode space_event) = true /\
  value (state c) = js "x " ++ stack (state c) ++ [] /\
  selectionStart (demo_element (js "x ami") 5) = zlen (js "x " ++ stack (state c)) /\
  stack (state c) <> [] /\ stack (state c) <> [cu_space] /\
  JS.array_get (suggestionList (state c)) (selectedIndex (state c)) = Some (js "AMI") /\
  exists c', handleKeyPress c space_event = Return (c', commitEffects (props c) space_event (js "x " ++ js "AMI" ++ [])) /\
    value (state c') = js "x " ++ js "AMI" ++ [] /\ stack (state c') = [] /\
    selectedIndex (state c') = 0 /\
    suggestionList (state c') = JS.array_set0 (suggestionList (state c)) [] /\
    (suggestionLeft (state c'), suggestionTop (state c')) = Caret.suggestionPos (demo_element (js "x ami") 5) /\
    exists el', textInput c' = Some el' /\ el_value el' = js "x " ++ js "AMI" ++ [] /\
      selectionStart el' = zlen (js "x ") + zlen (js "AMI").
Proof.
  intros c. do 7 (split; [first [reflexivity|discriminate]|]).
  apply (handleKeyPress_commit_splice c space_event (demo_element (js "x ami") 5));
    first [reflexivity|discriminate].
Defined.

Lemma handleKeyPress_commit_fallback_witness :
  let c := demo_component (js "ami") [] [[]] 3 in
  textInput c = Some (demo_element (js "ami") 3) /\ is_commit_key (keyCode enter_event) = true /\
  stack (state c) = [] /\
  exists c', handleKeyPress c enter_event = Return (c', commitEffects (props c) enter_event (parse (value (state c)))) /\
    value (state c') = parse (value (state c)) /\ stack (state c') = [] /\
    selectedIndex (state c') = 0 /\
    exists el', textInput c' = Some el' /\ el_value el' = parse (value (state c)) /\
      selectionStart el' = Z.min (selectionStart (demo_element (js "ami") 3)) (zlen (parse (value (state c)))).
Proof.
  intros c. do 3 (split; [reflexivity|]).
  apply (handleKeyPress_commit_fallback c enter_event (demo_element (js "ami") 3)); reflexivity.
Defined.

(** The spec's round trip (section 8): committing with no stack under
    the identity transliterator leaves the value as it was. *)
Example commit_identity_roundtrip :
  match handleKeyPress (demo_component (js "hello world") [] [[]] 11) space_event with
  | Return (c, _) => value (state c) = js "hello world"
  | Throw _ => False
  end.
Proof. reflexivity. Qed.

Lemma handleKeyPress_arrows_witness :
  let c := demo_component (js "a") (js "a") [js "X"; js "Y"; js "Z"] 1 in
  (keyCode (mkKeyEvent 38 []) = 38 \/ keyCode (mkKeyEvent 38 []) = 40) /\
  handleKeyPress c (mkKeyEvent 38 []) =
    (if 1 <? zlen (suggestionList (state c)) then
      Return (flush c (with_selectedIndex (state c)
        (if keyCode (mkKeyEvent 38 []) =? 38
         then Suggestion.cycleUp (zlen (suggestionList (state c))) (selectedIndex (state c))
         else Suggestion.cycleDown (zlen (suggestionList (state c))) (selectedIndex (state c)))) None, [])
    else Return (c, [])).
Proof. intros c. split; [by left|]. apply handleKeyPress_arrows. by left. Defined.

Lemma handleKeyPress_backspace_witness :
  let c := demo_component (js "ami") (js "ami") [js "ami"] 3 in
  textInput c = Some (demo_element (js "ami") 3) /\ keyCode (mkKeyEvent 8 []) = 8 /\
  exists c', handleKeyPress c (mkKeyEvent 8 []) = Return (c', []) /\
    stack (state c') = take (length (stack (state c)) - 1) (stack (state c)) /\
    value (state c') = value (state c) /\
    suggestionList (state c') = suggestionList (state c) /\
    selectedIndex (state c') = selectedIndex (state c) /\
    (stack (state c) <> [] ->
       (suggestionLeft (state c'), suggestionTop (state c')) =
       (suggestionLeft (state c), suggestionTop (state c))) /\
    (stack (state c) = [] ->
       (suggestionLeft (state c'), suggestionTop (state c')) = Caret.suggestionPos (demo_element (js "ami") 3)).
Proof.
  intros c. split; [reflexivity|]. split; [reflexivity|].
  apply handleKeyPress_backspace; reflexivity.
Defined.

Lemma handleChange_spec_witness :
  let c := demo_component [] (js "a") [[]] 0 in
  textInput c = Some (demo_element [] 0) /\
  exists c', handleChange c (js "a") = Return c' /\
    value (state c') = js "a" /\
    suggestionList (state c') = JS.array_set0 (suggestionList (state c)) (parse (stack (state c))) /\
    stack (state c') = stack (state c) /\ selectedIndex (state c') = selectedIndex (state c) /\
    (value (state c) <> [] ->
       (suggestionLeft (state c'), suggestionTop (state c')) =
       (suggestionLeft (state c), suggestionTop (state c))) /\
    (value (state c) = [] ->
       (suggestionLeft (state c'), suggestionTop (state c')) = Caret.suggestionPos (demo_element [] 0)).
Proof. intros c. split; [reflexivity|]. apply handleChange_spec. reflexivity. Defined.

Lemma handleKeyPress_unmounted_throws_witness :
  let c := mkComponent initialState None demo_props in
  textInput c = None /\ is_word_key (keyCode space_event) || is_commit_key (keyCode space_event) = true /\
  handleKeyPress c space_event = Throw TypeError.
Proof.
  intros c. split; [reflexivity|]. split; [reflexivity|].
  apply handleKeyPress_unmounted_throws; reflexivity.
Defined.

Lemma handleKeyPress_commit_bad_index_witness :
  let c := mkComponent (mkState (js "ami") (js "ami") [js "ami"] 3 0 0)
             (Some (demo_element (js "ami") 3)) demo_props in
  textInput c = Some (demo_element (js "ami") 3) /\ is_commit_key (keyCode space_event) = true /\
  stack (state c) <> [] /\ stack (state c) <> [cu_space] /\
  JS.array_get (suggestionList (state c)) (selectedIndex (state c)) = None /\
  handleKeyPress c space_event = Throw TypeError.
Proof.
  intros c. do 5 (split; [first [reflexivity|discriminate]|]).
  apply (handleKeyPress_commit_bad_index c space_event (demo_element (js "ami") 3));
    first [reflexivity|discriminate].
Defined.

End Witnesses.

End Controller.
