(* ===== verification/Render.v ===== *)
(** * Rendering: props resolution, propTypes, styles and [render]

    What [AvroInput] does with its props object (AvroInput.tsx, lines
    215-307): React resolves the JSX props against [defaultProps]
    (lines 270-276) and checks them against [propTypes] (lines 260-268);
    [render] (lines 215-257) removes [suggestionStyle], spreads the rest
    onto an [<input>] or a [<textarea>] and then sets its own attributes
    (later JSX attributes win), merges the [styles] object (lines
    278-307) with the user's styles, and renders the overlay of
    [renderAvroSuggestion] with its position written after the user's
    [suggestionStyle]. JavaScript objects are [gmap string _]; the
    spread [{...a, ...b}] is [b ∪ a] (stdpp's union is left-biased).
    [controller_props] reads off the props the handlers use, which ties
    [Controller.AvroInputProps] to this model: the element kind is the
    one [render_input] creates, and [render_input_wiring] shows the
    handlers it attaches, [onBlur] exactly on an [<input>], which is
    what [Session.dispatch] runs. *)

From stdpp Require Import gmap strings.
From S2P Require Import Prelude JsString Interfaces Suggestion Controller.
From Stdlib Require Import DecimalString.

Local Open Scope Z_scope.

Module Render.
Import Controller.

(** ** JavaScript values of the props and attributes *)

(** CSS values: strings and numbers. *)
Inductive cssval :=
| CssStr (s : string)
| CssNum (z : Z).

Abbreviation style := (gmap string cssval).

(** The functions that props and attributes hold: the component's bound
    methods and [ref] callback, and App's two callbacks. *)
Inductive handler :=
| HandleKeyPress
| HandleChange
| HandleBlurChange
| SetTextInput
| AppOnInputChange
| AppLogEvent.

Inductive jsval :=
| JStr (s : jsstr)
| JFun (h : handler)
| JStyle (st : style).

Abbreviation jsobj := (gmap string jsval).

#[export] Instance cssval_eq_dec : EqDecision cssval.
Proof. solve_decision. Defined.
#[export] Instance handler_eq_dec : EqDecision handler.
Proof. solve_decision. Defined.
#[export] Instance jsval_eq_dec : EqDecision jsval.
Proof. solve_decision. Defined.

(** [{...a, ...b}]: the keys of [b] win. *)
Definition spread {V} (a b : gmap string V) : gmap string V := b ∪ a.

(** ** [defaultProps] and [propTypes] *)

(** Lines 270-276. *)
Definition defaultProps : jsobj :=
  list_to_map [("type", JStr (js "text")); ("placeholder", JStr (js "Avro Input"));
               ("value", JStr []); ("style", JStyle ∅); ("suggestionStyle", JStyle ∅)].

(** React's resolution: a default fills every prop that is [undefined]. *)
Definition resolveDefaultProps (props : jsobj) : jsobj := spread defaultProps props.

Inductive propType :=
| PTOneOf (vals : list jsstr)
| PTString
| PTFunc
| PTObject.

(** Lines 260-268; every validator is optional ([Requireable]). *)
Definition propTypes : list (string * propType) :=
  [("type", PTOneOf [js "text"; js "textarea"]); ("placeholder", PTString); ("value", PTString);
   ("onChange", PTFunc); ("style", PTObject); ("suggestionStyle", PTObject); ("className", PTString)].

Definition check_type (t : propType) (v : jsval) : bool :=
  match t, v with
  | PTOneOf vals, JStr s => bool_decide (s ∈ vals)
  | PTString, JStr _ => true
  | PTFunc, JFun _ => true
  | PTObject, JStyle _ => true
  | _, _ => false
  end.

(** The props whose check fails (each a development-mode warning);
    an absent prop passes. *)
Definition checkPropTypes (props : jsobj) : list string :=
  fst <$> filter (fun kt => match props !! kt.1 with
                            | Some v => negb (check_type kt.2 v)
                            | None => false
                            end = true) propTypes.

(** ** [styles] (lines 278-307) *)

Definition styles : gmap string style :=
  list_to_map
    [("inputHolder", list_to_map [("position", CssStr "relative"); ("overflow", CssStr "visible");
                                  ("width", CssStr "100%")]);
     ("inputStyle", list_to_map [("position", CssStr "relative"); ("width", CssStr "100%")]);
     ("suggestionAbsolute", list_to_map [("position", CssStr "absolute"); ("background", CssStr "#efefef");
                                         ("padding", CssStr "0"); ("fontSize", CssStr "13px");
                                         ("zIndex", CssNum 1001)]);
     ("suggestionListStyle", list_to_map [("listStyle", CssStr "none"); ("paddingLeft", CssNum 0);
                                          ("margin", CssNum 0)]);
     ("suggestionListItem", list_to_map [("textAlign", CssStr "left"); ("padding", CssStr "5px 8px")]);
     ("suggestionActiveStyle", list_to_map [("background", CssStr "#ffa544")])].

(** [styles.name]; spreading a missing entry ([undefined]) adds
    nothing. *)
Definition styles_get (name : string) : style := default ∅ (styles !! name).

(** A style prop: spreading [undefined] or a non-object adds nothing. *)
Definition prop_style (props : jsobj) (k : string) : style :=
  match props !! k with Some (JStyle st) => st | _ => ∅ end.

(** [n + 'px'] for an integer [n]. *)
Definition px (n : Z) : string := NilZero.string_of_int (Z.to_int n) +:+ "px".

(** ** [render] (lines 215-257) *)

(** [placeholder={othersProp.placeholder}]: an [undefined] attribute is
    not set. *)
Definition set_attr_opt (k : string) (v : option jsval) (attrs : jsobj) : jsobj :=
  match v with Some x => <[k := x]> attrs | None => delete k attrs end.

(** The text element and its attributes, in JSX order: the spread of
    [othersProp] first, then each explicit attribute over it. *)
Definition render_input (props : jsobj) (stateValue : jsstr) : tagName * jsobj :=
  let othersProp := delete "suggestionStyle" props in
  let style := JStyle (spread (styles_get "inputStyle") (prop_style othersProp "style")) in
  if bool_decide (othersProp !! "type" = Some (JStr (js "textarea"))) then
    (TEXTAREA,
     <["style" := style]> (<["ref" := JFun SetTextInput]> (<["onChange" := JFun HandleChange]>
       (<["onKeyDown" := JFun HandleKeyPress]> (set_attr_opt "placeholder" (othersProp !! "placeholder")
         (<["value" := JStr stateValue]> othersProp))))))
  else
    (INPUT,
     <["style" := style]> (<["ref" := JFun SetTextInput]> (<["onBlur" := JFun HandleBlurChange]>
       (<["onChange" := JFun HandleChange]> (<["onKeyDown" := JFun HandleKeyPress]>
         (set_attr_opt "placeholder" (othersProp !! "placeholder")
           (<["value" := JStr stateValue]> (<["type" := JStr (js "text")]> othersProp)))))))).

(** The overlay [span] and its items: the position is written after the
    user's [suggestionStyle], the active item gets
    [suggestionActiveStyle] over [suggestionListItem]. *)
Record overlayNode := mkOverlayNode {
  o_style : style;
  o_items : list (jsstr * style)
}.

Definition overlay_node (props : jsobj) (ov : Suggestion.overlay) : overlayNode :=
  mkOverlayNode
    (<["top" := CssStr (px (Suggestion.ov_top ov))]> (<["left" := CssStr (px (Suggestion.ov_left ov))]>
       (spread (styles_get "suggestionAbsolute") (prop_style props "suggestionStyle"))))
    ((fun it : jsstr * bool => (it.1, spread (styles_get "suggestionListItem")
                          (if it.2 then styles_get "suggestionActiveStyle" else ∅))) <$> Suggestion.ov_items ov).

Record rendered := mkRendered {
  r_holder_style : style;
  r_tag : tagName;
  r_attrs : jsobj;
  r_overlay : option overlayNode
}.

(** [render]: the holder [div], the text element, the overlay. *)
Definition render (props : jsobj) (s : AvroInputState) : outcome rendered :=
  let '(tag, attrs) := render_input props (value s) in
  (ov <- Suggestion.renderAvroSuggestion (suggestionLeft s) (suggestionTop s)
           (suggestionList s) (selectedIndex s) ;;
   Return (mkRendered (styles_get "inputHolder") tag attrs (overlay_node props <$> ov)))%js.

(** ** The props the handlers read *)

Definition is_fun (v : option jsval) : bool :=
  match v with Some (JFun _) => true | _ => false end.

(** [this.props.type] through [render]'s choice, [this.props.value]
    (a string prop, [undefined] read as empty by [componentDidMount]'s
    [|| '']), and whether [this.props.onChange]/[onKeyDown] are set. *)
Definition controller_props (props : jsobj) : AvroInputProps :=
  mkProps (render_input props []).1
    (match props !! "value" with Some (JStr v) => v | _ => [] end)
    (is_fun (props !! "onChange")) (is_fun (props !! "onKeyDown")).

(** ** Lemmas *)

Lemma lookup_spread {V} (a b : gmap string V) (k : string) :
  spread a b !! k = match b !! k with Some v => Some v | None => a !! k end.
Proof.
  unfold spread. destruct (b !! k) eqn:E; [by apply lookup_union_Some_l|by rewrite lookup_union_r].
Qed.

Lemma lookup_set_attr_opt_ne (k k' : string) (v : option jsval) (attrs : jsobj) :
  k <> k' -> set_attr_opt k v attrs !! k' = attrs !! k'.
Proof. intros Hk. destruct v; simpl; [by rewrite lookup_insert_ne|by rewrite lookup_delete_ne]. Qed.

(** Lookups through the inserts and deletes of an attribute object. *)
Local Ltac lookup_simpl :=
  repeat first [ rewrite lookup_insert_eq | rewrite lookup_insert_ne by done
               | rewrite lookup_set_attr_opt_ne by done | rewrite lookup_delete_eq
               | rewrite lookup_delete_ne by done ].

Lemma prop_style_delete (props : jsobj) (k k' : string) :
  k' <> k -> prop_style (delete k' props) k = prop_style props k.
Proof. intros Hk. unfold prop_style. by rewrite lookup_delete_ne. Qed.

(** The choice of the element, and the one attribute set only on the
    [<input>]. *)
Lemma render_input_tag (props : jsobj) (v : jsstr) :
  (render_input props v).1 =
  if bool_decide (props !! "type" = Some (JStr (js "textarea"))) then TEXTAREA else INPUT.
Proof. unfold render_input. rewrite lookup_delete_ne by done. by case_bool_decide. Qed.

(** [onBlur] is [handleBlurChange] on the [<input>] only. *)
Lemma render_input_onBlur (props : jsobj) (v : jsstr) :
  (render_input props v).2 !! "onBlur" =
  if bool_decide (props !! "type" = Some (JStr (js "textarea"))) then props !! "onBlur"
  else Some (JFun HandleBlurChange).
Proof.
  unfold render_input. cbv zeta. rewrite lookup_delete_ne by done.
  case_bool_decide; simpl; by lookup_simpl.
Qed.

(** A prop that fails its [propTypes] check is reported. *)
Lemma checkPropTypes_nil (props : jsobj) (k : string) (t : propType) (v : jsval) :
  checkPropTypes props = [] -> (k, t) ∈ propTypes -> props !! k = Some v -> check_type t v = true.
Proof.
  unfold checkPropTypes. intros Hc Hin Hv. apply fmap_nil_inv in Hc.
  destruct (check_type t v) eqn:E; [done|]. exfalso.
  assert (Hf : (k, t) ∈ filter (fun kt => match props !! kt.1 with
                                          | Some v => negb (check_type kt.2 v)
                                          | None => false end = true) propTypes).
  { apply list_elem_of_filter. split; [|done]. simpl. by rewrite Hv, E. }
  rewrite Hc in Hf. by apply elem_of_nil in Hf.
Qed.

Lemma resolve_lookup (props : jsobj) (k : string) :
  resolveDefaultProps props !! k = match props !! k with Some v => Some v | None => defaultProps !! k end.
Proof. apply lookup_spread. Qed.

(** ** Theorems *)

(** C33. Whatever the props, the rendered text element shows the state's
    value and is wired to the component's own handlers: [value],
    [onKeyDown] and [onChange] are set after the spread of the props,
    so the user's [value], [onChange] and [onKeyDown] never reach the
    element, and [suggestionStyle] is removed. [onBlur] is
    [handleBlurChange] on an [<input>]; a [<textarea>] keeps whatever
    [onBlur] prop was passed, never [handleBlurChange]. *)
Theorem render_input_wiring (props : jsobj) (v : jsstr) :
  let r := render_input props v in
  r.2 !! "value" = Some (JStr v) /\ r.2 !! "onKeyDown" = Some (JFun HandleKeyPress) /\
  r.2 !! "onChange" = Some (JFun HandleChange) /\ r.2 !! "suggestionStyle" = None /\
  r.2 !! "onBlur" = (if decide (r.1 = INPUT) then Some (JFun HandleBlurChange) else props !! "onBlur").
Proof.
  unfold render_input. cbv zeta. case_bool_decide; simpl; repeat split; by lookup_simpl.
Qed.

(** The element's style is [styles.inputStyle] overridden key by
    key by the [style] prop; with no [style] prop (the default [{}]) it
    is [position: relative; width: 100%]. *)
Theorem render_input_style (props : jsobj) (v : jsstr) (k : string) :
  exists st, (render_input props v).2 !! "style" = Some (JStyle st) /\
    st !! k = match prop_style props "style" !! k with
              | Some x => Some x
              | None => styles_get "inputStyle" !! k
              end.
Proof.
  unfold render_input. cbv zeta. rewrite prop_style_delete by done.
  case_bool_decide; simpl; rewrite lookup_insert_eq; eexists; (split; [reflexivity|]);
    apply lookup_spread.
Qed.

(** C34. The overlay's [left] and [top] are the state's position in
    pixels whatever [suggestionStyle] says; every other key comes from
    [suggestionStyle] first, then [styles.suggestionAbsolute] (so the
    prop can override [position: absolute]). Each item keeps its text;
    the active item has the background [#ffa544], the others none. *)
Theorem overlay_node_style (props : jsobj) (ov : Suggestion.overlay) (k : string) :
  let n := overlay_node props ov in
  o_style n !! "left" = Some (CssStr (px (Suggestion.ov_left ov))) /\
  o_style n !! "top" = Some (CssStr (px (Suggestion.ov_top ov))) /\
  (k <> "left" -> k <> "top" ->
   o_style n !! k = match prop_style props "suggestionStyle" !! k with
                    | Some x => Some x
                    | None => styles_get "suggestionAbsolute" !! k
                    end) /\
  fst <$> o_items n = fst <$> Suggestion.ov_items ov /\
  Forall2 (fun (it : jsstr * bool) (it' : jsstr * style) => it'.2 !! "background" = if it.2 then Some (CssStr "#ffa544") else None)
    (Suggestion.ov_items ov) (o_items n).
Proof.
  cbn zeta. unfold overlay_node. cbn [o_style o_items].
  split; [by rewrite lookup_insert_ne, lookup_insert_eq|].
  split; [by rewrite lookup_insert_eq|].
  split; [intros Hl Ht; rewrite !lookup_insert_ne by congruence; apply lookup_spread|].
  split; [by rewrite <- list_fmap_compose|].
  apply Forall2_fmap_r, Forall_Forall2_diag, Forall_forall. intros [x b] _. simpl.
  rewrite lookup_spread. by destruct b.
Qed.

(** After [defaultProps] resolution the props have a [type]. *)
Lemma resolved_has_type (props : jsobj) : is_Some (resolveDefaultProps props !! "type").
Proof. rewrite resolve_lookup. by destruct (props !! "type"). Qed.

(** C35. The props after [defaultProps] resolution always have a
    [type]; when they pass [propTypes] it is "text" or "textarea", and
    the element the handlers see ([controller_props]) is the
    corresponding [<input>] or [<textarea>]. *)
Theorem resolved_props_typed (props : jsobj) :
  is_Some (resolveDefaultProps props !! "type") /\
  (checkPropTypes (resolveDefaultProps props) = [] ->
   (resolveDefaultProps props !! "type" = Some (JStr (js "text")) /\
    p_type (controller_props (resolveDefaultProps props)) = INPUT) \/
   (resolveDefaultProps props !! "type" = Some (JStr (js "textarea")) /\
    p_type (controller_props (resolveDefaultProps props)) = TEXTAREA)).
Proof.
  split; [apply resolved_has_type|]. intros Hc. unfold controller_props. cbn [p_type]. rewrite render_input_tag.
  destruct (resolved_has_type props) as [tv Ht]. rewrite Ht.
  pose proof (checkPropTypes_nil _ "type" _ tv Hc ltac:(by left) Ht) as Hty.
  destruct tv as [t| |]; try done. simpl in Hty. apply bool_decide_eq_true in Hty.
  apply list_elem_of_In in Hty. destruct Hty as [<-|[<-|[]]].
  - left. by rewrite bool_decide_false.
  - right. by rewrite bool_decide_true.
Qed.

(** ** Concrete renders and witnesses *)

(** A text box after "ami" with the overlay open at (24, 40). *)
Example render_ami :
  match render (resolveDefaultProps {["onChange" := JFun AppOnInputChange]})
               (mkState (js "ami") (js "ami") [js "amI"] 0 24 40) with
  | Return r => r_tag r = INPUT /\ r_attrs r !! "placeholder" = Some (JStr (js "Avro Input")) /\
      (o_style <$> r_overlay r) ≫= (.!! "left") = Some (CssStr "24px")
  | Throw _ => False
  end.
Proof. vm_compute. repeat split; reflexivity. Qed.

Lemma resolved_props_typed_witness :
  checkPropTypes (resolveDefaultProps {["type" := JStr (js "textarea")]}) = [] /\
  is_Some (resolveDefaultProps {["type" := JStr (js "textarea")]} !! "type") /\
  ((resolveDefaultProps {["type" := JStr (js "textarea")]} !! "type") = Some (JStr (js "text")) /\
    p_type (controller_props (resolveDefaultProps {["type" := JStr (js "textarea")]})) = INPUT \/
   (resolveDefaultProps {["type" := JStr (js "textarea")]} !! "type" = Some (JStr (js "textarea")) /\
    p_type (controller_props (resolveDefaultProps {["type" := JStr (js "textarea")]})) = TEXTAREA)).
Proof.
  assert (Hc : checkPropTypes (resolveDefaultProps {["type" := JStr (js "textarea")]}) = []) by (vm_compute; reflexivity).
  destruct (resolved_props_typed {["type" := JStr (js "textarea")]}) as [Hs Ht].
  split; [exact Hc|]. split; [exact Hs|]. exact (Ht Hc).
Defined.

Lemma overlay_node_style_witness :
  let ov := Suggestion.mkOverlay 24 40 [(js "ami", true); (js "amee", false)] in
  let props := {["suggestionStyle" := JStyle {["position" := CssStr "fixed"]}]} in
  let n := overlay_node props ov in
  o_style n !! "left" = Some (CssStr (px (Suggestion.ov_left ov))) /\
  o_style n !! "top" = Some (CssStr (px (Suggestion.ov_top ov))) /\
  ("position" <> "left" -> "position" <> "top" ->
   o_style n !! "position" = match prop_style props "suggestionStyle" !! "position" with
                    | Some x => Some x
                    | None => styles_get "suggestionAbsolute" !! "position"
                    end) /\
  fst <$> o_items n = fst <$> Suggestion.ov_items ov /\
  Forall2 (fun (it : jsstr * bool) (it' : jsstr * style) =>
             it'.2 !! "background" = if it.2 then Some (CssStr "#ffa544") else None)
    (Suggestion.ov_items ov) (o_items n).
Proof. intros ov props n. apply overlay_node_style. Defined.

End Render.
