(* ===== verification/Session.v ===== *)
(** * Sessions: the component inside the browser

    What happens around the handlers, from [render] (AvroInput.tsx,
    lines 215-257) and the browser's event order: a physical key press
    runs [onKeyDown] ([handleKeyPress]) and React's re-render, then,
    unless [preventDefault] was called, the browser's default action
    (insert the key's text at the caret when [event.key] is one
    character, nothing for a named key value such as ["Dead"], or
    delete the code unit before
    it for Backspace, or a newline for Enter in a [<textarea>]), and when
    that changed the value, the [input] event that React delivers as
    [onChange] ([handleChange]). [onBlur] is wired only on the [<input>]
    branch of [render]: a [<textarea>] never runs [handleBlurChange].
    A paste replaces the value and fires [onChange]; any other edit of
    the surface the handlers do not classify (an IME composition,
    autocorrect, a cut, a drop) sets the value and the caret and fires
    [onChange]; a click or an arrow moves the caret without any
    handler.

    [reachable] is the set of components a mounted [AvroInput] can be in;
    [wf] is its invariant (one suggestion, index 0, the element mounted,
    its value the state's value, the caret inside it), proved by rule
    induction; any finite run of events from a component with [wf]
    returns; Up and Down are inert; Enter never reaches its default
    action; a word key in a non-empty field leaves the overlay where it
    was (the anchor is not recomputed when a composition starts); a
    word key with a named key value (a dead key) lengthens the stack by
    the key's name without typing anything (what that does to the next
    commit is [Editing.named_key_then_enter_deletes]). The lemmas on key
    presses with and without a default action are the steps
    [Refinement] and [Editing] compose. *)

From S2P Require Import Prelude JsString Interfaces Stack Suggestion Caret Controller.

Local Open Scope Z_scope.

Module Session.
Import Controller.

(** The events of a session. *)
Inductive event :=
| KeyPress (e : keyEvent)
| BlurEvent
| Paste (v : jsstr)
| Input (v : jsstr) (k : Z)
| MoveCaret (n : Z).

(** Insert [t] at the caret: the element after the edit, if the value
    changed. *)
Definition insert_text (el : element) (t : jsstr) : option element :=
  let n := Z.to_nat (selectionStart el) in
  let v := el_value el in
  match t with
  | [] => None
  | _ => Some (set_caret (set_value el (take n v ++ t ++ drop n v)) (selectionStart el + zlen t))
  end.

(** Delete the code unit before the caret. *)
Definition delete_backward (el : element) : option element :=
  let n := Z.to_nat (selectionStart el) in
  let v := el_value el in
  if 0 <? selectionStart el
  then Some (set_caret (set_value el (take (n - 1) v ++ drop n v)) (selectionStart el - 1))
  else None.

(** UTF-16 surrogates: a character above U+FFFF is a high surrogate
    (0xD800-0xDBFF) followed by a low one (0xDC00-0xDFFF). *)
Definition is_high_surrogate (c : code_unit) : bool := (55296 <=? c)%N && (c <=? 56319)%N.
Definition is_low_surrogate (c : code_unit) : bool := (56320 <=? c)%N && (c <=? 57343)%N.

(** A key value that is one character (one code unit or a surrogate
    pair), as opposed to a named key value of UI Events such as
    ["Dead"] (a dead key of an international layout) or
    ["Unidentified"], which types nothing. *)
Definition is_char (k : jsstr) : bool :=
  match k with
  | [_] => true
  | [h; l] => is_high_surrogate h && is_low_surrogate l
  | _ => false
  end.

(** The browser's default action for a key that was not prevented:
    Backspace deletes, Enter inserts a newline in a [<textarea>], a key
    whose value is a character inserts it. *)
Definition default_action (el : element) (e : keyEvent) : option element :=
  if keyCode e =? 8 then delete_backward el
  else if keyCode e =? 13 then
    (if decide (tag el = TEXTAREA) then insert_text el [cu_newline] else None)
  else if (is_word_key (keyCode e) || (keyCode e =? 32)) && is_char (key e) then insert_text el (key e)
  else None.

Definition with_element (c : component) (el : element) : component :=
  mkComponent (state c) (Some el) (props c).

Section Dispatch.
Context `{Transliterator} `{TextLayout}.

(** The [input] event after a value change: [onChange] with the element's
    new value. *)
Definition fire_change (c : component) (el : element) : outcome component :=
  handleChange (with_element c el) (el_value el).

(** One event of the session. *)
Definition dispatch (c : component) (ev : event) : outcome (component * list effect) :=
  match ev with
  | KeyPress e =>
      (res <- handleKeyPress c e ;;
       let '(c1, effs) := res in
       match textInput c1 with
       | Some el =>
           if bool_decide (PreventDefault ∈ effs) then Return (c1, effs)
           else match default_action el e with
                | Some el' => (c2 <- fire_change c1 el' ;; Return (c2, effs))
                | None => Return (c1, effs)
                end
       | None => Return (c1, effs)
       end)%js
  | BlurEvent =>
      if decide (p_type (props c) = INPUT) then Return (handleBlurChange c, [])
      else Return (c, [])
  | Paste v =>
      (el <- deref (textInput c) ;;
       c2 <- fire_change c (set_caret (set_value el v) (zlen v)) ;;
       Return (c2, []))%js
  | Input v k =>
      (el <- deref (textInput c) ;;
       c2 <- fire_change c (set_caret (set_value el v) (Z.max 0 (Z.min k (zlen v)))) ;;
       Return (c2, []))%js
  | MoveCaret n =>
      (el <- deref (textInput c) ;;
       Return (with_element c (set_caret el (Z.max 0 (Z.min n (zlen (el_value el))))), []))%js
  end.

(** Mounting: the constructor's state, the element rendered with the
    state's empty value and the caret at 0, then [componentDidMount]. *)
Definition mount (p : AvroInputProps) (left top width height : Z) : outcome component :=
  componentDidMount
    (mkComponent initialState (Some (mkElement (p_type p) [] 0 left top width height)) p).

(** The components a mounted [AvroInput] can reach. *)
Inductive reachable : component -> Prop :=
| reachable_mount p l t w h c :
    mount p l t w h = Return c -> reachable c
| reachable_step c ev c' effs :
    reachable c -> dispatch c ev = Return (c', effs) -> reachable c'.

(** A run of events from a component, with every callback fired. *)
Fixpoint run (c : component) (evs : list event) : outcome (component * list effect) :=
  match evs with
  | [] => Return (c, [])
  | ev :: evs' =>
      (r1 <- dispatch c ev ;;
       r2 <- run r1.1 evs' ;;
       Return (r2.1, r1.2 ++ r2.2))%js
  end.

End Dispatch.

(** The caret of an element lies inside its value. *)
Definition el_ok (el : element) : Prop := 0 <= selectionStart el <= zlen (el_value el).

(** The invariant of reachable components, without the agreement of
    the element's value and the state's (which [onChange] restores). *)
Definition comp_ok (c : component) : Prop :=
  (exists x, suggestionList (state c) = [x]) /\ selectedIndex (state c) = 0 /\
  exists el, textInput c = Some el /\ tag el = p_type (props c) /\ el_ok el.

(** The invariant of reachable components: one suggestion, index 0, the
    element mounted with the caret inside its value, and that value the
    state's value. *)
Definition wf (c : component) : Prop :=
  comp_ok c /\ forall el, textInput c = Some el -> el_value el = value (state c).

(** ** Key presses *)

(** A key press typing the code unit [ch] with key code [code]. *)
Definition type_key (code : Z) (ch : code_unit) : event := KeyPress (mkKeyEvent code [ch]).

Definition space_key : event := KeyPress (mkKeyEvent 32 [cu_space]).

(** A dead key of an international layout (the apostrophe key, code
    222, on US-International), for which UI Events report
    [event.key = "Dead"]. *)
Definition dead_key : event := KeyPress (mkKeyEvent 222 (js "Dead")).

(** ** Concrete data: the two instances of src/src/App.tsx *)

(** An [<input>] with an [onChange] prop, as the first instance in
    src/src/App.tsx. *)
Definition text_props : AvroInputProps := mkProps INPUT [] true false.

(** The second instance of src/src/App.tsx: a [<textarea>] with an
    [onKeyDown] prop and no [onChange]. *)
Definition textarea_props : AvroInputProps := mkProps TEXTAREA [] false true.

Definition text_element (v : jsstr) (caret : Z) : element := mkElement INPUT v caret 0 0 300 20.

(** Just mounted. *)
Definition mounted_text : component :=
  mkComponent (mkState [] [] [[]] 0 0 10) (Some (text_element [] 0)) text_props.

(** ** Lemmas: elements *)

Lemma set_caret_ok (el : element) (n : Z) :
  0 <= n <= zlen (el_value el) -> el_ok (set_caret el n).
Proof. done. Qed.

Lemma insert_text_ok (el el' : element) (t : jsstr) :
  el_ok el -> insert_text el t = Some el' -> el_ok el' /\ tag el' = tag el.
Proof.
  unfold insert_text, el_ok. intros Hc Hins. destruct t as [|a t]; [done|].
  injection Hins as <-. simpl. split; [|done]. zlen_lia.
Qed.

Lemma delete_backward_ok (el el' : element) :
  el_ok el -> delete_backward el = Some el' -> el_ok el' /\ tag el' = tag el.
Proof.
  unfold delete_backward, el_ok. intros Hc Hdel.
  destruct (Z.ltb_spec 0 (selectionStart el)); [|done]. injection Hdel as <-. simpl.
  split; [|done]. zlen_lia.
Qed.

Lemma default_action_ok (el el' : element) (e : keyEvent) :
  el_ok el -> default_action el e = Some el' -> el_ok el' /\ tag el' = tag el.
Proof.
  unfold default_action. intros Hc.
  destruct (keyCode e =? 8); [by apply delete_backward_ok|].
  destruct (keyCode e =? 13); [case_decide; [by apply insert_text_ok|done]|].
  destruct (_ && _); [by apply insert_text_ok|done].
Qed.

(** Re-rendering keeps the caret inside the value and the tag. *)
Lemma rerender_ok (el : element) (s : AvroInputState) (cb : option Z) :
  el_ok el -> (forall n, cb = Some n -> 0 <= n) ->
  exists el', rerender (Some el) s cb = Some el' /\ el_ok el' /\
    el_value el' = value s /\ tag el' = tag el.
Proof.
  unfold el_ok. intros Hc Hcb. simpl. eexists. split; [reflexivity|].
  pose proof (zlen_nonneg (value s)).
  destruct (decide (el_value el = value s)) as [E|E], cb as [n|];
    unfold set_selection; simpl; [..|done].
  - specialize (Hcb n eq_refl). rewrite E in *. repeat split; try done; lia.
  - repeat split; try done; lia.
  - specialize (Hcb n eq_refl). repeat split; try done; lia.
Qed.

Lemma wf_intro (c : component) (x : jsstr) (el : element) :
  suggestionList (state c) = [x] -> selectedIndex (state c) = 0 -> textInput c = Some el ->
  tag el = p_type (props c) -> el_ok el -> el_value el = value (state c) -> wf c.
Proof. intros Hl Hi Hti Ht Hc Hv. split; [split; [eauto|eauto 10]|]. rewrite Hti. by intros ? [= <-]. Qed.

(** A flush with one suggestion, index 0 and a non-negative caret
    callback gives a well-formed component. *)
Lemma flush_wf (c : component) (s : AvroInputState) (cb : option Z) (el : element) :
  textInput c = Some el -> tag el = p_type (props c) -> el_ok el ->
  (exists x, suggestionList s = [x]) -> selectedIndex s = 0 ->
  (forall n, cb = Some n -> 0 <= n) ->
  wf (flush c s cb).
Proof.
  intros Hti Ht Hc Hl Hi Hcb.
  destruct (rerender_ok el s cb Hc Hcb) as (el' & Hre & Hc' & Hv' & Ht').
  unfold flush. split.
  - split; [done|]. split; [done|]. exists el'. cbn. rewrite Hti, Hre. split; [done|]. by rewrite Ht'.
  - cbn. rewrite Hti, Hre. by intros ? [= <-].
Qed.

Lemma array_set0_single (x y : jsstr) : JS.array_set0 [x] y = [y].
Proof. reflexivity. Qed.

#[export] Hint Resolve array_set0_single : avro.


(** ** Preservation, handler by handler *)

Section Props.
Context `{Transliterator} `{TextLayout}.

Lemma handleKeyPress_props (c c1 : component) (e : keyEvent) effs :
  handleKeyPress c e = Return (c1, effs) -> props c1 = props c.
Proof.
  unfold handleKeyPress, updatePosIf, Caret.updateSuggestionPos, commitText. intros Hk.
  outcome_cases Hk; by injection Hk as <- <-.
Qed.

Lemma handleChange_props (c c1 : component) (v : jsstr) :
  handleChange c v = Return c1 -> props c1 = props c.
Proof.
  unfold handleChange, updatePosIf, Caret.updateSuggestionPos. intros Hc.
  outcome_cases Hc; by injection Hc as <-.
Qed.

Lemma fire_change_props (c c' : component) (el : element) :
  fire_change c el = Return c' -> props c' = props c.
Proof. unfold fire_change. intros Hc. by apply handleChange_props in Hc. Qed.

(** No event changes the props. *)
Lemma dispatch_props (c c' : component) (ev : event) effs :
  dispatch c ev = Return (c', effs) -> props c' = props c.
Proof.
  intros Hd. destruct ev as [e| |v|v k|n]; cbn [dispatch] in Hd.
  - destruct (handleKeyPress c e) as [[c1 effs1]|] eqn:Hk; [|done]. cbn [bind_outcome] in Hd.
    apply handleKeyPress_props in Hk. rewrite <- Hk.
    destruct (textInput c1); [|by injection Hd as <-].
    destruct (bool_decide _); [by injection Hd as <-|].
    destruct (default_action _ _); [|by injection Hd as <-].
    destruct (fire_change _ _) as [c2|] eqn:Hc; [|done].
    injection Hd as <-. by apply fire_change_props in Hc.
  - case_decide; by injection Hd as <-.
  - destruct (textInput c); [|done]. cbn [deref bind_outcome] in Hd.
    destruct (fire_change _ _) as [c2|] eqn:Hc; [|done].
    injection Hd as <-. by apply fire_change_props in Hc.
  - destruct (textInput c); [|done]. cbn [deref bind_outcome] in Hd.
    destruct (fire_change _ _) as [c2|] eqn:Hc; [|done].
    injection Hd as <-. by apply fire_change_props in Hc.
  - destruct (textInput c); [|done]. by injection Hd as <-.
Qed.

Lemma run_props (c c' : component) (evs : list event) effs :
  run c evs = Return (c', effs) -> props c' = props c.
Proof.
  revert c effs. induction evs as [|ev evs IH]; intros c effs Hr; simpl in Hr.
  - by injection Hr as <- _.
  - destruct (dispatch c ev) as [[c1 effs1]|] eqn:Hd; simpl in Hr; [|done].
    destruct (run c1 evs) as [[c2 effs2]|] eqn:Hr2; simpl in Hr; [|done].
    injection Hr as <- _. rewrite (IH _ _ Hr2). by eapply dispatch_props.
Qed.

End Props.

Section Preservation.
Context `{Transliterator} `{TextLayout}.

Lemma getStackRange_nonneg (stack value : jsstr) (sel : Z) :
  0 <= sel -> 0 <= Stack.getStackRange stack value sel.
Proof. intros Hs. unfold Stack.getStackRange. destruct (0 <? zlen stack); [apply zlen_nonneg|done]. Qed.

(** With one suggestion at index 0, the commit text is computed and the
    new caret offset is not negative. *)
Lemma commitText_ok (s : AvroInputState) (x : jsstr) (sel : Z) :
  suggestionList s = [x] -> selectedIndex s = 0 -> 0 <= sel ->
  exists fv n, commitText s sel = Return (fv, n) /\ 0 <= n.
Proof.
  intros Hl Hi Hsel. unfold commitText. cbv zeta.
  destruct (_ && _).
  - rewrite Hl, Hi. simpl. do 2 eexists. split; [reflexivity|].
    pose proof (zlen_nonneg x). pose proof (zlen_nonneg (JS.slice (JS.substring (value s) 0 sel) 0 (- zlen (stack s)))). lia.
  - do 2 eexists. split; [reflexivity|]. by apply getStackRange_nonneg.
Qed.

Lemma handleChange_wf (c : component) (v : jsstr) :
  comp_ok c -> exists c', handleChange c v = Return c' /\ wf c'.
Proof.
  intros ([x Hl] & Hi & el & Hti & Ht & Hc).
  unfold handleChange, updatePosIf, Caret.updateSuggestionPos. rewrite Hti, Hl.
  destruct (bool_decide _); simpl; eexists; (split; [reflexivity|]);
    (eapply flush_wf; [exact Hti|done|done|simpl; eauto|done|done]).
Qed.

Lemma fire_change_wf (c : component) (el : element) :
  comp_ok c -> el_ok el -> tag el = p_type (props c) ->
  exists c', fire_change c el = Return c' /\ wf c'.
Proof.
  intros (Hl & Hi & _) Hc Ht. apply handleChange_wf.
  split; [done|]. split; [done|]. by exists el.
Qed.

(** An edit of the surface that leaves the caret inside the new value
    is handled by [onChange] to a component with the invariant. *)
Lemma edit_wf (c : component) (el : element) (v : jsstr) (k : Z) :
  comp_ok c -> textInput c = Some el -> 0 <= k <= zlen v ->
  exists c', fire_change c (set_caret (set_value el v) k) = Return c' /\ wf c'.
Proof.
  intros Hok Hti Hk. pose proof Hok as (_ & _ & el0 & Hti0 & Ht & _).
  rewrite Hti in Hti0. injection Hti0 as <-. by apply fire_change_wf.
Qed.

Lemma handleKeyPress_wf (c : component) (e : keyEvent) :
  wf c -> exists c1 effs, handleKeyPress c e = Return (c1, effs) /\ wf c1.
Proof.
  intros [([x Hl] & Hi & el & Hti & Ht & Hc) Hv].
  unfold handleKeyPress. rewrite Hti. simpl.
  destruct (is_word_key (keyCode e)).
  { do 2 eexists. split; [reflexivity|]. by eapply flush_wf; eauto. }
  destruct (is_commit_key (keyCode e)).
  { destruct (commitText_ok (state c) x (selectionStart el)) as (fv & n & Hct & Hn);
      [done|done|apply Hc|].
    rewrite Hct. unfold Caret.updateSuggestionPos. rewrite ?Hti. simpl.
    do 2 eexists. split; [reflexivity|].
    eapply flush_wf; [exact Hti|done|done|rewrite Hl; simpl; eauto|done|by intros ? [= <-]]. }
  rewrite Hl. simpl.
  destruct (keyCode e =? 8).
  - unfold updatePosIf, Caret.updateSuggestionPos. rewrite ?Hti.
    destruct (bool_decide _); simpl; do 2 eexists; (split; [reflexivity|]);
      (eapply flush_wf; [exact Hti|done|done|simpl; eauto|done|done]).
  - do 2 eexists. split; [reflexivity|]. split; [|done]. split; [eauto|]. split; [done|]. eauto.
Qed.

Lemma handleBlurChange_wf (c : component) : wf c -> wf (handleBlurChange c).
Proof.
  intros [([x Hl] & Hi & el & Hti & Ht & Hc) Hv].
  unfold handleBlurChange. eapply flush_wf; [exact Hti|done|done|rewrite Hl; simpl; eauto|done|done].
Qed.

Lemma dispatch_wf (c : component) (ev : event) :
  wf c -> exists c' effs, dispatch c ev = Return (c', effs) /\ wf c'.
Proof.
  intros Hwf. destruct ev as [e| |v|v k|n]; simpl.
  - destruct (handleKeyPress_wf c e Hwf) as (c1 & effs & -> & Hwf1). simpl.
    pose proof Hwf1 as [Hok1 Hv1]. pose proof Hok1 as (Hl1 & Hi1 & el1 & Hti1 & Ht1 & Hc1).
    rewrite Hti1. destruct (bool_decide _); [by eauto|].
    destruct (default_action el1 e) as [el'|] eqn:Hda; [|by eauto].
    destruct (default_action_ok el1 el' e Hc1 Hda) as [Hc' Ht'].
    destruct (fire_change_wf c1 el' Hok1 Hc') as (c2 & -> & Hwf2); [congruence|]. simpl. eauto.
  - case_decide; [eauto using handleBlurChange_wf|eauto].
  - destruct Hwf as [Hok _]. pose proof Hok as (_ & _ & el & Hti & _).
    rewrite Hti. simpl. pose proof (zlen_nonneg v).
    destruct (edit_wf c el v (zlen v) Hok Hti) as (c2 & -> & Hwf2); [lia|]. simpl. eauto.
  - destruct Hwf as [Hok _]. pose proof Hok as (_ & _ & el & Hti & _).
    rewrite Hti. simpl. pose proof (zlen_nonneg v).
    destruct (edit_wf c el v (Z.max 0 (Z.min k (zlen v))) Hok Hti) as (c2 & -> & Hwf2); [lia|].
    simpl. eauto.
  - destruct Hwf as [Hok Hv]. pose proof Hok as ([x Hl] & Hi & el & Hti & Ht & Hc).
    rewrite Hti. simpl. do 2 eexists. split; [reflexivity|].
    unfold with_element. split.
    + split; [eauto|]. split; [done|]. eexists. split; [reflexivity|]. split; [done|].
      unfold el_ok. simpl. pose proof (zlen_nonneg (el_value el)). lia.
    + simpl. intros ? [= <-]. simpl. by apply Hv.
Qed.

Lemma mount_wf (p : AvroInputProps) (l t w h : Z) (c : component) :
  mount p l t w h = Return c -> wf c.
Proof.
  unfold mount, componentDidMount, Caret.updateSuggestionPos. simpl. intros [= <-].
  eapply flush_wf; [reflexivity|done| |simpl; eauto|done|done].
  unfold el_ok. simpl. split; [lia|apply zlen_nonneg].
Qed.

(** C1. Every component a mounted [AvroInput] reaches keeps the
    invariant: exactly one suggestion, [selectedIndex] 0, the element
    mounted with its tag from [props.type], its value the state's value,
    and the caret inside it. *)
Theorem reachable_wf (c : component) : reachable c -> wf c.
Proof.
  induction 1 as [p l t w h c Hm|c ev c' effs _ IH Hd].
  - by eapply mount_wf.
  - destruct (dispatch_wf c ev IH) as (c'' & effs' & Hd' & Hwf). congruence.
Qed.

(** C3. Every finite sequence of events on a component with the
    invariant is handled to completion: each key press, blur, paste or
    caret move returns (none throws a [TypeError]) and re-establishes
    the invariant, so the run returns a component with the invariant. *)
Theorem run_total (c : component) (evs : list event) :
  wf c -> exists c' effs, run c evs = Return (c', effs) /\ wf c'.
Proof.
  revert c. induction evs as [|ev evs IH]; intros c Hwf; simpl; [eauto|].
  destruct (dispatch_wf c ev Hwf) as (c1 & effs1 & -> & Hwf1). simpl.
  destruct (IH c1 Hwf1) as (c2 & effs2 & -> & Hwf2). simpl. eauto.
Qed.


End Preservation.

(** ** Lemmas: key presses with a default action, and runs *)

Section KeyPress.
Context `{Transliterator} `{TextLayout}.

(** Inserting at the end of the value appends. *)
Lemma insert_text_end (el : element) (t : jsstr) :
  t <> [] -> selectionStart el = zlen (el_value el) ->
  insert_text el t =
  Some (set_caret (set_value el (el_value el ++ t)) (zlen (el_value el) + zlen t)).
Proof.
  intros Ht Hc. unfold insert_text. rewrite Hc, zlen_to_nat, firstn_all, drop_all, app_nil_r.
  by destruct t.
Qed.

(** Deleting at the end of a non-empty value drops its last code unit. *)
Lemma delete_backward_end (el : element) :
  el_value el <> [] -> selectionStart el = zlen (el_value el) ->
  delete_backward el =
  Some (set_caret (set_value el (removelast (el_value el))) (zlen (el_value el) - 1)).
Proof.
  intros Hne Hc. unfold delete_backward. rewrite Hc.
  destruct (el_value el) as [|x v _] using rev_ind; [done|]. clear Hne.
  rewrite (proj2 (Z.ltb_lt _ _)) by zlen_lia.
  rewrite zlen_to_nat, drop_all, app_nil_r, removelast_last, length_app. simpl.
  by rewrite Nat.add_sub, take_app_length.
Qed.

(** A key press whose handler returns without [preventDefault] and whose
    default action edits the element runs [onChange] on the edited
    element. *)
Lemma dispatch_keypress_edit (c c1 : component) (e : keyEvent) effs (el1 el' : element) :
  handleKeyPress c e = Return (c1, effs) -> textInput c1 = Some el1 ->
  PreventDefault ∉ effs -> default_action el1 e = Some el' ->
  dispatch c (KeyPress e) = (c2 <- fire_change c1 el' ;; Return (c2, effs))%js.
Proof. intros Hk Hti Hp Hda. simpl. rewrite Hk. simpl. rewrite Hti, bool_decide_false by done. by rewrite Hda. Qed.

(** A key press whose default action does nothing: the handler's result. *)
Lemma dispatch_keypress_noedit (c c1 : component) (e : keyEvent) effs (el1 : element) :
  handleKeyPress c e = Return (c1, effs) -> textInput c1 = Some el1 ->
  PreventDefault ∈ effs \/ default_action el1 e = None ->
  dispatch c (KeyPress e) = Return (c1, effs).
Proof.
  intros Hk Hti Hp. simpl. rewrite Hk. simpl. rewrite Hti.
  destruct Hp as [Hp|Hda]; [by rewrite bool_decide_true|].
  destruct (bool_decide _); [done|]. by rewrite Hda.
Qed.

(** The [onChange] after an edit: the element stays as edited, the
    state takes its value and [parse(stack)] in slot 0. *)
Lemma fire_change_result (c : component) (el : element) :
  exists pos, fire_change c el =
    Return (mkComponent
      (with_position_opt (with_suggestionList (with_value (state c) (el_value el))
         (JS.array_set0 (suggestionList (state c)) (parse (stack (state c))))) pos)
      (Some el) (props c)).
Proof.
  unfold fire_change, handleChange, updatePosIf, Caret.updateSuggestionPos, with_element.
  cbn [textInput deref bind_outcome state props].
  destruct (bool_decide _); [exists (Some (Caret.suggestionPos el))|exists None];
    cbn [bind_outcome]; unfold flush; cbn [textInput props];
    (rewrite rerender_same; [reflexivity|]); [|done].
  by destruct (Caret.suggestionPos el).
Qed.

(** The [onChange] after an edit of a non-empty value: the overlay
    position is left as it was. *)
Lemma fire_change_nonempty (c : component) (el : element) :
  value (state c) <> [] ->
  fire_change c el =
    Return (mkComponent (with_suggestionList (with_value (state c) (el_value el))
              (JS.array_set0 (suggestionList (state c)) (parse (stack (state c)))))
            (Some el) (props c)).
Proof.
  intros Hne. unfold fire_change, handleChange, updatePosIf, with_element.
  cbn [textInput deref bind_outcome state props]. rewrite bool_decide_false by done.
  cbn [bind_outcome with_position_opt]. unfold flush. cbn [textInput props].
  by rewrite rerender_same.
Qed.

Lemma word_key_default (el : element) (code : Z) (t : jsstr) :
  is_word_key code = true ->
  default_action el (mkKeyEvent code t) = if is_char t then insert_text el t else None.
Proof.
  unfold default_action, is_word_key. simpl. intros Hk.
  destruct (Z.eqb_spec code 8) as [->|]; [done|].
  destruct (Z.eqb_spec code 13) as [->|]; [done|]. rewrite Hk. simpl. by destruct (is_char t).
Qed.

(** A word key whose value is not a character has no default action. *)
Lemma named_key_noedit (el : element) (code : Z) (k : jsstr) :
  is_word_key code = true -> is_char k = false -> default_action el (mkKeyEvent code k) = None.
Proof. intros Hk Hc. by rewrite word_key_default, Hc. Qed.

Lemma run_app (c : component) (evs1 evs2 : list event) :
  run c (evs1 ++ evs2) =
  (r1 <- run c evs1 ;; r2 <- run r1.1 evs2 ;; Return (r2.1, r1.2 ++ r2.2))%js.
Proof.
  revert c. induction evs1 as [|ev evs1 IH]; intros c; simpl.
  - by destruct (run c evs2) as [[c2 effs2]|].
  - destruct (dispatch c ev) as [[c1 effs1]|]; simpl; [|done]. rewrite IH.
    destruct (run c1 evs1) as [[c3 effs3]|]; simpl; [|done].
    destruct (run c3 evs2) as [[c4 effs4]|]; simpl; [|done]. by rewrite app_assoc.
Qed.

(** A run that starts with one event. *)
Lemma run_cons (c c1 c2 : component) (ev : event) (evs : list event) effs1 effs2 :
  dispatch c ev = Return (c1, effs1) -> run c1 evs = Return (c2, effs2) ->
  run c (ev :: evs) = Return (c2, effs1 ++ effs2).
Proof. intros H1 H2. simpl. rewrite H1. simpl. by rewrite H2. Qed.

(** A run of two events. *)
Lemma run_two (c c1 c2 : component) (ev1 ev2 : event) effs1 effs2 :
  dispatch c ev1 = Return (c1, effs1) -> dispatch c1 ev2 = Return (c2, effs2) ->
  run c [ev1; ev2] = Return (c2, effs1 ++ effs2).
Proof. intros H1 H2. simpl. rewrite H1. simpl. rewrite H2. simpl. by rewrite app_nil_r. Qed.

End KeyPress.

(** ** Wiring of [render] *)

Section Wiring.
Context `{Transliterator} `{TextLayout}.

(** C29. Enter never reaches the browser's default action: on a
    component with the invariant, a key press with key code 13 is
    exactly [handleKeyPress], whose [preventDefault] cancels the newline
    a [<textarea>] would insert; no [onChange] follows. *)
Theorem enter_no_default_action (c : component) (e : keyEvent) :
  wf c -> keyCode e = 13 -> dispatch c (KeyPress e) = handleKeyPress c e.
Proof.
  intros Hwf Hk. pose proof Hwf as [([x Hl] & Hi & el & Hti & _ & Hc) _].
  destruct (commitText_ok (state c) x (selectionStart el)) as (fv & n & Hct & _);
    [done|done|apply Hc|].
  assert (Hck : is_commit_key (keyCode e) = true) by (by rewrite Hk).
  pose proof (handleKeyPress_commit_eq c e el fv n Hti Hck Hct) as Hhk. rewrite Hhk.
  eapply dispatch_keypress_noedit; [exact Hhk| |left; by apply commitEffects_enter].
  unfold flush. cbn [textInput]. rewrite Hti. reflexivity.
Qed.

(** C19. The overlay is not re-anchored when a composition starts: on a
    component with the invariant and a non-empty value, a word key
    leaves [suggestionLeft] and [suggestionTop] as they were, wherever
    the caret is (the spec recomputes the caret anchor on composition
    start; [handleChange] recomputes it only when the value before the
    change was empty). *)
Theorem word_key_keeps_anchor (c c' : component) (code : Z) (ch : code_unit) effs :
  wf c -> value (state c) <> [] -> is_word_key code = true ->
  dispatch c (type_key code ch) = Return (c', effs) ->
  suggestionLeft (state c') = suggestionLeft (state c) /\ suggestionTop (state c') = suggestionTop (state c).
Proof.
  intros [(_ & _ & el & Hti & _ & _) Hv] Hne Hk Hd.
  pose proof (handleKeyPress_word_eq c (mkKeyEvent code [ch]) el Hti Hk) as Hhk.
  set (c1 := flush c _ None) in Hhk.
  assert (Hti1 : textInput c1 = Some el).
  { unfold c1, flush. cbn [textInput]. rewrite Hti. apply rerender_same. simpl. by apply Hv. }
  destruct (insert_text el [ch]) as [el'|] eqn:Hins; [|done].
  unfold type_key in Hd. rewrite (dispatch_keypress_edit c c1 _ [] el el' Hhk Hti1) in Hd;
    [| by intros ?%elem_of_nil | by rewrite word_key_default].
  rewrite fire_change_nonempty in Hd by done. by injection Hd as <- _.
Qed.

(** C20. A word key whose value is not a character (["Dead"] for a
    dead key, ["Unidentified"] for a key the browser cannot name) types
    nothing, so no [onChange] runs, but the handler appends the whole
    key value to the stack: the new stack is the word before the caret
    followed by the key's name, the value, the element, the suggestions
    and the anchor are unchanged, and no callback runs. *)
Theorem named_key_extends_stack (c : component) (el : element) (code : Z) (k : jsstr) :
  wf c -> textInput c = Some el -> is_word_key code = true -> is_char k = false ->
  dispatch c (KeyPress (mkKeyEvent code k)) =
    Return (mkComponent (with_stack (state c)
              (Stack.to_js_string (Stack.getCurrentStack (value (state c)) (selectionStart el)) ++ k))
              (Some el) (props c), []).
Proof.
  intros [_ Hv] Hti Hk Hc.
  pose proof (handleKeyPress_word_eq c (mkKeyEvent code k) el Hti Hk) as Hhk.
  assert (Hr : rerender (textInput c) (with_stack (state c)
                 (Stack.to_js_string (Stack.getCurrentStack (value (state c)) (selectionStart el)) ++ key (mkKeyEvent code k)))
                 None = Some el) by (rewrite Hti; apply rerender_same; simpl; by apply Hv).
  rewrite (dispatch_keypress_noedit _ _ _ _ el Hhk); [by unfold flush; rewrite Hr|by unfold flush; rewrite Hr|].
  right. by apply named_key_noedit.
Qed.

End Wiring.

(** ** Concrete sessions and witnesses *)

Section Concrete.
#[local] Existing Instance identity_transliterator.
#[local] Existing Instance Caret.monospace_layout.

Example mount_text : mount text_props 0 0 300 20 = Return mounted_text.
Proof. reflexivity. Qed.

Lemma mounted_text_wf : wf mounted_text.
Proof. exact (mount_wf text_props 0 0 300 20 mounted_text mount_text). Qed.

Lemma reachable_wf_witness : reachable mounted_text /\ wf mounted_text.
Proof.
  split; [apply (reachable_mount text_props 0 0 300 20); reflexivity|].
  apply reachable_wf. apply (reachable_mount text_props 0 0 300 20). reflexivity.
Defined.

Lemma run_total_witness :
  wf mounted_text /\ exists c' effs,
    run mounted_text [type_key 65 97; Paste (js "xyz"); BlurEvent; space_key] = Return (c', effs) /\ wf c'.
Proof. split; [exact mounted_text_wf|]. apply run_total. exact mounted_text_wf. Defined.


Lemma enter_no_default_action_witness :
  let c := mkComponent (mounted_text.(state)) (Some (mkElement TEXTAREA [] 0 0 0 300 100)) textarea_props in
  wf c /\ keyCode enter_event = 13 /\ dispatch c (KeyPress enter_event) = handleKeyPress c enter_event.
Proof.
  intros c. assert (Hwf : wf c).
  { apply (wf_intro _ [] (mkElement TEXTAREA [] 0 0 0 300 100)); try reflexivity.
    unfold el_ok, zlen. simpl. lia. }
  split; [done|]. split; [reflexivity|]. apply enter_no_default_action; [done|reflexivity].
Defined.

Lemma word_key_keeps_anchor_witness :
  let c := mkComponent (mkState (js "ami ") [] [[]] 0 8 10) (Some (text_element (js "ami ") 4)) text_props in
  wf c /\ value (state c) <> [] /\ is_word_key 66 = true /\
  dispatch c (type_key 66 98) = Return (mkComponent (mkState (js "ami b") (js "b") [js "b"] 0 8 10)
                                          (Some (text_element (js "ami b") 5)) text_props, []) /\
  suggestionLeft (state (mkComponent (mkState (js "ami b") (js "b") [js "b"] 0 8 10)
                           (Some (text_element (js "ami b") 5)) text_props)) = suggestionLeft (state c) /\
  suggestionTop (state (mkComponent (mkState (js "ami b") (js "b") [js "b"] 0 8 10)
                          (Some (text_element (js "ami b") 5)) text_props)) = suggestionTop (state c).
Proof.
  intros c. assert (Hwf : wf c).
  { apply (wf_intro _ [] (text_element (js "ami ") 4)); try reflexivity. unfold el_ok, zlen. simpl. lia. }
  assert (Hd : dispatch c (type_key 66 98) = Return (mkComponent (mkState (js "ami b") (js "b") [js "b"] 0 8 10)
                                          (Some (text_element (js "ami b") 5)) text_props, []))
    by (vm_compute; reflexivity).
  split; [exact Hwf|]. split; [discriminate|]. split; [reflexivity|]. split; [exact Hd|].
  exact (word_key_keeps_anchor c _ 66 98 [] Hwf ltac:(discriminate) eq_refl Hd).
Defined.

Lemma named_key_extends_stack_witness :
  wf mounted_text /\ textInput mounted_text = Some (text_element [] 0) /\ is_word_key 222 = true /\
  is_char (js "Dead") = false /\
  dispatch mounted_text dead_key =
    Return (mkComponent (with_stack (state mounted_text) (js "Dead")) (Some (text_element [] 0)) (props mounted_text), []).
Proof.
  split; [exact mounted_text_wf|]. split; [reflexivity|]. split; [reflexivity|]. split; [reflexivity|].
  exact (named_key_extends_stack mounted_text (text_element [] 0) 222 (js "Dead") mounted_text_wf eq_refl eq_refl eq_refl).
Defined.

End Concrete.

End Session.
