(* ===== verification/Refinement.v ===== *)
(** * Refinement: the composition state machine of the spec

    Spec sections 3 and 4.1 describe [AvroInput] as a state machine over
    the text (with the caret at its end) and the stack. A word key
    appends its character, the stack becoming the separator-free run
    before the caret followed by that character; Space or Enter with a
    non-empty stack replaces the stack by its transliteration, notifies
    the application, and Space then inserts a space while Enter inserts
    nothing and is forwarded; Backspace drops the last code unit of the
    text and of the stack. [Composition.astep] is that machine and
    [Composition.obs] what the embedding application observes.

    [refines c a] relates a component to an abstract state: same text
    with the caret at its end, same stack, slot 0 the stack's
    transliteration, the invariant [wf]. [dispatch_simulates] is the
    forward simulation for one key press (the handler, the browser's
    default action and [onChange], as [Session.dispatch] runs them), and
    [run_simulates] for a sequence. The theorems: the refinement from a
    fresh mount, the spec's composition example for any word, the spec's
    stack invariant on the component, erasing back to no composition,
    and a commit by Enter that lets the next word key take the
    committed transliteration back into the stack. *)

From S2P Require Import Prelude JsString Interfaces Stack Suggestion Caret Controller Session.

Local Open Scope Z_scope.

Module Composition.
Import Controller Session.

(** ** The abstract machine *)

(** The text, with the caret at its end, and the stack. *)
Record cstate := mkCState { c_text : jsstr; c_stack : jsstr }.

(** A word key typing [ch] with key code [code]; Enter ([true]) or
    Space ([false]); Backspace. *)
Inductive action :=
| AType (code : Z) (ch : code_unit)
| ACommit (enter : bool)
| AErase.

(** The final-value notification; the suppressed newline of Enter; the
    forwarded Enter key event. *)
Inductive obs :=
| ONotify (v : jsstr)
| OSuppress
| OForward.

(** The separator-free run at the front of a reversed text. *)
Fixpoint run_rev (r : jsstr) : jsstr :=
  match r with
  | [] => []
  | c :: r' => if JS.is_ws c then [] else c :: run_rev r'
  end.

(** The spec's [currentRun] at the end of the text. *)
Definition current_run (t : jsstr) : jsstr := rev (run_rev (rev t)).

(** The actions the spec's classification calls a word character. *)
Definition word_action (code : Z) (ch : code_unit) : bool :=
  is_word_key code && negb (JS.is_ws ch).

Section Spec.
Context `{Transliterator}.

(** One transition of spec section 4.1; [None] for a commit without a
    stack, which the spec leaves with an unspecified caret. *)
Definition astep (a : cstate) (act : action) : option (cstate * list obs) :=
  match act with
  | AType code ch =>
      if word_action code ch
      then Some (mkCState (c_text a ++ [ch]) (current_run (c_text a) ++ [ch]), [])
      else None
  | ACommit enter =>
      match c_stack a with
      | [] => None
      | _ :: _ =>
          let v := take (length (c_text a) - length (c_stack a)) (c_text a) ++ parse (c_stack a) in
          Some (mkCState (if enter then v else v ++ [cu_space]) [],
                ONotify v :: (if enter then [OSuppress; OForward] else []))
      end
  | AErase => Some (mkCState (removelast (c_text a)) (removelast (c_stack a)), [])
  end.

Fixpoint arun (a : cstate) (acts : list action) : option (cstate * list obs) :=
  match acts with
  | [] => Some (a, [])
  | act :: acts' =>
      match astep a act with
      | Some (a1, o1) =>
          match arun a1 acts' with
          | Some (a2, o2) => Some (a2, o1 ++ o2)
          | None => None
          end
      | None => None
      end
  end.

End Spec.

(** The spec's invariant (section 3): the stack is a suffix of the
    separator-free run before the caret. *)
Definition a_ok (a : cstate) : Prop := c_stack a `suffix_of` current_run (c_text a).

(** Typing a word, one action per key. *)
Definition typing (w : list (Z * code_unit)) : list action := map (fun kc => AType kc.1 kc.2) w.

(** ** The concrete events and callbacks of the abstract actions *)

Definition backspace_event : keyEvent := mkKeyEvent 8 (js "Backspace").

Definition event_of (act : action) : event :=
  match act with
  | AType code ch => type_key code ch
  | ACommit enter => KeyPress (if enter then enter_event else space_event)
  | AErase => KeyPress backspace_event
  end.

(** The callbacks an observation stands for, given the props. *)
Definition lower (p : AvroInputProps) (o : obs) : list effect :=
  match o with
  | ONotify v => if p_onChange p then [CallOnChange v] else []
  | OSuppress => [PreventDefault]
  | OForward => if p_onKeyDown p then [CallOnKeyDown enter_event] else []
  end.

Definition lower_all (p : AvroInputProps) (os : list obs) : list effect :=
  concat (map (lower p) os).

Section Relation.
Context `{Transliterator} `{TextLayout}.

(** The component implements the abstract state [a]. *)
Definition refines (c : component) (a : cstate) : Prop :=
  wf c /\ value (state c) = c_text a /\ stack (state c) = c_stack a /\
  suggestionList (state c) = [parse (c_stack a)] /\
  (exists el, textInput c = Some el /\ selectionStart el = zlen (c_text a)) /\ a_ok a.

End Relation.

(** ** Concrete data: the spec's composition example *)

(** "আমি" in UTF-16 code units. *)
Definition ami_bn : jsstr := [2438%N; 2478%N; 2495%N].

(** A transliterator that knows one word. *)
Definition ami_transliterator : Transliterator :=
  fun s => if decide (s = js "ami") then ami_bn else s.

(** The keys a, m, i. *)
Definition ami_keys : list (Z * code_unit) := [(65, 97%N); (77, 109%N); (73, 105%N)].

(** After typing "ami"; after Space. *)
Definition typed_ami : component :=
  mkComponent (mkState (js "ami") (js "ami") [ami_bn] 0 8 10) (Some (text_element (js "ami") 3)) text_props.
Definition committed_ami : component :=
  mkComponent (mkState (ami_bn ++ [cu_space]) [] [[]] 0 24 10)
    (Some (text_element (ami_bn ++ [cu_space]) 4)) text_props.

(** ** Lemmas: the current run *)

Lemma current_run_snoc (t : jsstr) (ch : code_unit) :
  current_run (t ++ [ch]) = if JS.is_ws ch then [] else current_run t ++ [ch].
Proof. unfold current_run. rewrite rev_unit. simpl. by destruct (JS.is_ws ch). Qed.

Lemma current_run_trailing (t : jsstr) : Stack.trailing_run t (current_run t).
Proof.
  induction t as [|ch t IH] using rev_ind.
  - exists []. auto.
  - rewrite current_run_snoc. destruct (JS.is_ws ch) eqn:Hch.
    + exists (t ++ [ch]). rewrite app_nil_r. eauto 10.
    + destruct IH as (p & E & Hr & Hp). exists p.
      rewrite E at 1. rewrite <- app_assoc. split; [done|]. split; [|done].
      apply Forall_app. auto.
Qed.

(** A separator-free text extends the run before it. *)
Lemma current_run_app (t u : jsstr) :
  Forall (fun x => JS.is_ws x = false) u -> current_run (t ++ u) = current_run t ++ u.
Proof.
  induction u as [|x u IH] using rev_ind; intros Hu; [by rewrite !app_nil_r|].
  apply Forall_app in Hu as [Hu [Hx _]%Forall_cons].
  by rewrite app_assoc, !current_run_snoc, Hx, IH, app_assoc.
Qed.

Lemma current_run_suffix (t : jsstr) : current_run t `suffix_of` t.
Proof. destruct (current_run_trailing t) as (p & E & _). by exists p. Qed.

Lemma getCurrentStack_end (t : jsstr) : Stack.getCurrentStack t (zlen t) = Some (current_run t).
Proof.
  apply Stack.getCurrentStack_of_run; [apply zlen_nonneg|].
  rewrite zlen_to_nat, firstn_all. apply current_run_trailing.
Qed.

(** ** Lemmas: the abstract invariant *)

Lemma a_ok_split (a : cstate) :
  a_ok a -> c_text a = take (length (c_text a) - length (c_stack a)) (c_text a) ++ c_stack a.
Proof.
  intros [k1 Hk1]. destruct (current_run_suffix (c_text a)) as [k2 Hk2].
  rewrite Hk1, app_assoc in Hk2. rewrite Hk2 at 2 3. rewrite length_app, Nat.add_sub.
  by rewrite take_app_length, <- Hk2.
Qed.

Lemma a_ok_ws_free (a : cstate) : a_ok a -> Forall (fun c => JS.is_ws c = false) (c_stack a).
Proof.
  intros [k Hk]. pose proof (Stack.trailing_run_Forall _ _ (current_run_trailing (c_text a))) as HF.
  rewrite Hk in HF. by apply Forall_app in HF as [_ HF].
Qed.

Lemma removelast_suffix (s t : jsstr) :
  s `suffix_of` current_run t -> removelast s `suffix_of` current_run (removelast t).
Proof.
  destruct t as [|x t _] using rev_ind; [by intros ->%suffix_nil_inv|].
  rewrite current_run_snoc, removelast_last.
  destruct s as [|y s _] using rev_ind; [intros _; apply suffix_nil|].
  rewrite removelast_last. destruct (JS.is_ws x).
  - by intros Hs%suffix_nil_inv; destruct s.
  - apply suffix_snoc_inv_2.
Qed.

(** The machine keeps the spec's invariant. *)
Lemma astep_ok `{Transliterator} (a a' : cstate) (act : action) os :
  a_ok a -> astep a act = Some (a', os) -> a_ok a'.
Proof.
  intros Hok Hs. destruct act as [code ch|enter|]; simpl in Hs.
  - destruct (word_action code ch) eqn:Hw; [|done]. injection Hs as <- _.
    apply andb_prop in Hw as [_ Hch%negb_true_iff].
    unfold a_ok. simpl. by rewrite current_run_snoc, Hch.
  - destruct (c_stack a); [done|]. injection Hs as <- _. apply suffix_nil.
  - injection Hs as <- _. by apply removelast_suffix.
Qed.

(** ** Lemmas: the forward simulation *)

Lemma slice_drop_last (s : jsstr) : JS.slice s 0 (-1) = removelast s.
Proof.
  change (-1) with (- (1)). rewrite JS.slice_0_neg by lia.
  destruct s as [|x s _] using rev_ind; [done|].
  rewrite removelast_last, length_app, Nat.add_sub. apply take_app_length.
Qed.

Lemma zlen_removelast (t : jsstr) : t <> [] -> zlen (removelast t) = zlen t - 1.
Proof.
  destruct t as [|x t _] using rev_ind; [done|]. intros _.
  rewrite removelast_last. zlen_lia.
Qed.

Lemma lower_all_app (p : AvroInputProps) (os1 os2 : list obs) :
  lower_all p (os1 ++ os2) = lower_all p os1 ++ lower_all p os2.
Proof. unfold lower_all. by rewrite map_app, concat_app. Qed.

Section Simulation.
Context `{Transliterator} `{TextLayout}.

Lemma dispatch_wf_eq (c c' : component) (ev : event) effs :
  wf c -> dispatch c ev = Return (c', effs) -> wf c'.
Proof. intros Hwf Hd. destruct (dispatch_wf c ev Hwf) as (c'' & effs' & Hd' & ?). congruence. Qed.

Lemma refines_intro (c : component) (a : cstate) (el : element) :
  wf c -> value (state c) = c_text a -> stack (state c) = c_stack a ->
  suggestionList (state c) = [parse (c_stack a)] ->
  textInput c = Some el -> selectionStart el = zlen (c_text a) -> a_ok a -> refines c a.
Proof. unfold refines. eauto 10. Qed.

Lemma refines_el (c : component) (a : cstate) (el : element) :
  refines c a -> textInput c = Some el -> el_value el = c_text a.
Proof. intros ((_ & Hv) & Hv' & _) Hti. rewrite <- Hv'. by apply Hv. Qed.

(** A word key: the handler sets the stack to the run before the caret
    and the key, the browser appends the key, [onChange] stores the
    value and [parse] of the new stack. *)
Lemma type_simulates (c : component) (a : cstate) (code : Z) (ch : code_unit) :
  refines c a -> word_action code ch = true ->
  exists c', dispatch c (type_key code ch) = Return (c', []) /\
    refines c' (mkCState (c_text a ++ [ch]) (current_run (c_text a) ++ [ch])).
Proof.
  intros Hr Hw. pose proof Hr as (Hwf & Hv & Hs & Hl & (el & Hti & Hc) & Hok).
  pose proof (refines_el c a el Hr Hti) as Hel.
  pose proof Hw as [Hk Hch%negb_true_iff]%andb_prop.
  pose proof (handleKeyPress_word_eq c (mkKeyEvent code [ch]) el Hti Hk) as Hhk.
  rewrite Hc, Hv, getCurrentStack_end in Hhk. cbn [Stack.to_js_string key] in Hhk.
  set (el' := set_caret (set_value el (el_value el ++ [ch])) (zlen (el_value el) + zlen [ch])).
  set (c1 := flush c (with_stack (state c) (current_run (c_text a) ++ [ch])) None) in Hhk.
  destruct (fire_change_result c1 el') as (pos & Hf).
  assert (Hd : dispatch c (type_key code ch) = (c2 <- fire_change c1 el' ;; Return (c2, []))%js).
  { apply (dispatch_keypress_edit _ _ _ _ el el' Hhk).
    - unfold c1, flush. cbn [textInput]. rewrite Hti. apply rerender_same. simpl. by rewrite Hel.
    - by intros ?%elem_of_nil.
    - rewrite word_key_default by done. cbn [is_char]. apply insert_text_end; [done|by rewrite Hel, Hc]. }
  rewrite Hf in Hd. cbn [bind_outcome] in Hd. eexists. split; [exact Hd|].
  apply (refines_intro _ _ el'); [exact (dispatch_wf_eq _ _ _ _ Hwf Hd)| | | |by destruct pos| |
    apply (astep_ok a _ (AType code ch) []); [exact Hok|cbn [astep]; by rewrite Hw]];
    destruct pos; simpl; rewrite ?Hl, ?Hel; solve [done | zlen_lia].
Qed.

(** Backspace: the handler drops the last code unit of the stack, the
    browser deletes the code unit before the caret if there is one, and
    [onChange] follows that deletion. *)
Lemma erase_simulates (c : component) (a : cstate) :
  refines c a ->
  exists c', dispatch c (KeyPress backspace_event) = Return (c', []) /\
    refines c' (mkCState (removelast (c_text a)) (removelast (c_stack a))).
Proof.
  intros Hr. pose proof Hr as (Hwf & Hv & Hs & Hl & (el & Hti & Hc) & Hok).
  pose proof (refines_el c a el Hr Hti) as Hel.
  pose proof (handleKeyPress_backspace_eq c backspace_event el Hti eq_refl) as Hhk.
  rewrite slice_drop_last in Hhk.
  set (po := if bool_decide _ then _ else _) in Hhk.
  set (c1 := flush c _ None) in Hhk.
  assert (Hti1 : textInput c1 = Some el).
  { unfold c1, flush. cbn [textInput]. rewrite Hti. apply rerender_same. destruct po; simpl; by rewrite Hel, Hv. }
  assert (Hok' : a_ok (mkCState (removelast (c_text a)) (removelast (c_stack a))))
    by (by apply removelast_suffix).
  destruct (decide (c_text a = [])) as [Ht|Ht].
  - assert (Hd : dispatch c (KeyPress backspace_event) = Return (c1, [])).
    { apply (dispatch_keypress_noedit _ _ _ _ el Hhk Hti1). right.
      unfold default_action, delete_backward. simpl. by rewrite Hc, Ht. }
    assert (Hs0 : c_stack a = []) by (apply suffix_nil_inv; unfold a_ok in Hok; by rewrite Ht in Hok).
    eexists. split; [exact Hd|].
    apply (refines_intro _ _ el); [exact (dispatch_wf_eq _ _ _ _ Hwf Hd)| | | |exact Hti1| |exact Hok'];
      destruct po; simpl; rewrite ?Hc, ?Hv, ?Hs, ?Hl, ?Ht, ?Hs0; done.
  - set (el' := set_caret (set_value el (removelast (el_value el))) (zlen (el_value el) - 1)).
    destruct (fire_change_result c1 el') as (pos & Hf).
    assert (Hd : dispatch c (KeyPress backspace_event) = (c2 <- fire_change c1 el' ;; Return (c2, []))%js).
    { apply (dispatch_keypress_edit _ _ _ _ el el' Hhk Hti1); [by intros ?%elem_of_nil|].
      apply delete_backward_end; [by rewrite Hel|by rewrite Hel, Hc]. }
    rewrite Hf in Hd. cbn [bind_outcome] in Hd. eexists. split; [exact Hd|].
    apply (refines_intro _ _ el'); [exact (dispatch_wf_eq _ _ _ _ Hwf Hd)| | | |done| |exact Hok'];
      destruct po, pos; simpl; rewrite ?Hv, ?Hs, ?Hl, ?Hel, ?zlen_removelast; done.
Qed.

(** Space or Enter with a non-empty stack: the handler splices [parse]
    of the stack (slot 0) in place of the stack and re-renders with the
    caret after it; Space is then inserted by the browser and followed by
    [onChange], Enter is prevented. *)
Lemma commit_simulates `{!TransliteratorLaws} (c : component) (a : cstate) (enter : bool) :
  refines c a -> c_stack a <> [] ->
  let v := take (length (c_text a) - length (c_stack a)) (c_text a) ++ parse (c_stack a) in
  exists c', dispatch c (KeyPress (if enter then enter_event else space_event)) =
      Return (c', lower_all (props c) (ONotify v :: (if enter then [OSuppress; OForward] else []))) /\
    refines c' (mkCState (if enter then v else v ++ [cu_space]) []).
Proof.
  intros Hr Hne v. pose proof Hr as (Hwf & Hv & Hs & Hl & (el & Hti & Hc) & Hok).
  pose proof Hwf as [(_ & Hi & _) _].
  pose proof (a_ok_split a Hok) as Hsplit.
  set (q := take (length (c_text a) - length (c_stack a)) (c_text a)) in v, Hsplit.
  set (e := if enter then enter_event else space_event).
  assert (Hck : is_commit_key (keyCode e) = true) by (by destruct enter).
  assert (Hct : commitText (state c) (selectionStart el) = Return (v, zlen q + zlen (parse (c_stack a)))).
  { pose proof (commitText_splice (state c) q [] (parse (c_stack a))) as Hsp.
    rewrite Hs, !app_nil_r, <- Hsplit in Hsp. rewrite Hc. apply Hsp; [by rewrite Hv|done| |].
    - intros Hw. pose proof (a_ok_ws_free a Hok) as HF. rewrite Hw in HF. by inversion HF.
    - by rewrite Hl, Hi. }
  pose proof (handleKeyPress_commit_eq c e el _ _ Hti Hck Hct) as Hhk.
  set (c1 := flush c _ (Some _)) in Hhk.
  set (s1 := with_position _ _) in c1.
  destruct (rerender_callback el s1 (zlen q + zlen (parse (c_stack a)))) as (el1 & Hre & Hval & Hcar).
  simpl in Hval. rewrite Z.min_l in Hcar by (simpl; unfold v; zlen_lia).
  assert (Hti1 : textInput c1 = Some el1) by (unfold c1, flush; cbn [textInput]; by rewrite Hti).
  assert (Hlen : zlen v = zlen q + zlen (parse (c_stack a))) by (unfold v; zlen_lia).
  destruct enter.
  - assert (Hd : dispatch c (KeyPress e) = Return (c1, commitEffects (props c) e v)).
    { apply (dispatch_keypress_noedit _ _ _ _ el1 Hhk Hti1). left. by apply commitEffects_enter. }
    eexists. split.
    + rewrite Hd. unfold commitEffects, lower_all. simpl.
      by destruct (p_onChange (props c)), (p_onKeyDown (props c)).
    + apply (refines_intro _ _ el1); [exact (dispatch_wf_eq _ _ _ _ Hwf Hd)| | | |done| |apply suffix_nil];
        simpl; rewrite ?Hl, ?parse_empty; solve [congruence | reflexivity].
  - set (el' := set_caret (set_value el1 (el_value el1 ++ [cu_space])) (zlen (el_value el1) + zlen [cu_space])).
    destruct (fire_change_result c1 el') as (pos & Hf).
    assert (Hd : dispatch c (KeyPress e) =
      (c2 <- fire_change c1 el' ;; Return (c2, commitEffects (props c) e v))%js).
    { apply (dispatch_keypress_edit _ _ _ _ el1 el' Hhk Hti1).
      - rewrite commitEffects_space by done. intros Hin%list_elem_of_In.
        destruct (p_onChange (props c)); simpl in Hin; intuition discriminate.
      - transitivity (insert_text el1 [cu_space]); [reflexivity|].
        apply insert_text_end; [done|by rewrite Hval, Hcar]. }
    rewrite Hf in Hd. cbn [bind_outcome] in Hd. eexists. split.
    + rewrite Hd, commitEffects_space by done. unfold lower_all. simpl. by rewrite app_nil_r.
    + apply (refines_intro _ _ el'); [exact (dispatch_wf_eq _ _ _ _ Hwf Hd)| | | |by destruct pos| |apply suffix_nil];
        destruct pos; simpl; rewrite ?Hval, ?Hl; try done. all: zlen_lia.
Qed.

(** The forward simulation: every abstract step is matched by the key
    press of its action, with the callbacks of its observations. *)
Lemma dispatch_simulates `{!TransliteratorLaws} (c : component) (a a' : cstate) (act : action) os :
  refines c a -> astep a act = Some (a', os) ->
  exists c', dispatch c (event_of act) = Return (c', lower_all (props c) os) /\ refines c' a'.
Proof.
  intros Hr Hs. destruct act as [code ch|enter|]; simpl in Hs.
  - destruct (word_action code ch) eqn:Hw; [|done]. injection Hs as <- <-.
    by apply type_simulates.
  - destruct (c_stack a) as [|x l] eqn:E; [done|]. rewrite <- E in Hs. injection Hs as <- <-.
    apply commit_simulates; [done|by rewrite E].
  - injection Hs as <- <-. by apply erase_simulates.
Qed.

Lemma run_simulates `{!TransliteratorLaws} (c : component) (a a' : cstate) (acts : list action) os :
  refines c a -> arun a acts = Some (a', os) ->
  exists c', run c (map event_of acts) = Return (c', lower_all (props c) os) /\ refines c' a'.
Proof.
  revert c a os. induction acts as [|act acts IH]; intros c a os Hr Hs; simpl in Hs.
  - injection Hs as <- <-. by exists c.
  - destruct (astep a act) as [[a1 o1]|] eqn:E1; [|done].
    destruct (arun a1 acts) as [[a2 o2]|] eqn:E2; [|done]. injection Hs as <- <-.
    destruct (dispatch_simulates c a a1 act o1 Hr E1) as (c1 & Hd & Hr1).
    destruct (IH c1 a1 o2 Hr1 E2) as (c2 & Hrun & Hr2).
    exists c2. simpl. rewrite Hd. simpl. rewrite Hrun. simpl.
    by rewrite (dispatch_props _ _ _ _ Hd), lower_all_app.
Qed.

(** Mounting implements the initial abstract state: the [value] prop
    (or the empty text) and no stack. *)
Lemma mount_refines_init `{!TransliteratorLaws} (p : AvroInputProps) (l t w h : Z) :
  exists c0, mount p l t w h = Return c0 /\ props c0 = p /\
    refines c0 (mkCState (JS.or_else (p_value p) []) []).
Proof.
  pose proof (mount_wf p l t w h) as Hwf.
  unfold mount, componentDidMount, Caret.updateSuggestionPos in *. simpl in *.
  eexists. split; [reflexivity|]. split; [done|].
  eapply refines_intro; [by apply Hwf|done|done|by rewrite parse_empty|simpl; reflexivity| |apply suffix_nil].
  case_decide as E; simpl; [rewrite <- E|]; done.
Qed.

Lemma arun_app (a : cstate) (acts1 acts2 : list action) :
  arun a (acts1 ++ acts2) =
  match arun a acts1 with
  | Some (a1, o1) => match arun a1 acts2 with Some (a2, o2) => Some (a2, o1 ++ o2) | None => None end
  | None => None
  end.
Proof.
  revert a. induction acts1 as [|act acts1 IH]; intros a; simpl.
  - by destruct (arun a acts2) as [[]|].
  - destruct (astep a act) as [[a1 o1]|]; [|done]. rewrite IH.
    destruct (arun a1 acts1) as [[a2 o2]|]; [|done].
    destruct (arun a2 acts2) as [[a3 o3]|]; [|done]. by rewrite app_assoc.
Qed.

(** Typing word characters while the stack is the whole run before the
    caret keeps it so. *)
Lemma arun_typing (a : cstate) (w : list (Z * code_unit)) :
  c_stack a = current_run (c_text a) -> Forall (fun kc => word_action kc.1 kc.2 = true) w ->
  arun a (typing w) = Some (mkCState (c_text a ++ map snd w) (c_stack a ++ map snd w), []).
Proof.
  revert a. induction w as [|[code ch] w IH]; intros a Hs Hw; simpl.
  - by rewrite !app_nil_r; destruct a.
  - apply Forall_cons in Hw as [Hk Hw]. simpl in Hk. rewrite Hk.
    pose proof Hk as [_ Hch%negb_true_iff]%andb_prop.
    rewrite IH; simpl; [by rewrite <- !app_assoc, Hs| |done].
    simpl. by rewrite current_run_snoc, Hch.
Qed.

Lemma arun_erase (a : cstate) (n : nat) :
  arun a (repeat AErase n) =
  Some (mkCState (Nat.iter n (@removelast code_unit) (c_text a)) (Nat.iter n (@removelast code_unit) (c_stack a)), []).
Proof.
  revert a. induction n as [|n IH]; intros a; simpl; [by destruct a|].
  rewrite IH. simpl. by rewrite <- !Nat.iter_succ_r.
Qed.

Lemma iter_removelast_length (s : jsstr) : Nat.iter (length s) (@removelast code_unit) s = [].
Proof.
  induction s as [|x s IH] using rev_ind; [done|].
  rewrite length_app, Nat.add_comm. simpl length. rewrite Nat.iter_succ_r, removelast_last. done.
Qed.

End Simulation.

(** ** Theorems *)

Section Theorems.
Context `{Transliterator} `{!TransliteratorLaws} `{TextLayout}.

(** C5. Refinement of the spec's composition machine. For any props and
    any sequence of actions the machine accepts from the [value] prop
    with an empty stack, the mounted component runs the corresponding
    key presses without throwing, fires exactly the callbacks the
    machine's observations stand for ([onChange] with the committed
    text, [preventDefault] and [onKeyDown] for Enter), and ends
    implementing the machine's final state: the same text with the
    caret at its end, the same stack, slot 0 the stack's
    transliteration. *)
Theorem mount_refines (p : AvroInputProps) (l t w h : Z) (acts : list action) (a' : cstate) os :
  arun (mkCState (JS.or_else (p_value p) []) []) acts = Some (a', os) ->
  exists c0 c, mount p l t w h = Return c0 /\
    run c0 (map event_of acts) = Return (c, lower_all p os) /\ refines c a'.
Proof.
  intros Ha. destruct (mount_refines_init p l t w h) as (c0 & Hm & Hp & Hr0).
  destruct (run_simulates c0 _ a' acts os Hr0 Ha) as (c & Hrun & Hr).
  exists c0, c. by rewrite Hp in Hrun.
Qed.

(** C7. End to end (spec section 8, the composition example, for any
    word): mount an [AvroInput] with an empty value, type a non-empty
    word of word characters, press Space. The value is the word's
    transliteration followed by a space, the caret is after that space,
    the stack is empty, and the only callback is one [onChange] with the
    transliteration (when the prop is given). *)
Theorem mount_type_space (pr : AvroInputProps) (l t wd h : Z) (w : list (Z * code_unit)) :
  p_value pr = [] -> w <> [] -> Forall (fun kc => word_action kc.1 kc.2 = true) w ->
  exists c0 c, mount pr l t wd h = Return c0 /\
    run c0 (map (fun kc => type_key kc.1 kc.2) w ++ [space_key]) =
      Return (c, if p_onChange pr then [CallOnChange (parse (map snd w))] else []) /\
    value (state c) = parse (map snd w) ++ [cu_space] /\ stack (state c) = [] /\
    exists el, textInput c = Some el /\ selectionStart el = zlen (parse (map snd w)) + 1.
Proof.
  intros Hp Hne Hw.
  destruct (mount_refines_init pr l t wd h) as (c0 & Hm & Hpr & Hr0). rewrite Hp in Hr0.
  assert (Ha : arun (mkCState [] []) (typing w ++ [ACommit false]) =
               Some (mkCState (parse (map snd w) ++ [cu_space]) [], [ONotify (parse (map snd w))])).
  { rewrite arun_app, arun_typing by done. simpl.
    destruct (map snd w) eqn:E; [by destruct w|]. simpl. by rewrite Nat.sub_diag. }
  destruct (run_simulates c0 _ _ _ _ Hr0 Ha) as (c & Hrun & (_ & Hv & Hs & _ & (el & Hti & Hc) & _)).
  replace (map (fun kc => type_key kc.1 kc.2) w ++ [space_key])
    with (map event_of (typing w ++ [ACommit false])) by (unfold typing; by rewrite map_app, map_map).
  exists c0, c. split; [done|]. split.
  - rewrite Hrun, Hpr. unfold lower_all. simpl. by rewrite app_nil_r.
  - split; [done|]. split; [done|]. exists el. split; [done|]. rewrite Hc. simpl. zlen_lia.
Qed.

(** The spec's stack invariant (section 3) holds on the component:
    after mounting and any sequence of actions the machine accepts, the
    stack is a suffix of the separator-free run of the text before the
    caret, [selectedIndex] is 0, and slot 0 is [parse] of the stack. *)
Theorem session_stack_suffix (p : AvroInputProps) (l t w h : Z) (acts : list action) (a' : cstate) os :
  arun (mkCState (JS.or_else (p_value p) []) []) acts = Some (a', os) ->
  exists c0 c el, mount p l t w h = Return c0 /\
    run c0 (map event_of acts) = Return (c, lower_all p os) /\ textInput c = Some el /\
    stack (state c) `suffix_of` current_run (take (Z.to_nat (selectionStart el)) (value (state c))) /\
    selectedIndex (state c) = 0 /\ suggestionList (state c) = [parse (stack (state c))].
Proof.
  intros Ha. destruct (mount_refines_init p l t w h) as (c0 & Hm & Hp & Hr0).
  destruct (run_simulates c0 _ a' acts os Hr0 Ha) as (c & Hrun & (Hwf & Hv & Hs & Hl & (el & Hti & Hc) & Hok)).
  pose proof Hwf as [(_ & Hi & _) _]. rewrite Hp in Hrun.
  exists c0, c, el. rewrite Hc, Hv, zlen_to_nat, firstn_all, Hs, Hl. done.
Qed.

(** C18. Erasing ends the composition (spec section 8, the erase
    example, for any word): from a component implementing an abstract
    state, as many Backspaces as the stack is long run without a
    callback and leave an empty stack and slot 0, so the overlay is
    hidden. *)
Theorem erase_to_idle (c : component) (a : cstate) :
  refines c a ->
  exists c', run c (repeat (KeyPress backspace_event) (length (c_stack a))) = Return (c', []) /\
    stack (state c') = [] /\ overlay c' = Return None.
Proof.
  intros Hr.
  destruct (run_simulates c a _ (repeat AErase (length (c_stack a))) [] Hr (arun_erase a _))
    as (c' & Hrun & (_ & _ & Hs & Hl & _)).
  rewrite map_repeat in Hrun. exists c'. split; [done|].
  simpl in Hs, Hl. rewrite iter_removelast_length in Hs, Hl. split; [done|].
  unfold overlay, Suggestion.renderAvroSuggestion. by rewrite Hl, parse_empty.
Qed.

(** C32. Enter commits without inserting a separator, so the next word
    key takes the committed transliteration back into the stack: after
    composing [w] at the end of [p], Enter and a word character [ch],
    the value is [p ++ parse w ++ [ch]] and, when [parse w] has no
    separator, the stack is the run of [p] before the word, the whole
    committed transliteration and [ch], which slot 0 transliterates
    again. *)
Theorem enter_then_type_reabsorbs (c : component) (p w : jsstr) (code : Z) (ch : code_unit) :
  refines c (mkCState (p ++ w) w) -> w <> [] -> word_action code ch = true ->
  Forall (fun x => JS.is_ws x = false) (parse w) ->
  exists c', run c [KeyPress enter_event; type_key code ch] =
      Return (c', lower_all (props c) [ONotify (p ++ parse w); OSuppress; OForward]) /\
    value (state c') = p ++ parse w ++ [ch] /\
    stack (state c') = current_run p ++ parse w ++ [ch] /\
    suggestionList (state c') = [parse (current_run p ++ parse w ++ [ch])].
Proof.
  intros Hr Hne Hw Hpw.
  assert (Hp : take (length (p ++ w) - length w) (p ++ w) = p)
    by (rewrite length_app, Nat.add_sub; apply take_app_length).
  assert (Ha : arun (mkCState (p ++ w) w) [ACommit true; AType code ch] =
      Some (mkCState ((p ++ parse w) ++ [ch]) (current_run (p ++ parse w) ++ [ch]),
            [ONotify (p ++ parse w); OSuppress; OForward])).
  { destruct w as [|x w']; [done|]. cbn [arun astep c_stack c_text]. rewrite Hp. cbn. by rewrite Hw. }
  destruct (run_simulates c _ _ _ _ Hr Ha) as (c' & Hrun & (_ & Hv & Hs & Hl & _)).
  exists c'. cbn in Hv, Hs, Hl. rewrite current_run_app in Hs, Hl by done.
  rewrite <- !app_assoc in Hv, Hs, Hl. by split.
Qed.

End Theorems.

(** ** Concrete sessions and witnesses *)

Lemma ami_transliterator_laws : @TransliteratorLaws ami_transliterator.
Proof. reflexivity. Qed.

Section Witnesses.
#[local] Existing Instance ami_transliterator.
#[local] Existing Instance ami_transliterator_laws.
#[local] Existing Instance Caret.monospace_layout.

(** The spec's example run: a, m, i, Space gives "আমি " and one
    [onChange("আমি")]. *)
Example ami_session :
  run mounted_text (map event_of (typing ami_keys ++ [ACommit false])) =
    Return (committed_ami, [CallOnChange ami_bn]).
Proof. reflexivity. Qed.

(** The spec's erase example: three Backspaces after "ami" empty the
    stack and slot 0, which hides the overlay. *)
Example ami_erase_hides_overlay :
  match run typed_ami (repeat (KeyPress backspace_event) 3) with
  | Return (c, _) => value (state c) = [] /\ stack (state c) = [] /\ overlay c = Return None
  | Throw _ => False
  end.
Proof. vm_compute. repeat split; reflexivity. Qed.

Lemma typed_ami_refines : refines typed_ami (mkCState (js "ami") (js "ami")).
Proof.
  apply (refines_intro _ _ (text_element (js "ami") 3)); try reflexivity; [|by exists []].
  apply (wf_intro _ ami_bn (text_element (js "ami") 3)); try reflexivity.
  unfold el_ok, zlen. simpl. lia.
Qed.

Lemma committed_ami_refines : refines committed_ami (mkCState (ami_bn ++ [cu_space]) []).
Proof.
  apply (refines_intro _ _ (text_element (ami_bn ++ [cu_space]) 4)); try reflexivity; [|apply suffix_nil].
  apply (wf_intro _ [] (text_element (ami_bn ++ [cu_space]) 4)); try reflexivity.
  unfold el_ok, zlen. simpl. lia.
Qed.

Lemma mount_refines_witness :
  arun (mkCState (JS.or_else (p_value text_props) []) []) (typing ami_keys ++ [ACommit false]) =
    Some (mkCState (ami_bn ++ [cu_space]) [], [ONotify ami_bn]) /\
  exists c0 c, mount text_props 0 0 300 20 = Return c0 /\
    run c0 (map event_of (typing ami_keys ++ [ACommit false])) = Return (c, lower_all text_props [ONotify ami_bn]) /\
    refines c (mkCState (ami_bn ++ [cu_space]) []).
Proof. split; [reflexivity|]. apply mount_refines. reflexivity. Defined.

Lemma mount_type_space_witness :
  p_value text_props = [] /\ ami_keys <> [] /\ Forall (fun kc => word_action kc.1 kc.2 = true) ami_keys /\
  exists c0 c, mount text_props 0 0 300 20 = Return c0 /\
    run c0 (map (fun kc => type_key kc.1 kc.2) ami_keys ++ [space_key]) =
      Return (c, if p_onChange text_props then [CallOnChange (parse (map snd ami_keys))] else []) /\
    value (state c) = parse (map snd ami_keys) ++ [cu_space] /\ stack (state c) = [] /\
    exists el, textInput c = Some el /\ selectionStart el = zlen (parse (map snd ami_keys)) + 1.
Proof.
  split; [reflexivity|]. split; [discriminate|]. split; [repeat constructor|].
  apply mount_type_space; [reflexivity|discriminate|repeat constructor].
Defined.

Lemma session_stack_suffix_witness :
  arun (mkCState (JS.or_else (p_value text_props) []) []) (typing ami_keys ++ [AErase]) =
    Some (mkCState (js "am") (js "am"), []) /\
  exists c0 c el, mount text_props 0 0 300 20 = Return c0 /\
    run c0 (map event_of (typing ami_keys ++ [AErase])) = Return (c, lower_all text_props []) /\
    textInput c = Some el /\
    stack (state c) `suffix_of` current_run (take (Z.to_nat (selectionStart el)) (value (state c))) /\
    selectedIndex (state c) = 0 /\ suggestionList (state c) = [parse (stack (state c))].
Proof.
  split; [reflexivity|].
  apply (session_stack_suffix text_props 0 0 300 20 _ (mkCState (js "am") (js "am")) []). reflexivity.
Defined.

Lemma erase_to_idle_witness :
  refines typed_ami (mkCState (js "ami") (js "ami")) /\
  exists c', run typed_ami (repeat (KeyPress backspace_event) (length (js "ami"))) = Return (c', []) /\
    stack (state c') = [] /\ overlay c' = Return None.
Proof.
  split; [exact typed_ami_refines|].
  exact (erase_to_idle typed_ami (mkCState (js "ami") (js "ami")) typed_ami_refines).
Defined.

Lemma enter_then_type_reabsorbs_witness :
  refines typed_ami (mkCState ([] ++ js "ami") (js "ami")) /\ js "ami" <> [] /\ word_action 88 120 = true /\
  Forall (fun x => JS.is_ws x = false) (parse (js "ami")) /\
  exists c', run typed_ami [KeyPress enter_event; type_key 88 120] =
      Return (c', [CallOnChange ami_bn; PreventDefault]) /\
    value (state c') = ami_bn ++ [120%N] /\ stack (state c') = ami_bn ++ [120%N] /\
    suggestionList (state c') = [parse (ami_bn ++ [120%N])].
Proof.
  assert (Hws : Forall (fun x => JS.is_ws x = false) (parse (js "ami"))) by (repeat constructor).
  split; [exact typed_ami_refines|]. split; [discriminate|]. split; [reflexivity|]. split; [exact Hws|].
  exact (enter_then_type_reabsorbs typed_ami [] (js "ami") 88 120 typed_ami_refines
           ltac:(discriminate) eq_refl Hws).
Defined.

End Witnesses.

End Composition.
