(* ===== verification/Editing.v ===== *)
(** * The spec's editing machine, with the caret anywhere

    [Refinement] relates the component to the composition machine of
    spec section 4.1 with the caret at the end of the text. This file
    states the whole machine the spec describes: the caret anywhere in
    the text, the notifications of section 4.1 (word keys, Space and
    Enter with and without a stack, Backspace, other keys, focus loss)
    and the surface's own edits (a paste that replaces the value, any
    other value change such as an IME composition or autocorrect, and a
    caret move), each as the spec reads when the keystroke is handled
    before its value change (section 9). [sstep] is the labelled step
    relation: the fallback commit may leave the caret anywhere in the
    new text (the spec leaves it unspecified), so the machine is a
    relation and not a function. [erefines] relates a component to a
    state of the machine.

    The theorems: every session of events of a mounted component is a
    trace of the machine with the same callbacks (the component
    implements the spec; a [<textarea>], which has no blur handler,
    without focus losses); the spec's invariant of section 3 (the stack
    a suffix of the run before the caret, slot 0 the transliteration of
    the stack) is kept by every notification, but broken by a caret move
    or an edit, which the code does not observe. The consequences on the
    component, for every text and word: a move of the caret into the
    word, then Space, deletes text before the word and duplicates its
    end; a paste, then Space, splices the old word's transliteration
    into the pasted text; a Backspace at the start of the field, then
    Space, inserts the transliteration there and keeps the word; a dead
    key, then Enter, deletes text before the word. *)

From S2P Require Import Prelude JsString Interfaces Stack Suggestion Caret Controller Session Refinement.

Local Open Scope Z_scope.

Module Editing.
Import Controller Session Composition.

(** ** The machine *)

(** The surface's text, the caret offset, the stack, and slot 0 of the
    suggestions (the list has one slot and the selected index is 0). *)
Record estate := mkEState { e_text : jsstr; e_caret : nat; e_stack : jsstr; e_slot : jsstr }.

(** A word key typing [ch]; Enter ([true]) or Space; Backspace; a key
    of no class; focus loss; a paste of a whole new value; any other
    edit of the surface, to a value and a caret (an IME composition,
    autocorrect, a cut, a drop); a caret move (a click, Left, Right,
    Home, End). *)
Inductive action :=
| EType (code : Z) (ch : code_unit)
| ECommit (enter : bool)
| EErase
| EOther (code : Z)
| EBlur
| EPaste (v : jsstr)
| EInput (v : jsstr) (k : nat)
| EMove (n : nat).

(** The keys the classification of section 4.1 leaves to the surface. *)
Definition other_key (code : Z) : bool :=
  negb (is_word_key code) && negb (is_commit_key code) && negb (code =? 8).

(** [t] inserted at offset [k] of [v]. *)
Definition insert_at (k : nat) (t v : jsstr) : jsstr := take k v ++ t ++ drop k v.

(** After a commit of the text [v] with the caret at [k]: Enter stops
    there; Space is then inserted at the caret by the surface, and its
    value change sets slot 0 to the transliteration of the empty stack. *)
Definition finish (enter : bool) (v : jsstr) (k : nat) : estate :=
  if enter then mkEState v k [] [] else mkEState (insert_at k [cu_space] v) (S k) [] [].

Definition commit_obs (enter : bool) (v : jsstr) : list obs :=
  ONotify v :: (if enter then [OSuppress; OForward] else []).

Section Spec.
Context `{Transliterator}.

(** A word key: the stack becomes the run before the caret and the
    typed character, the surface inserts it, the value change puts the
    stack's transliteration in slot 0. *)
Definition typed (s : estate) (ch : code_unit) : estate :=
  let st := current_run (take (e_caret s) (e_text s)) ++ [ch] in
  mkEState (insert_at (e_caret s) [ch] (e_text s)) (S (e_caret s)) st (parse st).

(** A commit with a stack: [suggestions[selectedIndex]] in place of
    the stack's length before the caret, the caret after it. *)
Definition splice_prefix (s : estate) : jsstr := take (e_caret s - length (e_stack s)) (e_text s).

Definition spliced (s : estate) : jsstr :=
  splice_prefix s ++ e_slot s ++ drop (e_caret s) (e_text s).

(** Backspace: the stack loses its last character; the surface deletes
    the character before the caret if there is one, and only then a
    value change recomputes slot 0. *)
Definition erased (s : estate) : estate :=
  let st := removelast (e_stack s) in
  match e_caret s with
  | O => mkEState (e_text s) O st (e_slot s)
  | S k => mkEState (take k (e_text s) ++ drop (S k) (e_text s)) k st (parse st)
  end.

Inductive sstep : estate -> action -> estate -> list obs -> Prop :=
| sstep_type s code ch :
    word_action code ch = true -> sstep s (EType code ch) (typed s ch) []
| sstep_commit s enter :
    e_stack s <> [] ->
    sstep s (ECommit enter) (finish enter (spliced s) (length (splice_prefix s) + length (e_slot s)))
      (commit_obs enter (spliced s))
| sstep_commit_fallback s enter k :
    e_stack s = [] -> (k <= length (parse (e_text s)))%nat ->
    sstep s (ECommit enter) (finish enter (parse (e_text s)) k) (commit_obs enter (parse (e_text s)))
| sstep_erase s : sstep s EErase (erased s) []
| sstep_other s code : other_key code = true -> sstep s (EOther code) s []
| sstep_blur s : sstep s EBlur (mkEState (e_text s) (e_caret s) [] []) []
| sstep_paste s v : sstep s (EPaste v) (mkEState v (length v) (e_stack s) (parse (e_stack s))) []
| sstep_input s v k :
    sstep s (EInput v k) (mkEState v (Nat.min k (length v)) (e_stack s) (parse (e_stack s))) []
| sstep_move s n :
    sstep s (EMove n) (mkEState (e_text s) (Nat.min n (length (e_text s))) (e_stack s) (e_slot s)) [].

(** The traces of the machine. *)
Inductive ssteps : estate -> list action -> estate -> list obs -> Prop :=
| ssteps_nil s : ssteps s [] s []
| ssteps_cons s act s1 o1 acts s2 o2 :
    sstep s act s1 o1 -> ssteps s1 acts s2 o2 -> ssteps s (act :: acts) s2 (o1 ++ o2).

End Spec.

#[export] Hint Constructors sstep ssteps : avro.

(** The spec's invariant (section 3): the stack is a suffix of the
    separator-free run before the caret, slot 0 is the transliteration
    of the stack, the caret is inside the text. *)
Definition spec_inv `{Transliterator} (s : estate) : Prop :=
  e_stack s `suffix_of` current_run (take (e_caret s) (e_text s)) /\
  e_slot s = parse (e_stack s) /\ (e_caret s <= length (e_text s))%nat.

(** The notifications of section 4.1, as opposed to the surface's own
    edits. *)
Definition notification (act : action) : bool :=
  match act with EPaste _ | EInput _ _ | EMove _ => false | _ => true end.

(** ** The events of the actions and the relation with the component *)

Definition commit_event (enter : bool) : keyEvent := if enter then enter_event else space_event.

Definition event_of (act : action) : event :=
  match act with
  | EType code ch => type_key code ch
  | ECommit enter => KeyPress (commit_event enter)
  | EErase => KeyPress backspace_event
  | EOther code => KeyPress (mkKeyEvent code [])
  | EBlur => BlurEvent
  | EPaste v => Paste v
  | EInput v k => Input v (Z.of_nat k)
  | EMove n => MoveCaret (Z.of_nat n)
  end.

(** The component implements the state [s]: the invariant [wf], the
    same text, stack and slot 0, the caret at [e_caret s], and a stack
    without separators (which every step keeps). *)
Definition erefines (c : component) (s : estate) : Prop :=
  wf c /\ value (state c) = e_text s /\ stack (state c) = e_stack s /\
  suggestionList (state c) = [e_slot s] /\
  (exists el, textInput c = Some el /\ selectionStart el = Z.of_nat (e_caret s)) /\
  Forall (fun x => JS.is_ws x = false) (e_stack s).

(** The machine's start: the [value] prop with the caret at its end. *)
Definition e_init (p : AvroInputProps) : estate :=
  let t := JS.or_else (p_value p) [] in mkEState t (length t) [] [].

(** The actions with a transition: a word key types a character that is
    not a separator, and an [EOther] key is of no class. *)
Definition valid_action (act : action) : bool :=
  match act with
  | EType code ch => word_action code ch
  | EOther code => other_key code
  | _ => true
  end.

(** The commit keys and the Enter key among the actions, and the
    callbacks to the application among the effects. *)
Definition is_commit (act : action) : bool := match act with ECommit _ => true | _ => false end.
Definition is_enter (act : action) : bool := match act with ECommit enter => enter | _ => false end.
Definition is_onChange (e : effect) : bool := match e with CallOnChange _ => true | _ => false end.
Definition is_onKeyDown (e : effect) : bool := match e with CallOnKeyDown _ => true | _ => false end.

Definition is_notify (o : obs) : bool := match o with ONotify _ => true | _ => false end.
Definition is_forward (o : obs) : bool := match o with OForward => true | _ => false end.

(** ** Lemmas: texts and elements *)

Lemma getCurrentStack_at (t : jsstr) (k : nat) :
  Stack.getCurrentStack t (Z.of_nat k) = Some (current_run (take k t)).
Proof. apply Stack.getCurrentStack_of_run; [lia|]. rewrite Nat2Z.id. apply current_run_trailing. Qed.

Lemma insert_text_at (el : element) (t : jsstr) (k : nat) :
  t <> [] -> selectionStart el = Z.of_nat k ->
  insert_text el t = Some (set_caret (set_value el (insert_at k t (el_value el))) (Z.of_nat k + zlen t)).
Proof. intros Ht Hc. unfold insert_text, insert_at. rewrite Hc, Nat2Z.id. by destruct t. Qed.

Lemma delete_backward_at (el : element) (k : nat) :
  selectionStart el = Z.of_nat (S k) ->
  delete_backward el =
  Some (set_caret (set_value el (take k (el_value el) ++ drop (S k) (el_value el))) (Z.of_nat k)).
Proof.
  intros Hc. unfold delete_backward. rewrite Hc, Nat2Z.id, (proj2 (Z.ltb_lt _ _)) by lia.
  replace (Z.of_nat (S k) - 1) with (Z.of_nat k) by lia. by rewrite Nat.sub_succ, Nat.sub_0_r.
Qed.

Lemma delete_backward_start (el : element) : selectionStart el = 0 -> delete_backward el = None.
Proof. intros Hc. unfold delete_backward. by rewrite Hc. Qed.

Lemma insert_at_take (k : nat) (ch : code_unit) (t : jsstr) :
  (k <= length t)%nat -> take (S k) (insert_at k [ch] t) = take k t ++ [ch].
Proof.
  intros Hk. unfold insert_at. rewrite take_app, length_take, Nat.min_l, take_take, Nat.min_r by lia.
  by replace (S k - k)%nat with 1%nat by lia.
Qed.

Lemma removelast_take (k : nat) (t : jsstr) :
  (S k <= length t)%nat -> removelast (take (S k) t) = take k t.
Proof.
  intros Hk. destruct (lookup_lt_is_Some_2 t k) as [x Hx]; [lia|].
  by rewrite (take_S_r _ _ _ Hx), removelast_last.
Qed.

Lemma Forall_removelast {A} (P : A -> Prop) (l : list A) : Forall P l -> Forall P (removelast l).
Proof.
  destruct l as [|x l _] using rev_ind; [done|]. rewrite removelast_last.
  by intros [? _]%Forall_app.
Qed.

Lemma current_run_ws_free (t : jsstr) : Forall (fun x => JS.is_ws x = false) (current_run t).
Proof. apply Stack.trailing_run_Forall with t. apply current_run_trailing. Qed.

(** The splice of a commit on the text [p ++ w] with the caret [d]
    code units before its end: with a stack [st], the text before the
    splice is [p] less [|st| - (|w| - d)] code units, and the text after
    the caret is the last [d] code units of [w]. *)
Lemma splice_prefix_app (p w st x : jsstr) (d : nat) :
  (d <= length w)%nat -> (length w - d <= length st)%nat ->
  splice_prefix (mkEState (p ++ w) (length (p ++ w) - d) st x) =
    take (length p - (length st - (length w - d))) p.
Proof.
  intros Hd Hs. unfold splice_prefix. cbn [e_text e_caret e_stack]. rewrite length_app.
  replace (length p + length w - d - length st)%nat with (length p - (length st - (length w - d)))%nat by lia.
  apply take_app_le. lia.
Qed.

Lemma drop_caret_app (p w : jsstr) (d : nat) :
  (d <= length w)%nat -> drop (length (p ++ w) - d) (p ++ w) = drop (length w - d) w.
Proof. intros Hd. rewrite length_app, drop_app_ge by lia. f_equal. lia. Qed.

(** The text after a commit with a stack: the suggestion between the
    text before the splice and the text after the caret, and for Space
    a space after the suggestion. *)
Lemma finish_text (enter : bool) (s : estate) (u r : jsstr) :
  splice_prefix s = u -> drop (e_caret s) (e_text s) = r ->
  e_text (finish enter (spliced s) (length (splice_prefix s) + length (e_slot s))) =
    u ++ e_slot s ++ (if enter then [] else [cu_space]) ++ r.
Proof.
  intros <- <-. unfold finish, spliced. destruct enter; [done|]. cbn [e_text]. unfold insert_at.
  rewrite <- length_app, (app_assoc (splice_prefix s)), take_app_length, drop_app_length.
  by rewrite <- app_assoc.
Qed.

(** The commit branch's splice at any caret: the stack's length is
    taken off the text before the caret (JavaScript's [slice] stops at
    the start), the selected suggestion put there, the text after the
    caret kept. *)
Lemma commitText_at `{Transliterator} (s : AvroInputState) (x : jsstr) (k : nat) :
  stack s <> [] -> stack s <> [cu_space] -> suggestionList s = [x] -> selectedIndex s = 0 ->
  (k <= length (value s))%nat ->
  commitText s (Z.of_nat k) =
    Return (take (k - length (stack s)) (value s) ++ x ++ drop k (value s),
            Z.of_nat (k - length (stack s)) + zlen x).
Proof.
  intros Hne Hsp Hl Hi Hk. unfold commitText. cbv zeta.
  assert (Hz : 0 < zlen (stack s)) by (destruct (stack s); [done|zlen_lia]).
  rewrite (proj2 (Z.ltb_lt _ _) Hz), bool_decide_false by done. simpl.
  rewrite JS.substring_0, JS.slice_0_neg, Nat2Z.id, zlen_to_nat, length_take, Nat.min_l,
    take_take, Nat.min_l by lia.
  rewrite Hl, Hi. simpl. rewrite JS.substr_rest, Nat2Z.id by lia.
  do 3 f_equal. unfold zlen. rewrite length_take. lia.
Qed.

Lemma commitEffects_obs (p : AvroInputProps) (enter : bool) (v : jsstr) :
  commitEffects p (commit_event enter) v = lower_all p (commit_obs enter v).
Proof.
  unfold commitEffects, lower_all. destruct enter; simpl;
    destruct (p_onChange p), (p_onKeyDown p); reflexivity.
Qed.

(** ** Lemmas: the simulation, one action at a time *)

Section Simulation.
Context `{Transliterator} `{!TransliteratorLaws} `{TextLayout}.

Lemma erefines_intro (c : component) (s : estate) (el : element) :
  wf c -> value (state c) = e_text s -> stack (state c) = e_stack s ->
  suggestionList (state c) = [e_slot s] -> textInput c = Some el ->
  selectionStart el = Z.of_nat (e_caret s) -> Forall (fun x => JS.is_ws x = false) (e_stack s) ->
  erefines c s.
Proof. unfold erefines. eauto 10. Qed.

Lemma erefines_el (c : component) (s : estate) (el : element) :
  erefines c s -> textInput c = Some el -> el_value el = e_text s.
Proof. intros ((_ & Hv) & Hv' & _) Hti. rewrite <- Hv'. by apply Hv. Qed.

Lemma erefines_caret (c : component) (s : estate) :
  erefines c s -> (e_caret s <= length (e_text s))%nat.
Proof.
  intros Hr. pose proof Hr as ((( _ & _ & el & Hti & _ & Hok) & _) & _ & _ & _ & (el' & Hti' & Hc) & _).
  rewrite Hti in Hti'. injection Hti' as <-. rewrite <- (erefines_el c s el Hr Hti).
  unfold el_ok, zlen in Hok. lia.
Qed.

(** Refining the end-caret machine refines this one. *)
Lemma refines_erefines (c : component) (a : cstate) :
  refines c a -> erefines c (mkEState (c_text a) (length (c_text a)) (c_stack a) (parse (c_stack a))).
Proof.
  intros (Hwf & Hv & Hs & Hl & (el & Hti & Hc) & Hok).
  apply (erefines_intro _ _ el); try done. by apply a_ok_ws_free.
Qed.

Lemma type_sim (c : component) (s : estate) (code : Z) (ch : code_unit) :
  erefines c s -> word_action code ch = true ->
  exists c', dispatch c (type_key code ch) = Return (c', []) /\ erefines c' (typed s ch).
Proof.
  intros Hr Hw. pose proof Hr as (Hwf & Hv & Hs & Hl & (el & Hti & Hc) & Hws).
  pose proof (erefines_el c s el Hr Hti) as Hel.
  pose proof Hw as [Hkey Hch%negb_true_iff]%andb_prop.
  pose proof (handleKeyPress_word_eq c (mkKeyEvent code [ch]) el Hti Hkey) as Hhk.
  rewrite Hc, Hv, getCurrentStack_at in Hhk. cbn [Stack.to_js_string key] in Hhk.
  set (el' := set_caret (set_value el (insert_at (e_caret s) [ch] (el_value el))) (Z.of_nat (e_caret s) + zlen [ch])).
  set (c1 := flush c _ None) in Hhk.
  destruct (fire_change_result c1 el') as (pos & Hf).
  assert (Hd : dispatch c (type_key code ch) = (c2 <- fire_change c1 el' ;; Return (c2, []))%js).
  { apply (dispatch_keypress_edit _ _ _ _ el el' Hhk).
    - unfold c1, flush. cbn [textInput]. rewrite Hti. apply rerender_same. simpl. by rewrite Hel.
    - by intros ?%elem_of_nil.
    - rewrite word_key_default by done. cbn [is_char]. by apply insert_text_at. }
  rewrite Hf in Hd. cbn [bind_outcome] in Hd. eexists. split; [exact Hd|].
  apply (erefines_intro _ _ el'); [exact (dispatch_wf_eq _ _ _ _ Hwf Hd)| | | |by destruct pos| |];
    destruct pos; simpl; rewrite ?Hl, ?Hel; try done;
    solve [zlen_lia | apply Forall_app; split; [apply current_run_ws_free|by constructor]].
Qed.

Lemma erase_sim (c : component) (s : estate) :
  erefines c s ->
  exists c', dispatch c (KeyPress backspace_event) = Return (c', []) /\ erefines c' (erased s).
Proof.
  intros Hr. pose proof Hr as (Hwf & Hv & Hs & Hl & (el & Hti & Hc) & Hws).
  pose proof (erefines_el c s el Hr Hti) as Hel.
  pose proof (handleKeyPress_backspace_eq c backspace_event el Hti eq_refl) as Hhk.
  rewrite slice_drop_last in Hhk.
  set (po := if bool_decide _ then _ else _) in Hhk.
  set (c1 := flush c _ None) in Hhk.
  assert (Hti1 : textInput c1 = Some el).
  { unfold c1, flush. cbn [textInput]. rewrite Hti. apply rerender_same. destruct po; simpl; by rewrite Hel, Hv. }
  pose proof (Forall_removelast _ _ Hws) as Hws'.
  unfold erased. destruct (e_caret s) as [|k] eqn:Ek.
  - assert (Hd : dispatch c (KeyPress backspace_event) = Return (c1, [])).
    { apply (dispatch_keypress_noedit _ _ _ _ el Hhk Hti1). right.
      unfold default_action. simpl. by apply delete_backward_start. }
    eexists. split; [exact Hd|].
    apply (erefines_intro _ _ el); [exact (dispatch_wf_eq _ _ _ _ Hwf Hd)| | | |exact Hti1|done|exact Hws'];
      destruct po; simpl; rewrite ?Hv, ?Hs, ?Hl; done.
  - set (el' := set_caret (set_value el (take k (el_value el) ++ drop (S k) (el_value el))) (Z.of_nat k)).
    destruct (fire_change_result c1 el') as (pos & Hf).
    assert (Hd : dispatch c (KeyPress backspace_event) = (c2 <- fire_change c1 el' ;; Return (c2, []))%js).
    { apply (dispatch_keypress_edit _ _ _ _ el el' Hhk Hti1); [by intros ?%elem_of_nil|].
      by apply delete_backward_at. }
    rewrite Hf in Hd. cbn [bind_outcome] in Hd. eexists. split; [exact Hd|].
    apply (erefines_intro _ _ el'); [exact (dispatch_wf_eq _ _ _ _ Hwf Hd)| | | |by destruct pos|done|exact Hws'];
      destruct po, pos; simpl; rewrite ?Hv, ?Hs, ?Hl, ?Hel; done.
Qed.

(** Space or Enter once [commitText] has returned the text [fv] and the
    offset [en]: the re-render puts the caret at [en], clamped to the
    new text; Enter is prevented, Space is inserted there and followed
    by [onChange]. *)
Lemma commit_sim (c : component) (s : estate) (enter : bool) (el : element) (fv : jsstr) (en : Z) :
  erefines c s -> textInput c = Some el -> commitText (state c) (selectionStart el) = Return (fv, en) ->
  0 <= en ->
  exists c', dispatch c (KeyPress (commit_event enter)) = Return (c', lower_all (props c) (commit_obs enter fv)) /\
    erefines c' (finish enter fv (Z.to_nat (Z.min en (zlen fv)))).
Proof.
  intros Hr Hti Hct Hen. pose proof Hr as (Hwf & Hv & Hs & Hl & _ & Hws).
  assert (Hck : is_commit_key (keyCode (commit_event enter)) = true) by (by destruct enter).
  pose proof (handleKeyPress_commit_eq c _ el _ _ Hti Hck Hct) as Hhk.
  rewrite commitEffects_obs in Hhk.
  set (c1 := flush c _ (Some _)) in Hhk.
  set (s1 := with_position _ _) in c1.
  destruct (rerender_callback el s1 en) as (el1 & Hre & Hval & Hcar). simpl in Hval, Hcar.
  assert (Hti1 : textInput c1 = Some el1) by (unfold c1, flush; cbn [textInput]; by rewrite Hti).
  pose proof (zlen_nonneg fv).
  destruct enter.
  - assert (Hd : dispatch c (KeyPress (commit_event true)) = Return (c1, lower_all (props c) (commit_obs true fv))).
    { apply (dispatch_keypress_noedit _ _ _ _ el1 Hhk Hti1). left.
      rewrite <- commitEffects_obs. by apply commitEffects_enter. }
    eexists. split; [exact Hd|].
    apply (erefines_intro _ _ el1); [exact (dispatch_wf_eq _ _ _ _ Hwf Hd)| | | |done| |by constructor];
      simpl; rewrite ?Hl; try done. rewrite Hcar. lia.
  - set (k := Z.min en (zlen fv)) in Hcar.
    set (el' := set_caret (set_value el1 (insert_at (Z.to_nat k) [cu_space] (el_value el1)))
                  (Z.of_nat (Z.to_nat k) + zlen [cu_space])).
    destruct (fire_change_result c1 el') as (pos & Hf).
    assert (Hd : dispatch c (KeyPress (commit_event false)) =
      (c2 <- fire_change c1 el' ;; Return (c2, lower_all (props c) (commit_obs false fv)))%js).
    { apply (dispatch_keypress_edit _ _ _ _ el1 el' Hhk Hti1).
      - rewrite <- commitEffects_obs, commitEffects_space by done. intros Hin%list_elem_of_In.
        destruct (p_onChange (props c)); simpl in Hin; intuition discriminate.
      - transitivity (insert_text el1 [cu_space]); [reflexivity|].
        apply insert_text_at; [done|]. rewrite Hcar. lia. }
    rewrite Hf in Hd. cbn [bind_outcome] in Hd. eexists. split; [exact Hd|].
    apply (erefines_intro _ _ el'); [exact (dispatch_wf_eq _ _ _ _ Hwf Hd)| | | |by destruct pos| |by constructor];
      destruct pos; simpl; rewrite ?Hval, ?Hl, ?parse_empty; try done; zlen_lia.
Qed.

(** The commit branch with a stack at any caret is the machine's splice. *)
Lemma commitText_spliced (c : component) (s : estate) :
  erefines c s -> e_stack s <> [] ->
  commitText (state c) (Z.of_nat (e_caret s)) =
    Return (spliced s, Z.of_nat (length (splice_prefix s)) + zlen (e_slot s)).
Proof.
  intros Hr Hne. pose proof Hr as ((( _ & Hi & _) & _) & Hv & Hs & Hl & _ & Hws).
  pose proof (erefines_caret c s Hr) as Hk.
  rewrite (commitText_at _ (e_slot s)); rewrite ?Hs, ?Hv; try done.
  - unfold spliced, splice_prefix. do 3 f_equal. rewrite length_take. lia.
  - intros Hsp. rewrite Hsp in Hws. by inversion Hws.
Qed.

(** A commit with a stack at any caret: the machine's splice, the
    callbacks of its observations. *)
Lemma commit_stack_sim (c : component) (s : estate) (enter : bool) :
  erefines c s -> e_stack s <> [] ->
  exists c', dispatch c (KeyPress (commit_event enter)) = Return (c', lower_all (props c) (commit_obs enter (spliced s))) /\
    erefines c' (finish enter (spliced s) (length (splice_prefix s) + length (e_slot s))).
Proof.
  intros Hr E. pose proof Hr as (_ & _ & _ & _ & (el & Hti & Hc) & _).
  pose proof (commitText_spliced c s Hr E) as Hct. rewrite <- Hc in Hct.
  destruct (commit_sim c s enter el _ _ Hr Hti Hct) as (c' & Hd & Hr'); [zlen_lia|].
  replace (Z.to_nat _) with (length (splice_prefix s) + length (e_slot s))%nat in Hr'
    by (unfold spliced; zlen_lia).
  eauto.
Qed.

Lemma commit_step_sim (c : component) (s : estate) (enter : bool) :
  erefines c s ->
  exists c' s' os, dispatch c (KeyPress (commit_event enter)) = Return (c', lower_all (props c) os) /\
    sstep s (ECommit enter) s' os /\ erefines c' s'.
Proof.
  intros Hr. pose proof Hr as (Hwf & Hv & Hs & Hl & (el & Hti & Hc) & Hws).
  pose proof (erefines_caret c s Hr) as Hk.
  destruct (decide (e_stack s = [])) as [E|E].
  - assert (Hct : commitText (state c) (selectionStart el) = Return (parse (e_text s), Z.of_nat (e_caret s))).
    { rewrite commitText_no_stack by congruence. by rewrite Hv, Hc. }
    destruct (commit_sim c s enter el _ _ Hr Hti Hct) as (c' & Hd & Hr'); [lia|].
    do 3 eexists. split; [exact Hd|]. split; [|exact Hr'].
    apply sstep_commit_fallback; [done|]. zlen_lia.
  - destruct (commit_stack_sim c s enter Hr E) as (c' & Hd & Hr').
    do 3 eexists. split; [exact Hd|]. split; [by apply sstep_commit|exact Hr'].
Qed.

Lemma blur_sim (c : component) (s : estate) :
  erefines c s -> p_type (props c) = INPUT ->
  exists c', dispatch c BlurEvent = Return (c', []) /\ erefines c' (mkEState (e_text s) (e_caret s) [] []).
Proof.
  intros Hr Ht. pose proof Hr as (Hwf & Hv & Hs & Hl & (el & Hti & Hc) & Hws).
  pose proof (erefines_el c s el Hr Hti) as Hel.
  assert (Hd : dispatch c BlurEvent = Return (handleBlurChange c, [])) by (simpl; by rewrite Ht).
  eexists. split; [exact Hd|].
  apply (erefines_intro _ _ el); [exact (dispatch_wf_eq _ _ _ _ Hwf Hd)| | | | |done|by constructor];
    unfold handleBlurChange, flush; cbn [state textInput value stack suggestionList with_selectedIndex
      with_suggestionList with_stack]; rewrite ?Hl; try done.
  rewrite Hti. apply rerender_same. simpl. by rewrite Hel.
Qed.

(** An edit of the surface: [onChange] stores the new value and the
    transliteration of the stack, which the edit leaves as it was. *)
Lemma edit_sim (c : component) (s : estate) (el : element) (v : jsstr) (k : nat) :
  erefines c s -> textInput c = Some el -> (k <= length v)%nat ->
  exists c', fire_change c (set_caret (set_value el v) (Z.of_nat k)) = Return c' /\
    erefines c' (mkEState v k (e_stack s) (parse (e_stack s))).
Proof.
  intros Hr Hti Hk. pose proof Hr as ((Hok & _) & Hv & Hs & Hl & _ & Hws).
  destruct (edit_wf c el v (Z.of_nat k) Hok Hti) as (c' & Hf & Hwf'); [zlen_lia|].
  destruct (fire_change_result c (set_caret (set_value el v) (Z.of_nat k))) as (pos & Hf').
  rewrite Hf' in Hf. injection Hf as <-. eexists. split; [exact Hf'|].
  apply (erefines_intro _ _ (set_caret (set_value el v) (Z.of_nat k))); [exact Hwf'| | | |by destruct pos|done|done];
    destruct pos; simpl; rewrite ?Hl, ?Hs; done.
Qed.

Lemma paste_sim (c : component) (s : estate) (v : jsstr) :
  erefines c s ->
  exists c', dispatch c (Paste v) = Return (c', []) /\
    erefines c' (mkEState v (length v) (e_stack s) (parse (e_stack s))).
Proof.
  intros Hr. pose proof Hr as (_ & _ & _ & _ & (el & Hti & _) & _).
  destruct (edit_sim c s el v (length v) Hr Hti) as (c' & Hf & Hr'); [done|].
  exists c'. split; [|done]. simpl. rewrite Hti. simpl. change (zlen v) with (Z.of_nat (length v)).
  by rewrite Hf.
Qed.

Lemma input_sim (c : component) (s : estate) (v : jsstr) (k : nat) :
  erefines c s ->
  exists c', dispatch c (Input v (Z.of_nat k)) = Return (c', []) /\
    erefines c' (mkEState v (Nat.min k (length v)) (e_stack s) (parse (e_stack s))).
Proof.
  intros Hr. pose proof Hr as (_ & _ & _ & _ & (el & Hti & _) & _).
  destruct (edit_sim c s el v (Nat.min k (length v)) Hr Hti) as (c' & Hf & Hr'); [lia|].
  exists c'. split; [|done]. simpl. rewrite Hti. simpl.
  replace (Z.max 0 (Z.min (Z.of_nat k) (zlen v))) with (Z.of_nat (Nat.min k (length v))) by zlen_lia.
  by rewrite Hf.
Qed.

Lemma move_sim (c : component) (s : estate) (n : nat) :
  erefines c s ->
  exists c', dispatch c (MoveCaret (Z.of_nat n)) = Return (c', []) /\
    erefines c' (mkEState (e_text s) (Nat.min n (length (e_text s))) (e_stack s) (e_slot s)).
Proof.
  intros Hr. pose proof Hr as (Hwf & Hv & Hs & Hl & (el & Hti & Hc) & Hws).
  pose proof (erefines_el c s el Hr Hti) as Hel.
  set (el' := set_caret el (Z.max 0 (Z.min (Z.of_nat n) (zlen (el_value el))))).
  assert (Hd : dispatch c (MoveCaret (Z.of_nat n)) = Return (with_element c el', [])) by (simpl; by rewrite Hti).
  eexists. split; [exact Hd|].
  apply (erefines_intro _ _ el'); [exact (dispatch_wf_eq _ _ _ _ Hwf Hd)|done|done|done|done| |done].
  simpl. rewrite Hel. zlen_lia.
Qed.

Lemma other_sim (c : component) (s : estate) (code : Z) :
  erefines c s -> other_key code = true -> dispatch c (KeyPress (mkKeyEvent code [])) = Return (c, []).
Proof.
  intros Hr Ho. pose proof Hr as (Hwf & Hv & Hs & Hl & (el & Hti & Hc) & Hws).
  apply andb_prop in Ho as [[Hw%negb_true_iff Hcm%negb_true_iff]%andb_prop H8%negb_true_iff].
  assert (Hhk : handleKeyPress c (mkKeyEvent code []) = Return (c, [])).
  { unfold handleKeyPress. simpl. rewrite Hw, Hcm, Hl, H8. reflexivity. }
  apply (dispatch_keypress_noedit _ _ _ _ el Hhk Hti). right.
  unfold default_action. simpl. rewrite H8, Hw.
  unfold is_commit_key in Hcm. apply orb_false_iff in Hcm as [-> ->]. reflexivity.
Qed.

(** A word key whose value is not a character: the stack becomes the
    run before the caret followed by the key's name; the text, the caret
    and slot 0 stay. *)
Lemma named_sim (c : component) (s : estate) (code : Z) (k : jsstr) :
  erefines c s -> is_word_key code = true -> is_char k = false ->
  Forall (fun x => JS.is_ws x = false) k ->
  exists c', dispatch c (KeyPress (mkKeyEvent code k)) = Return (c', []) /\
    erefines c' (mkEState (e_text s) (e_caret s) (current_run (take (e_caret s) (e_text s)) ++ k) (e_slot s)).
Proof.
  intros Hr Hk Hc Hws. pose proof Hr as (Hwf & Hv & Hs & Hl & (el & Hti & Hcar) & _).
  pose proof (erefines_el c s el Hr Hti) as Hel.
  pose proof (handleKeyPress_word_eq c (mkKeyEvent code k) el Hti Hk) as Hhk.
  rewrite Hcar, Hv, getCurrentStack_at in Hhk. cbn [Stack.to_js_string key] in Hhk.
  set (c1 := flush c _ None) in Hhk.
  assert (Hti1 : textInput c1 = Some el).
  { unfold c1, flush. cbn [textInput]. rewrite Hti. apply rerender_same. simpl. by rewrite Hel. }
  pose proof (dispatch_keypress_noedit _ _ _ _ el Hhk Hti1 (or_intror (named_key_noedit el code k Hk Hc))) as Hd.
  eexists. split; [exact Hd|].
  apply (erefines_intro _ _ el); [exact (dispatch_wf_eq _ _ _ _ Hwf Hd)| | | |done|done|];
    simpl; rewrite ?Hv, ?Hl; try done.
  apply Forall_app. split; [apply current_run_ws_free|done].
Qed.

(** The simulation for one action: the event of every valid action is
    handled without throwing, with the callbacks of a step of the
    machine, to a component implementing the step's target. *)
Lemma dispatch_sstep (c : component) (s : estate) (act : action) :
  erefines c s -> valid_action act = true -> (act = EBlur -> p_type (props c) = INPUT) ->
  exists c' s' os, dispatch c (event_of act) = Return (c', lower_all (props c) os) /\
    sstep s act s' os /\ erefines c' s'.
Proof.
  intros Hr Hv Hb. destruct act as [code ch|enter| |code| |v|v k|n]; simpl in Hv; cbn [event_of].
  - destruct (type_sim c s code ch Hr Hv) as (c' & Hd & Hr'). exists c', (typed s ch), []. eauto with avro.
  - by apply commit_step_sim.
  - destruct (erase_sim c s Hr) as (c' & Hd & Hr'). exists c', (erased s), []. eauto with avro.
  - exists c, s, []. rewrite (other_sim c s code Hr Hv). eauto with avro.
  - destruct (blur_sim c s Hr (Hb eq_refl)) as (c' & Hd & Hr'). eexists _, _, []. eauto with avro.
  - destruct (paste_sim c s v Hr) as (c' & Hd & Hr'). eexists _, _, []. eauto with avro.
  - destruct (input_sim c s v k Hr) as (c' & Hd & Hr'). eexists _, _, []. eauto with avro.
  - destruct (move_sim c s n Hr) as (c' & Hd & Hr'). eexists _, _, []. eauto with avro.
Qed.

(** The simulation for a sequence of actions. *)
Lemma run_ssteps (c : component) (s : estate) (acts : list action) :
  erefines c s -> Forall (fun act => valid_action act = true) acts ->
  (p_type (props c) = TEXTAREA -> EBlur ∉ acts) ->
  exists c' s' os, run c (map event_of acts) = Return (c', lower_all (props c) os) /\
    ssteps s acts s' os /\ erefines c' s'.
Proof.
  revert c s. induction acts as [|act acts IH]; intros c s Hr Hv Hb; simpl.
  - exists c, s, []. eauto with avro.
  - apply Forall_cons in Hv as [Hv1 Hv].
    destruct (dispatch_sstep c s act Hr Hv1) as (c1 & s1 & o1 & Hd & Hs1 & Hr1).
    { intros ->. destruct (p_type (props c)) eqn:Ht; [done|]. exfalso. apply (Hb eq_refl). by left. }
    pose proof (dispatch_props _ _ _ _ Hd) as Hp.
    destruct (IH c1 s1 Hr1 Hv) as (c2 & s2 & o2 & Hrun & Hs2 & Hr2).
    { rewrite Hp. intros Ht Hin. apply (Hb Ht). by right. }
    exists c2, s2, (o1 ++ o2). rewrite Hd. simpl. rewrite Hrun. simpl.
    rewrite Hp, lower_all_app. eauto with avro.
Qed.

(** Mounting implements the machine's start. *)
Lemma mount_erefines (p : AvroInputProps) (l t w h : Z) :
  exists c0, mount p l t w h = Return c0 /\ props c0 = p /\ erefines c0 (e_init p).
Proof.
  destruct (mount_refines_init p l t w h) as (c0 & Hm & Hp & Hr0).
  exists c0. split; [done|]. split; [done|].
  pose proof (refines_erefines c0 _ Hr0) as Hr. simpl in Hr. by rewrite parse_empty in Hr.
Qed.

End Simulation.

(** ** Lemmas: the spec's invariant *)

Section Invariant.
Context `{Transliterator} `{!TransliteratorLaws}.

Lemma finish_inv (enter : bool) (v : jsstr) (k : nat) :
  (k <= length v)%nat -> spec_inv (finish enter v k).
Proof.
  intros Hk. unfold spec_inv, finish.
  destruct enter; simpl; rewrite parse_empty; (split; [apply suffix_nil|]); (split; [done|]); [lia|].
  unfold insert_at. rewrite !length_app, length_take, length_drop. simpl. lia.
Qed.

(** Every notification keeps the invariant. *)
Lemma sstep_inv (s s' : estate) (act : action) os :
  spec_inv s -> notification act = true -> sstep s act s' os -> spec_inv s'.
Proof.
  intros (Hsuf & Hslot & Hk) Hn Hst. destruct Hst as [s code ch Hw|s enter Hne|s enter k Hs Hk'|s|s code Ho|s|s v|s v k|s n];
    try discriminate Hn.
  - apply andb_prop in Hw as [_ Hch%negb_true_iff]. unfold spec_inv, typed. simpl.
    rewrite insert_at_take, current_run_snoc, Hch by done. split; [done|]. split; [done|].
    unfold insert_at. rewrite !length_app, length_take, length_drop. simpl. lia.
  - apply finish_inv. unfold spliced, splice_prefix. rewrite !length_app. lia.
  - by apply finish_inv.
  - unfold spec_inv, erased. destruct (e_caret s) as [|k] eqn:Ek; simpl.
    + rewrite take_0 in Hsuf. apply suffix_nil_inv in Hsuf. rewrite Hslot, Hsuf.
      split; [apply suffix_nil|]. split; [done|lia].
    + rewrite take_app, length_take, Nat.min_l, take_take, Nat.min_id, Nat.sub_diag, take_0, app_nil_r by lia.
      split; [|split; [done|rewrite length_app, length_take, length_drop; lia]].
      rewrite <- (removelast_take k) by lia. by apply removelast_suffix.
  - done.
  - unfold spec_inv. simpl. rewrite parse_empty. split; [apply suffix_nil|]. done.
Qed.

Lemma e_init_inv (p : AvroInputProps) : spec_inv (e_init p).
Proof. unfold spec_inv, e_init. simpl. rewrite parse_empty, firstn_all. split; [apply suffix_nil|]. done. Qed.

Lemma ssteps_inv (s s' : estate) (acts : list action) os :
  spec_inv s -> Forall (fun act => notification act = true) acts -> ssteps s acts s' os -> spec_inv s'.
Proof.
  intros Hinv Hn Hst. revert Hinv Hn. induction Hst as [|s act s1 o1 acts s2 o2 Hs _ IH]; [done|].
  intros Hinv [Hn1 Hn]%Forall_cons. apply IH; [|done]. by apply (sstep_inv s s1 act o1).
Qed.

End Invariant.

(** ** Lemmas: the observations of a trace *)

Lemma sstep_counts `{Transliterator} (s s' : estate) (act : action) os :
  sstep s act s' os ->
  count is_notify os = (if is_commit act then 1 else 0)%nat /\
  count is_forward os = (if is_enter act then 1 else 0)%nat.
Proof. destruct 1; try done; destruct enter; done. Qed.

Lemma ssteps_counts `{Transliterator} (s s' : estate) (acts : list action) os :
  ssteps s acts s' os ->
  count is_notify os = count is_commit acts /\ count is_forward os = count is_enter acts.
Proof.
  induction 1 as [|s act s1 o1 acts s2 o2 Hs _ [IH1 IH2]]; [done|].
  destruct (sstep_counts _ _ _ _ Hs) as [H1 H2]. rewrite !count_app, !count_cons, H1, H2, IH1, IH2.
  by destruct (is_commit act), (is_enter act).
Qed.

Lemma lower_all_counts (p : AvroInputProps) (os : list obs) :
  count is_onChange (lower_all p os) = (if p_onChange p then count is_notify os else 0)%nat /\
  count is_onKeyDown (lower_all p os) = (if p_onKeyDown p then count is_forward os else 0)%nat.
Proof.
  induction os as [|o os [IH1 IH2]]; [by destruct (p_onChange p), (p_onKeyDown p)|].
  unfold lower_all in *. simpl. rewrite !count_app, !count_cons, IH1, IH2.
  destruct o; simpl; destruct (p_onChange p), (p_onKeyDown p); done.
Qed.

(** The only key event passed to [onKeyDown] is Enter's. *)
Lemma lower_all_keydown (p : AvroInputProps) (os : list obs) (e : keyEvent) :
  CallOnKeyDown e ∈ lower_all p os -> e = enter_event.
Proof.
  unfold lower_all. intros (l & Hl & Hin)%list_elem_of_In%in_concat.
  apply in_map_iff in Hl as (o & <- & _).
  revert Hin. destruct o; simpl; destruct (p_onChange p), (p_onKeyDown p); simpl; intuition congruence.
Qed.

(** ** The end-caret machine of [Refinement] as a restriction *)

Section Restriction.
Context `{Transliterator} `{!TransliteratorLaws}.

(** A state of [Composition.astep]: the caret at the end of the text,
    slot 0 the stack's transliteration. *)
Definition embed (a : cstate) : estate :=
  mkEState (c_text a) (length (c_text a)) (c_stack a) (parse (c_stack a)).

Definition embed_action (act : Composition.action) : action :=
  match act with
  | AType code ch => EType code ch
  | ACommit enter => ECommit enter
  | AErase => EErase
  end.

Lemma insert_at_end (t v : jsstr) : insert_at (length v) t v = v ++ t.
Proof. unfold insert_at. by rewrite firstn_all, drop_all, app_nil_r. Qed.

(** Every step of the end-caret machine, from a state with its
    invariant, is a step of this machine between the embedded states. *)
Lemma astep_sstep (a a' : cstate) (act : Composition.action) os :
  a_ok a -> astep a act = Some (a', os) -> sstep (embed a) (embed_action act) (embed a') os.
Proof.
  intros Hok Hs. destruct act as [code ch|enter|]; simpl in Hs.
  - destruct (word_action code ch) eqn:Hw; [|done]. injection Hs as <- <-.
    lazymatch goal with |- sstep _ _ ?t _ => replace t with (typed (embed a) ch); [by constructor|] end.
    unfold typed, embed. simpl. rewrite insert_at_end, firstn_all, length_app. simpl.
    by rewrite Nat.add_1_r.
  - destruct (c_stack a) as [|x st] eqn:E; [done|]. rewrite <- E in Hs. injection Hs as <- <-.
    assert (Hsp : spliced (embed a) = take (length (c_text a) - length (c_stack a)) (c_text a) ++ parse (c_stack a)).
    { unfold spliced, splice_prefix, embed. simpl. by rewrite drop_all, app_nil_r, E. }
    rewrite <- Hsp.
    lazymatch goal with |- sstep _ _ ?t _ =>
      replace t with (finish enter (spliced (embed a))
                        (length (splice_prefix (embed a)) + length (e_slot (embed a)))) end.
    + apply sstep_commit. simpl. by rewrite E.
    + assert (HK : (length (splice_prefix (embed a)) + length (e_slot (embed a)))%nat =
                     length (spliced (embed a))) by (rewrite Hsp, length_app; reflexivity).
      rewrite HK. set (V := spliced (embed a)). unfold finish, embed. cbn [c_text c_stack].
      rewrite parse_empty. destruct enter; [done|].
      by rewrite insert_at_end, length_app, Nat.add_1_r.
  - injection Hs as <- <-.
    lazymatch goal with |- sstep _ _ ?t _ => replace t with (erased (embed a)); [by constructor|] end.
    destruct a as [t st]. unfold a_ok in Hok. unfold erased, embed. simpl in *.
    destruct t as [|x t _] using rev_ind.
    + apply suffix_nil_inv in Hok. by rewrite Hok.
    + rewrite length_app, Nat.add_1_r, removelast_last. cbn match.
      by rewrite take_app_length, drop_ge, app_nil_r by (rewrite length_app; simpl; lia).
Qed.

End Restriction.

(** ** Theorems *)

Section Theorems.
Context `{Transliterator} `{!TransliteratorLaws} `{TextLayout}.

(** C6. The component implements the spec's editing machine, with the
    caret anywhere. For any props and any sequence of actions with a
    transition (word keys, Space and Enter with or without a stack,
    Backspace, keys of no class, focus losses, pastes, other edits of
    the surface and caret moves;
    for a [<textarea>], no focus loss), the mounted component handles
    every event without throwing, fires exactly the callbacks of a trace
    of the machine from the [value] prop, and ends implementing the
    trace's final state: the same text, caret, stack and slot 0. *)
Theorem mount_implements_spec (p : AvroInputProps) (l t w h : Z) (acts : list action) :
  Forall (fun act => valid_action act = true) acts -> (p_type p = TEXTAREA -> EBlur ∉ acts) ->
  exists c0 c s os, mount p l t w h = Return c0 /\
    run c0 (map event_of acts) = Return (c, lower_all p os) /\
    ssteps (e_init p) acts s os /\ erefines c s.
Proof.
  intros Hv Hb. destruct (mount_erefines p l t w h) as (c0 & Hm & Hp & Hr0).
  destruct (run_ssteps c0 _ acts Hr0 Hv) as (c & s & os & Hrun & Hst & Hr); [by rewrite Hp|].
  rewrite Hp in Hrun. eauto 10.
Qed.

(** C8. The spec's invariant (section 3) holds on the component with
    the caret anywhere: after mounting and any sequence of
    notifications (key presses of every class, commits without a stack
    included, and focus losses on an [<input>]), the stack is a suffix
    of the separator-free run of the value before the caret, slot 0 is
    the stack's transliteration and [selectedIndex] is 0. *)
Theorem notifications_keep_spec_inv (p : AvroInputProps) (l t w h : Z) (acts : list action) :
  Forall (fun act => valid_action act && notification act = true) acts ->
  (p_type p = TEXTAREA -> EBlur ∉ acts) ->
  exists c0 c effs el, mount p l t w h = Return c0 /\ run c0 (map event_of acts) = Return (c, effs) /\
    textInput c = Some el /\
    stack (state c) `suffix_of` current_run (take (Z.to_nat (selectionStart el)) (value (state c))) /\
    suggestionList (state c) = [parse (stack (state c))] /\ selectedIndex (state c) = 0.
Proof.
  intros Hvn Hb.
  assert (Hv : Forall (fun act => valid_action act = true) acts)
    by (eapply Forall_impl; [exact Hvn|]; by intros act [? _]%andb_prop).
  assert (Hn : Forall (fun act => notification act = true) acts)
    by (eapply Forall_impl; [exact Hvn|]; by intros act [_ ?]%andb_prop).
  destruct (mount_erefines p l t w h) as (c0 & Hm & Hp & Hr0).
  destruct (run_ssteps c0 _ acts Hr0 Hv) as (c & s & os & Hrun & Hst & Hr); [by rewrite Hp|].
  destruct (ssteps_inv _ _ _ _ (e_init_inv p) Hn Hst) as (Hsuf & Hslot & _).
  destruct Hr as (((_ & Hi & _) & _) & Hval & Hs & Hl & (el & Hti & Hc) & _).
  exists c0, c, (lower_all (props c0) os), el. rewrite Hc, Nat2Z.id, Hval, Hs, Hl, Hslot. eauto 10.
Qed.

(** C9. The contract with the embedding application (spec section 6):
    over any session of a mounted component (valid actions; no focus
    loss on a [<textarea>]), [onChange] is called exactly once per
    Space or Enter when the prop is given and never otherwise, and
    [onKeyDown] exactly once per Enter when given and never otherwise,
    always with the Enter key event. *)
Theorem callbacks_per_commit (p : AvroInputProps) (l t w h : Z) (acts : list action) :
  Forall (fun act => valid_action act = true) acts -> (p_type p = TEXTAREA -> EBlur ∉ acts) ->
  exists c0 c effs, mount p l t w h = Return c0 /\ run c0 (map event_of acts) = Return (c, effs) /\
    count is_onChange effs = (if p_onChange p then count is_commit acts else 0)%nat /\
    count is_onKeyDown effs = (if p_onKeyDown p then count is_enter acts else 0)%nat /\
    (forall e, CallOnKeyDown e ∈ effs -> e = enter_event).
Proof.
  intros Hv Hb. destruct (mount_erefines p l t w h) as (c0 & Hm & Hp & Hr0).
  destruct (run_ssteps c0 _ acts Hr0 Hv) as (c & s & os & Hrun & Hst & _); [by rewrite Hp|].
  destruct (ssteps_counts _ _ _ _ Hst) as [Hn Hf]. destruct (lower_all_counts p os) as [Hc Hk].
  rewrite Hp in Hrun. exists c0, c, (lower_all p os). split; [done|]. split; [done|].
  rewrite Hc, Hk, Hn, Hf. split; [done|]. split; [done|]. apply lower_all_keydown.
Qed.

(** C10. A caret move during a composition makes the next commit
    corrupt the text. Composing [w] at the end of [p], moving the caret
    [d] code units back ([d <= |w|]) and pressing Space: the commit
    still removes [|w|] code units, now ending at the caret, so the last
    [d] code units of [p] are lost and the last [d] code units of [w]
    stay, untransliterated, after the transliteration and the space;
    [onChange] reports that text. *)
Theorem caret_move_then_commit_duplicates (c : component) (p w : jsstr) (d : nat) :
  refines c (mkCState (p ++ w) w) -> w <> [] -> (d <= length w)%nat ->
  exists c', run c (map event_of [EMove (length (p ++ w) - d); ECommit false]) =
      Return (c', if p_onChange (props c)
                  then [CallOnChange (take (length p - d) p ++ parse w ++ drop (length w - d) w)] else []) /\
    value (state c') = take (length p - d) p ++ parse w ++ [cu_space] ++ drop (length w - d) w.
Proof.
  intros Hr Hne Hd.
  destruct (move_sim c _ (length (p ++ w) - d) (refines_erefines c _ Hr)) as (c1 & Hd1 & Hr1).
  cbn [c_text c_stack e_text e_stack e_slot] in Hr1. rewrite Nat.min_l in Hr1 by lia.
  destruct (commit_stack_sim c1 _ false Hr1 Hne) as (c' & Hd2 & (_ & Hv & _)).
  assert (Hu : splice_prefix (mkEState (p ++ w) (length (p ++ w) - d) w (parse w)) = take (length p - d) p).
  { rewrite splice_prefix_app by lia. do 2 f_equal. lia. }
  pose proof (drop_caret_app p w d Hd) as Hq.
  exists c'. split.
  - cbn [map event_of]. rewrite (run_two _ _ _ _ _ _ _ Hd1 Hd2), (dispatch_props _ _ _ _ Hd1).
    rewrite <- commitEffects_obs, commitEffects_space by done. unfold spliced. rewrite Hu.
    cbn [e_text e_caret e_slot]. by rewrite Hq.
  - rewrite Hv, (finish_text false _ _ _ Hu Hq). done.
Qed.

(** C12. A paste does not update the stack, so the next commit splices
    the stale composition into the pasted text: from any composition
    with a non-empty stack, pasting [v] and pressing Space replaces the
    last [|stack|] code units of [v] by the stack's transliteration. *)
Theorem paste_then_space_corrupts (c : component) (a : cstate) (v : jsstr) :
  refines c a -> c_stack a <> [] ->
  exists c', run c (map event_of [EPaste v; ECommit false]) =
      Return (c', if p_onChange (props c)
                  then [CallOnChange (take (length v - length (c_stack a)) v ++ parse (c_stack a))] else []) /\
    value (state c') = take (length v - length (c_stack a)) v ++ parse (c_stack a) ++ [cu_space].
Proof.
  intros Hr Hne.
  destruct (paste_sim c _ v (refines_erefines c _ Hr)) as (c1 & Hd1 & Hr1).
  cbn [c_stack e_stack] in Hr1.
  destruct (commit_stack_sim c1 _ false Hr1 Hne) as (c' & Hd2 & (_ & Hv & _)).
  pose proof (drop_all v) as Hq.
  exists c'. split.
  - cbn [map event_of]. rewrite (run_two _ _ _ _ _ _ _ Hd1 Hd2), (dispatch_props _ _ _ _ Hd1).
    rewrite <- commitEffects_obs, commitEffects_space by done. unfold spliced. cbn.
    by rewrite Hq, app_nil_r.
  - rewrite Hv, (finish_text false (mkEState v (length v) (c_stack a) (parse (c_stack a)))
                 (take (length v - length (c_stack a)) v) [] eq_refl Hq).
    cbn. by rewrite ?app_nil_r.
Qed.

(** C13. Backspace at the start of the field deletes nothing but still
    shortens the stack, while slot 0 keeps the transliteration of the
    whole word: composing [w] (at least two code units) at the end of
    [p], moving the caret to the start, Backspace and Space insert
    [parse w] and a space at the start and keep the whole text, the
    word included. *)
Theorem home_backspace_then_space_duplicates (c : component) (p w : jsstr) :
  refines c (mkCState (p ++ w) w) -> (2 <= length w)%nat ->
  exists c', run c (map event_of [EMove 0; EErase; ECommit false]) =
      Return (c', if p_onChange (props c) then [CallOnChange (parse w ++ p ++ w)] else []) /\
    value (state c') = parse w ++ [cu_space] ++ p ++ w.
Proof.
  intros Hr Hw.
  destruct (move_sim c _ 0 (refines_erefines c _ Hr)) as (c1 & Hd1 & Hr1).
  destruct (erase_sim c1 _ Hr1) as (c2 & Hd2 & Hr2). cbn in Hr2.
  assert (Hne : removelast w <> []).
  { destruct w as [|x [|y w']]; cbn in Hw; [lia|lia|]. by cbn [removelast]. }
  destruct (commit_stack_sim c2 _ false Hr2 Hne) as (c' & Hd3 & (_ & Hv & _)).
  pose proof (dispatch_props _ _ _ _ Hd1) as Hp1. pose proof (dispatch_props _ _ _ _ Hd2) as Hp2.
  exists c'. split.
  - cbn [map event_of]. rewrite (run_cons _ _ _ _ _ _ _ Hd1 (run_two _ _ _ _ _ _ _ Hd2 Hd3)), Hp2, Hp1.
    by rewrite <- commitEffects_obs, commitEffects_space.
  - rewrite Hv. erewrite finish_text by reflexivity. cbn. done.
Qed.

(** C21. A word key whose value is not a character (a dead key's
    ["Dead"]) lengthens the stack by the key's name without typing
    anything, so the next commit deletes text before the word: composing
    [w], the whole run at the end of [p], then such a key [k] and Enter
    removes the last [|k|] code units of [p] along with the word. *)
Theorem named_key_then_enter_deletes (c : component) (p w k : jsstr) (code : Z) :
  refines c (mkCState (p ++ w) w) -> current_run (p ++ w) = w -> w <> [] ->
  is_word_key code = true -> is_char k = false -> Forall (fun x => JS.is_ws x = false) k ->
  exists c', run c [KeyPress (mkKeyEvent code k); KeyPress enter_event] =
      Return (c', lower_all (props c) (commit_obs true (take (length p - length k) p ++ parse w))) /\
    value (state c') = take (length p - length k) p ++ parse w.
Proof.
  intros Hr Hrun Hne Hk Hc Hws.
  destruct (named_sim c _ code k (refines_erefines c _ Hr) Hk Hc Hws) as (c1 & Hd1 & Hr1).
  cbn [c_text c_stack e_text e_caret e_slot] in Hr1. rewrite firstn_all, Hrun in Hr1.
  destruct (commit_stack_sim c1 _ true Hr1) as (c' & Hd2 & (_ & Hv & _)); [by destruct w|].
  assert (Hu : splice_prefix (mkEState (p ++ w) (length (p ++ w)) (w ++ k) (parse w)) = take (length p - length k) p).
  { pose proof (splice_prefix_app p w (w ++ k) (parse w) 0) as E. rewrite !Nat.sub_0_r in E.
    rewrite E by (rewrite ?length_app; lia). do 2 f_equal. rewrite length_app. lia. }
  pose proof (drop_all (p ++ w)) as Hq.
  exists c'. split.
  - rewrite (run_two _ _ _ _ (KeyPress enter_event) _ _ Hd1 Hd2), (dispatch_props _ _ _ _ Hd1). cbn [app].
    unfold spliced. rewrite Hu. cbn [e_text e_caret e_slot]. by rewrite Hq, app_nil_r.
  - rewrite Hv, (finish_text true _ _ _ Hu Hq). cbn. by rewrite ?app_nil_r.
Qed.

End Theorems.

(** ** Concrete sessions and witnesses *)

Section Witnesses.
#[local] Existing Instance ami_transliterator.
#[local] Existing Instance ami_transliterator_laws.
#[local] Existing Instance Caret.monospace_layout.

(** Typing "ami". *)
Definition type_ami : list action := [EType 65 97; EType 77 109; EType 73 105].

(** "hello ami" being composed: the word "ami" after "hello ". *)
Definition composing_hello_ami : component :=
  mkComponent (mkState (js "hello ami") (js "ami") [ami_bn] 0 8 10)
    (Some (text_element (js "hello ami") 9)) text_props.

Lemma composing_hello_ami_refines : refines composing_hello_ami (mkCState (js "hello " ++ js "ami") (js "ami")).
Proof.
  apply (refines_intro _ _ (text_element (js "hello ami") 9)); try reflexivity; [|by exists []].
  apply (wf_intro _ ami_bn (text_element (js "hello ami") 9)); try reflexivity.
  unfold el_ok, zlen. simpl. lia.
Qed.

Lemma caret_move_then_commit_duplicates_witness :
  refines typed_ami (mkCState ([] ++ js "ami") (js "ami")) /\ js "ami" <> [] /\ (1 <= length (js "ami"))%nat /\
  exists c', run typed_ami (map event_of [EMove 2; ECommit false]) = Return (c', [CallOnChange (ami_bn ++ js "i")]) /\
    value (state c') = ami_bn ++ js " i".
Proof.
  split; [exact typed_ami_refines|]. split; [discriminate|]. split; [simpl; lia|].
  exact (caret_move_then_commit_duplicates typed_ami [] (js "ami") 1 typed_ami_refines
           ltac:(discriminate) ltac:(simpl; lia)).
Defined.

Lemma paste_then_space_corrupts_witness :
  refines typed_ami (mkCState (js "ami") (js "ami")) /\ js "ami" <> [] /\
  exists c', run typed_ami (map event_of [EPaste (js "hello"); ECommit false]) =
      Return (c', [CallOnChange (js "he" ++ ami_bn)]) /\
    value (state c') = js "he" ++ ami_bn ++ [cu_space].
Proof.
  split; [exact typed_ami_refines|]. split; [discriminate|].
  exact (paste_then_space_corrupts typed_ami (mkCState (js "ami") (js "ami")) (js "hello")
           typed_ami_refines ltac:(discriminate)).
Defined.

Lemma home_backspace_then_space_duplicates_witness :
  refines typed_ami (mkCState ([] ++ js "ami") (js "ami")) /\ (2 <= length (js "ami"))%nat /\
  exists c', run typed_ami (map event_of [EMove 0; EErase; ECommit false]) =
      Return (c', [CallOnChange (ami_bn ++ js "ami")]) /\
    value (state c') = ami_bn ++ js " ami".
Proof.
  split; [exact typed_ami_refines|]. split; [simpl; lia|].
  exact (home_backspace_then_space_duplicates typed_ami [] (js "ami") typed_ami_refines ltac:(simpl; lia)).
Defined.

Lemma named_key_then_enter_deletes_witness :
  refines composing_hello_ami (mkCState (js "hello " ++ js "ami") (js "ami")) /\
  current_run (js "hello " ++ js "ami") = js "ami" /\ js "ami" <> [] /\ is_word_key 222 = true /\
  is_char (js "Dead") = false /\ Forall (fun x => JS.is_ws x = false) (js "Dead") /\
  exists c', run composing_hello_ami [dead_key; KeyPress enter_event] =
      Return (c', [CallOnChange (js "he" ++ ami_bn); PreventDefault]) /\
    value (state c') = js "he" ++ ami_bn.
Proof.
  assert (Hws : Forall (fun x => JS.is_ws x = false) (js "Dead")) by (repeat constructor).
  split; [exact composing_hello_ami_refines|]. split; [reflexivity|]. split; [discriminate|].
  split; [reflexivity|]. split; [reflexivity|]. split; [exact Hws|].
  exact (named_key_then_enter_deletes composing_hello_ami (js "hello ") (js "ami") (js "Dead") 222
           composing_hello_ami_refines eq_refl ltac:(discriminate) eq_refl eq_refl Hws).
Defined.

(** The machine's own invariant does not survive a caret move. *)
Example move_breaks_spec_inv :
  spec_inv (mkEState (js "ami") 3 (js "ami") ami_bn) /\
  sstep (mkEState (js "ami") 3 (js "ami") ami_bn) (EMove 2) (mkEState (js "ami") 2 (js "ami") ami_bn) [] /\
  ~ spec_inv (mkEState (js "ami") 2 (js "ami") ami_bn).
Proof.
  split; [split; [by exists []|done]|]. split; [exact (sstep_move (mkEState (js "ami") 3 (js "ami") ami_bn) 2)|].
  intros [Hsuf _]. apply suffix_length in Hsuf. simpl in Hsuf. lia.
Qed.

Lemma mount_implements_spec_witness :
  Forall (fun act => valid_action act = true) (type_ami ++ [EMove 1; ECommit false; EPaste (js "x"); EInput (js "ab") 1; EErase]) /\
  (p_type text_props = TEXTAREA -> EBlur ∉ type_ami ++ [EMove 1; ECommit false; EPaste (js "x"); EInput (js "ab") 1; EErase]) /\
  exists c0 c s os, mount text_props 0 0 300 20 = Return c0 /\
    run c0 (map event_of (type_ami ++ [EMove 1; ECommit false; EPaste (js "x"); EInput (js "ab") 1; EErase])) =
      Return (c, lower_all text_props os) /\
    ssteps (e_init text_props) (type_ami ++ [EMove 1; ECommit false; EPaste (js "x"); EInput (js "ab") 1; EErase]) s os /\
    erefines c s.
Proof.
  assert (Hv : Forall (fun act => valid_action act = true)
                 (type_ami ++ [EMove 1; ECommit false; EPaste (js "x"); EInput (js "ab") 1; EErase])) by (repeat constructor).
  assert (Hb : p_type text_props = TEXTAREA -> EBlur ∉ type_ami ++ [EMove 1; ECommit false; EPaste (js "x"); EInput (js "ab") 1; EErase])
    by discriminate.
  split; [exact Hv|]. split; [exact Hb|]. exact (mount_implements_spec text_props 0 0 300 20 _ Hv Hb).
Defined.

Lemma notifications_keep_spec_inv_witness :
  Forall (fun act => valid_action act && notification act = true) (type_ami ++ [ECommit true; EBlur; ECommit false]) /\
  (p_type text_props = TEXTAREA -> EBlur ∉ type_ami ++ [ECommit true; EBlur; ECommit false]) /\
  exists c0 c effs el, mount text_props 0 0 300 20 = Return c0 /\
    run c0 (map event_of (type_ami ++ [ECommit true; EBlur; ECommit false])) = Return (c, effs) /\
    textInput c = Some el /\
    stack (state c) `suffix_of` current_run (take (Z.to_nat (selectionStart el)) (value (state c))) /\
    suggestionList (state c) = [parse (stack (state c))] /\ selectedIndex (state c) = 0.
Proof.
  assert (Hv : Forall (fun act => valid_action act && notification act = true)
                 (type_ami ++ [ECommit true; EBlur; ECommit false])) by (repeat constructor).
  assert (Hb : p_type text_props = TEXTAREA -> EBlur ∉ type_ami ++ [ECommit true; EBlur; ECommit false])
    by discriminate.
  split; [exact Hv|]. split; [exact Hb|]. exact (notifications_keep_spec_inv text_props 0 0 300 20 _ Hv Hb).
Defined.

Lemma callbacks_per_commit_witness :
  Forall (fun act => valid_action act = true) (type_ami ++ [ECommit true; EMove 0; ECommit false]) /\
  (p_type demo_props = TEXTAREA -> EBlur ∉ type_ami ++ [ECommit true; EMove 0; ECommit false]) /\
  exists c0 c effs, mount demo_props 0 0 300 20 = Return c0 /\
    run c0 (map event_of (type_ami ++ [ECommit true; EMove 0; ECommit false])) = Return (c, effs) /\
    count is_onChange effs =
      (if p_onChange demo_props then count is_commit (type_ami ++ [ECommit true; EMove 0; ECommit false]) else 0)%nat /\
    count is_onKeyDown effs =
      (if p_onKeyDown demo_props then count is_enter (type_ami ++ [ECommit true; EMove 0; ECommit false]) else 0)%nat /\
    (forall e, CallOnKeyDown e ∈ effs -> e = enter_event).
Proof.
  assert (Hv : Forall (fun act => valid_action act = true) (type_ami ++ [ECommit true; EMove 0; ECommit false]))
    by (repeat constructor).
  assert (Hb : p_type demo_props = TEXTAREA -> EBlur ∉ type_ami ++ [ECommit true; EMove 0; ECommit false])
    by discriminate.
  split; [exact Hv|]. split; [exact Hb|]. exact (callbacks_per_commit demo_props 0 0 300 20 _ Hv Hb).
Defined.

End Witnesses.

End Editing.
