(* ===== verification/App.v ===== *)
(** * The application: src/src/App.tsx

    [App] (App.tsx, lines 5-21) renders two [AvroInput]s: a text box
    with [className], [placeholder] and [onChange={onInputChange}], and
    a [<textarea>] with a [style] and an [onKeyDown] arrow; both
    callbacks call [console.log] with their argument. This file gives
    the two JSX props objects, resolves them as React does, checks them
    against [propTypes], derives the props the handlers read (which are
    [Session.text_props] and [Session.textarea_props]), and maps the
    callbacks a session fires to what the console shows. The theorem:
    for each instance the console output of any session is given by the
    observations of a trace of the editing machine ([Editing]): the
    committed texts for the text box, one key event per Enter for the
    [<textarea>]. *)

From stdpp Require Import gmap strings.
From S2P Require Import Prelude JsString Interfaces Caret Controller Render Session Refinement Editing.

Local Open Scope Z_scope.

Module App.
Import Controller Render Session Composition.

(** What [console.log] prints: a committed value or a key event. *)
Inductive logged :=
| LogValue (v : jsstr)
| LogEvent (e : keyEvent).

(** [onInputChange] (lines 6-8) and the [onKeyDown] arrow (line 17)
    log their argument; no other handler can be in a prop. *)
Definition call_handler (h : handler) (arg : logged) : list logged :=
  match h with
  | AppOnInputChange | AppLogEvent => [arg]
  | _ => []
  end.

(** The JSX props of the two instances (lines 15 and 17). *)
Definition app_text_props : jsobj :=
  list_to_map [("type", JStr (js "text")); ("className", JStr (js "Hello"));
               ("placeholder", JStr (js "Search here")); ("onChange", JFun AppOnInputChange)].

Definition app_textarea_props : jsobj :=
  list_to_map [("type", JStr (js "textarea"));
               ("style", JStyle (list_to_map [("width", CssStr "100%"); ("height", CssStr "100px")]));
               ("onKeyDown", JFun AppLogEvent)].

(** [App]'s children, in order. *)
Definition App : list jsobj := [app_text_props; app_textarea_props].

(** A callback of an instance with props [props], as the console sees
    it: [this.props.onChange(finalVal)] and [this.props.onKeyDown(event)]. *)
Definition console_of (props : jsobj) (eff : effect) : list logged :=
  match eff with
  | CallOnChange v =>
      match props !! "onChange" with Some (JFun h) => call_handler h (LogValue v) | _ => [] end
  | CallOnKeyDown e =>
      match props !! "onKeyDown" with Some (JFun h) => call_handler h (LogEvent e) | _ => [] end
  | PreventDefault => []
  end.

Definition console (props : jsobj) (effs : list effect) : list logged := effs ≫= console_of props.

(** What the console shows for one observation of the composition
    machine, given the props. *)
Definition console_obs (props : jsobj) (o : obs) : list logged :=
  match o with
  | ONotify v => console_of props (CallOnChange v)
  | OSuppress => []
  | OForward => console_of props (CallOnKeyDown enter_event)
  end.

(** ** Lemmas *)

Lemma console_app (props : jsobj) (effs1 effs2 : list effect) :
  console props (effs1 ++ effs2) = console props effs1 ++ console props effs2.
Proof. unfold console. by rewrite bind_app. Qed.

Lemma app_text_resolved : controller_props (resolveDefaultProps app_text_props) = text_props.
Proof. vm_compute. reflexivity. Qed.

Lemma app_textarea_resolved : controller_props (resolveDefaultProps app_textarea_props) = textarea_props.
Proof. vm_compute. reflexivity. Qed.

Lemma console_lower_all (props : jsobj) (os : list obs) :
  console props (lower_all (controller_props props) os) = os ≫= console_obs props.
Proof.
  induction os as [|o os IH]; [done|]. unfold lower_all in *. simpl.
  rewrite console_app, IH. f_equal. unfold console, controller_props. destruct o; simpl.
  - destruct (props !! "onChange") as [[]|] eqn:E; simpl; rewrite ?E; simpl; by rewrite ?app_nil_r.
  - done.
  - destruct (props !! "onKeyDown") as [[]|] eqn:E; simpl; rewrite ?E; simpl; by rewrite ?app_nil_r.
Qed.

Lemma app_props_ne : app_text_props <> app_textarea_props.
Proof. intros E. apply (f_equal (lookup "type")) in E. vm_compute in E. discriminate E. Qed.

Lemma app_text_obs (o : obs) :
  console_obs (resolveDefaultProps app_text_props) o =
  match o with ONotify v => [LogValue v] | _ => [] end.
Proof. by destruct o; vm_compute. Qed.

Lemma app_textarea_obs (o : obs) :
  console_obs (resolveDefaultProps app_textarea_props) o =
  match o with OForward => [LogEvent enter_event] | _ => [] end.
Proof. by destruct o; vm_compute. Qed.

(** ** Theorems *)

Section Console.
Context `{Transliterator} `{!TransliteratorLaws} `{TextLayout}.

(** C36. What [App] logs during any session of each of its children:
    for any sequence of actions of the editing machine (word keys,
    commits with or without a stack, Backspace, other keys, pastes,
    caret moves, and focus losses on the text box), the session is a
    trace of the machine, and the text box logs each committed text, in
    order, and nothing else, while the [<textarea>] logs one key event
    per Enter and never its text. *)
Theorem app_console (jsx : jsobj) (l t w h : Z) (acts : list Editing.action) :
  jsx ∈ App -> Forall (fun act => Editing.valid_action act = true) acts ->
  (jsx = app_textarea_props -> Editing.EBlur ∉ acts) ->
  exists c0 c effs s os, mount (controller_props (resolveDefaultProps jsx)) l t w h = Return c0 /\
    run c0 (map Editing.event_of acts) = Return (c, effs) /\
    Editing.ssteps (Editing.e_init (controller_props (resolveDefaultProps jsx))) acts s os /\
    console (resolveDefaultProps jsx) effs =
      os ≫= (fun o => match o with
                      | ONotify v => if decide (jsx = app_text_props) then [LogValue v] else []
                      | OSuppress => []
                      | OForward => if decide (jsx = app_text_props) then [] else [LogEvent enter_event]
                      end).
Proof.
  intros Hin Hv Hb. apply list_elem_of_In in Hin.
  destruct (Editing.mount_erefines (controller_props (resolveDefaultProps jsx)) l t w h) as (c0 & Hm & Hp & Hr0).
  destruct (Editing.run_ssteps c0 _ acts Hr0 Hv) as (c & s & os & Hrun & Hst & _).
  { rewrite Hp. intros Ht. apply Hb. destruct Hin as [<-|[<-|[]]]; [|done].
    by rewrite app_text_resolved in Ht. }
  exists c0, c, (lower_all (props c0) os), s, os. split; [exact Hm|]. split; [exact Hrun|]. split; [exact Hst|].
  rewrite Hp, console_lower_all. apply list_bind_ext; [|done]. intros o.
  destruct Hin as [<-|[<-|[]]].
  - rewrite app_text_obs, decide_True by done. by destruct o.
  - rewrite app_textarea_obs, decide_False by (apply not_eq_sym, app_props_ne). by destruct o.
Qed.

End Console.

(** ** Witnesses *)

Section Witnesses.
#[local] Existing Instance ami_transliterator.
#[local] Existing Instance ami_transliterator_laws.
#[local] Existing Instance Caret.monospace_layout.

(** The text box: "ami", one step left, Space (the duplicating commit
    of [Editing.caret_move_then_commit_duplicates]), then Enter with no
    stack, which transliterates the whole value again. *)
Definition app_session : list Editing.action :=
  Editing.type_ami ++ [Editing.EMove 2; Editing.ECommit false; Editing.ECommit true].

Lemma app_console_witness :
  app_text_props ∈ App /\ Forall (fun act => Editing.valid_action act = true) app_session /\
  (app_text_props = app_textarea_props -> Editing.EBlur ∉ app_session) /\
  exists c0 c effs s os, mount (controller_props (resolveDefaultProps app_text_props)) 0 0 300 20 = Return c0 /\
    run c0 (map Editing.event_of app_session) = Return (c, effs) /\
    Editing.ssteps (Editing.e_init (controller_props (resolveDefaultProps app_text_props))) app_session s os /\
    console (resolveDefaultProps app_text_props) effs =
      os ≫= (fun o => match o with
                      | ONotify v => if decide (app_text_props = app_text_props) then [LogValue v] else []
                      | OSuppress => []
                      | OForward => if decide (app_text_props = app_text_props) then [] else [LogEvent enter_event]
                      end).
Proof.
  assert (Hin : app_text_props ∈ App) by (apply list_elem_of_In; by left).
  assert (Hv : Forall (fun act => Editing.valid_action act = true) app_session) by (repeat constructor).
  assert (Hb : app_text_props = app_textarea_props -> Editing.EBlur ∉ app_session)
    by (intros E; destruct (app_props_ne E)).
  split; [exact Hin|]. split; [exact Hv|]. split; [exact Hb|].
  exact (app_console app_text_props 0 0 300 20 app_session Hin Hv Hb).
Defined.

End Witnesses.

End App.
